(** * aavehealthfactor: the monitoring bot of [src/aavehealthfactor.py]

    A shallow embedding of the subscription registry ([user_data]), its JSON
    persistence ([load_user_data], [save_user_data]), the command handlers
    ([monitor], [check], [stop]) and the periodic sweep ([periodic_check],
    [check_and_notify]), followed by the properties of the specification
    that were checked against them.

    Python values are modelled as they are at run time: a [float] is an
    IEEE 754 binary64 datum ([spec_float]), a [str] is a [string] whose
    characters are the code points 0..255, a [dict] is an association list
    in insertion order with distinct keys.  Library functions whose code is
    not part of the repository ([float()], [repr()], [int()],
    [w3.is_address], the contract call and the Telegram API) are fields of
    a [runtime] record. *)

From Stdlib Require Import ZArith List String Ascii Bool Lia.
From Stdlib Require Import Floats.SpecFloat.
From Stdlib Require Import DecimalString.
From Stdlib Require DecimalFacts DecimalPos DecimalZ.
Import ListNotations.

Open Scope string_scope.
Open Scope Z_scope.

Set Implicit Arguments.
Set Warnings "-register-all".

(** ** Python floats *)

Definition float64 : Type := spec_float.

Definition prec64 : Z := 53.
Definition emax64 : Z := 1024.

(** [x < y] and [x >= y] on floats: IEEE comparisons, false on NaN. *)
Definition float_lt (x y : float64) : bool := SFltb x y.
Definition float_ge (x y : float64) : bool := SFleb y x.

Definition float_is_nan (x : float64) : bool :=
  match x with S754_nan => true | _ => false end.

Definition float_is_finite (x : float64) : bool :=
  match x with
  | S754_zero _ | S754_finite _ _ _ => true
  | S754_infinity _ | S754_nan => false
  end.

(** The threshold the specification calls valid: finite and [> 0]. *)
Definition finite_positive (x : float64) : bool :=
  float_is_finite x && float_lt (S754_zero false) x.

(** Conversion of a Python [int] to [float] (round to nearest even);
    [None] is the [OverflowError] of an integer too large for a double. *)
Definition float_of_int (z : Z) : option float64 :=
  match binary_normalize prec64 emax64 z 0 false with
  | S754_infinity _ => None
  | f => Some f
  end.

(** The literal [1e18]. *)
Definition float_1e18 : float64 :=
  binary_normalize prec64 emax64 (10 ^ 18) 0 false.

(** [n / d] for an [int] [n] and a non-zero [float] [d]. *)
Definition int_truediv_float (n : Z) (d : float64) : option float64 :=
  match float_of_int n with
  | Some x => Some (SFdiv prec64 emax64 x d)
  | None => None
  end.

(** ** Python dicts with [str] keys: insertion-ordered association lists *)

Definition pydict (V : Type) : Type := list (string * V).

Section PyDict.
Variable V : Type.

Fixpoint dict_get (k : string) (d : pydict V) : option V :=
  match d with
  | [] => None
  | (k', v) :: d' => if String.eqb k k' then Some v else dict_get k d'
  end.

(** [k in d] *)
Definition dict_mem (k : string) (d : pydict V) : bool :=
  match dict_get k d with Some _ => true | None => false end.

(** [d[k] = v]: an existing key keeps its position, a new one goes last. *)
Fixpoint dict_set (k : string) (v : V) (d : pydict V) : pydict V :=
  match d with
  | [] => [(k, v)]
  | (k', v') :: d' =>
      if String.eqb k k' then (k', v) :: d' else (k', v') :: dict_set k v d'
  end.

(** [del d[k]] *)
Fixpoint dict_del (k : string) (d : pydict V) : pydict V :=
  match d with
  | [] => []
  | (k', v') :: d' =>
      if String.eqb k k' then d' else (k', v') :: dict_del k d'
  end.

Definition dict_keys (d : pydict V) : list string := map fst d.

(** [dict(pairs)]: later pairs overwrite earlier ones. *)
Definition dict_of_pairs (pairs : list (string * V)) : pydict V :=
  fold_left (fun d kv => dict_set (fst kv) (snd kv) d) pairs [].
End PyDict.

(** ** Characters *)

Definition chr (n : nat) : ascii := ascii_of_nat n.
Definition ord (c : ascii) : nat := nat_of_ascii c.

Definition dquote : ascii := chr 34.
Definition backslash : ascii := chr 92.

Definition str1 (c : ascii) : string := String c EmptyString.

Definition is_digit (c : ascii) : bool :=
  (48 <=? ord c)%nat && (ord c <=? 57)%nat.

(** JSON whitespace: space, tab, line feed, carriage return. *)
Definition is_json_ws (c : ascii) : bool :=
  match ord c with
  | 32%nat | 9%nat | 10%nat | 13%nat => true
  | _ => false
  end.

(** The characters [str.strip()] removes, among the code points 0..255. *)
Definition is_py_space (c : ascii) : bool :=
  let n := ord c in
  ((9 <=? n)%nat && (n <=? 13)%nat) || ((28 <=? n)%nat && (n <=? 32)%nat)
  || (n =? 133)%nat || (n =? 160)%nat.

Fixpoint lstrip (s : string) : string :=
  match s with
  | EmptyString => EmptyString
  | String c s' => if is_py_space c then lstrip s' else s
  end.

Fixpoint rstrip (s : string) : string :=
  match s with
  | EmptyString => EmptyString
  | String c s' =>
      match rstrip s' with
      | EmptyString => if is_py_space c then EmptyString else str1 c
      | r => String c r
      end
  end.

(** [s.strip()] *)
Definition py_strip (s : string) : string := rstrip (lstrip s).

Definition hex_digit (n : nat) : ascii :=
  if (n <? 10)%nat then chr (48 + n) else chr (87 + n).

Definition hex_value (c : ascii) : option nat :=
  let n := ord c in
  if (48 <=? n)%nat && (n <=? 57)%nat then Some (n - 48)%nat
  else if (97 <=? n)%nat && (n <=? 102)%nat then Some (n - 87)%nat
  else if (65 <=? n)%nat && (n <=? 70)%nat then Some (n - 55)%nat
  else None.

(** [str(n)] and [int.__repr__] of an [int]. *)
Definition int_repr (z : Z) : string := NilZero.string_of_int (Z.to_int z).

(** ** The library functions the bot calls *)

Record runtime : Type := {
  (** [float(s)]; [None] is [ValueError]. *)
  py_float : string -> option float64;
  (** [float.__repr__], which is also how an f-string prints a float. *)
  float_repr : float64 -> string;
  (** [int(s)]; [None] is [ValueError]. *)
  py_int : string -> option Z;
  (** [w3.is_address(s)]. *)
  is_address : string -> bool;
  (** The outcome of the [n]-th [getUserAccountData(address).call()]
      of the run; [None] stands for any exception. *)
  getUserAccountData : nat -> string -> option (list Z);
  (** Whether the [n]-th call of the Telegram API of the run
      ([reply_text] or [send_message]) succeeds; otherwise it raises. *)
  delivers : nat -> bool
}.

(** ** JSON values and [json.dump] *)

(** What [json.loads] can return and [json.dump] accepts. *)
Inductive pyobj : Type :=
| PNone
| PBool (b : bool)
| PInt (z : Z)
| PFloat (f : float64)
| PStr (s : string)
| PList (l : list pyobj)
| PDict (d : list (string * pyobj)).

(** [ESCAPE_DCT] and the [\uXXXX] fallback of [encode_basestring_ascii]:
    the replacement of one character that is a quote, a backslash or
    outside [' '..'~']. *)
Definition escape_char (c : ascii) : string :=
  if Ascii.eqb c dquote then String backslash (str1 dquote)
  else if Ascii.eqb c backslash then String backslash (str1 backslash)
  else if Ascii.eqb c (chr 8) then String backslash "b"
  else if Ascii.eqb c (chr 12) then String backslash "f"
  else if Ascii.eqb c (chr 10) then String backslash "n"
  else if Ascii.eqb c (chr 13) then String backslash "r"
  else if Ascii.eqb c (chr 9) then String backslash "t"
  else if (32 <=? ord c)%nat && (ord c <=? 126)%nat then str1 c
  else String backslash
         (String "u" (String "0" (String "0"
           (String (hex_digit (ord c / 16)%nat)
              (str1 (hex_digit (ord c mod 16)%nat)))))).

Fixpoint escape_ascii (s : string) : string :=
  match s with
  | EmptyString => EmptyString
  | String c s' => escape_char c ++ escape_ascii s'
  end.

(** [encode_basestring_ascii(s)] *)
Definition encode_basestring_ascii (s : string) : string :=
  String dquote (escape_ascii s ++ str1 dquote).

Section Encoder.
Context (rt : runtime).

(** [floatstr(o)] of [json.encoder] (with [allow_nan] at its default). *)
Definition floatstr (o : float64) : string :=
  match o with
  | S754_nan => "NaN"
  | S754_infinity false => "Infinity"
  | S754_infinity true => "-Infinity"
  | _ => float_repr rt o
  end.

(** The text of a value that [_iterencode] yields in one piece;
    [None] for a list or a dict. *)
Definition atom_text (o : pyobj) : option string :=
  match o with
  | PStr s => Some (encode_basestring_ascii s)
  | PNone => Some "null"
  | PBool true => Some "true"
  | PBool false => Some "false"
  | PInt z => Some (int_repr z)
  | PFloat f => Some (floatstr f)
  | PList _ | PDict _ => None
  end.

Section Items.
(** [_iterencode], for the values inside a list or a dict. *)
Variable iterencode : pyobj -> list string.

(** The loop of [_iterencode_list]: an element that is not a list or
    a dict is yielded together with the bracket or separator before
    it. *)
Fixpoint iterencode_list_items (first : bool) (l : list pyobj)
  : list string :=
  match l with
  | [] => ["]"]
  | v :: l' =>
      let buf := if first then "[" else ", " in
      (match atom_text v with
       | Some t => [(buf ++ t)%string]
       | None => buf :: iterencode v
       end ++ iterencode_list_items false l')%list
  end.

(** The loop of [_iterencode_dict]. *)
Fixpoint iterencode_dict_items (first : bool) (d : list (string * pyobj))
  : list string :=
  match d with
  | [] => ["}"]
  | (k, v) :: d' =>
      ((if first then [] else [", "]) ++
       encode_basestring_ascii k :: ": " ::
       match atom_text v with
       | Some t => [t]
       | None => iterencode v
       end ++ iterencode_dict_items false d')%list
  end.
End Items.

(** [_iterencode(o)]: the chunks that [json.dump] writes one by one. *)
Fixpoint iterencode (o : pyobj) : list string :=
  match o with
  | PList [] => ["[]"]
  | PList l => iterencode_list_items iterencode true l
  | PDict [] => ["{}"]
  | PDict d => "{" :: iterencode_dict_items iterencode true d
  | PStr s => [encode_basestring_ascii s]
  | PNone => ["null"]
  | PBool true => ["true"]
  | PBool false => ["false"]
  | PInt z => [int_repr z]
  | PFloat f => [floatstr f]
  end.

(** The whole text [json.dump(o, f)] writes. *)
Definition json_text (o : pyobj) : string :=
  fold_right String.append EmptyString (iterencode o).
End Encoder.

(** ** Exceptions and results *)

Inductive exn : Type :=
| JSONDecodeError
| FileNotFoundError
| ValueError
| TelegramError
(** Raised by the model where it does not cover CPython: a [\uXXXX]
    escape above code point 255.  (It is also what the decoder answers
    when its bound on nested calls is used up, which does not happen
    with the bound that [json_loads] gives.) *)
| Unmodelled.

Inductive result (A : Type) : Type :=
| Ok (a : A)
| Raise (e : exn).

Arguments Ok {A} a.
Arguments Raise {A} e.

(** ** [json.loads] *)

(** [WHITESPACE.match(s, idx).end()] *)
Fixpoint skip_ws (s : string) : string :=
  match s with
  | EmptyString => EmptyString
  | String c s' => if is_json_ws c then skip_ws s' else s
  end.

(** [s[idx:idx+len(p)] == p], giving what follows. *)
Fixpoint strip_prefix (p s : string) : option string :=
  match p, s with
  | EmptyString, _ => Some s
  | String a p', String b s' =>
      if Ascii.eqb a b then strip_prefix p' s' else None
  | String _ _, EmptyString => None
  end.

(** The [BACKSLASH] table of [json.decoder]. *)
Definition unescape (c : ascii) : option ascii :=
  if Ascii.eqb c dquote then Some dquote
  else if Ascii.eqb c backslash then Some backslash
  else if Ascii.eqb c "/" then Some "/"%char
  else if Ascii.eqb c "b" then Some (chr 8)
  else if Ascii.eqb c "f" then Some (chr 12)
  else if Ascii.eqb c "n" then Some (chr 10)
  else if Ascii.eqb c "r" then Some (chr 13)
  else if Ascii.eqb c "t" then Some (chr 9)
  else None.

(** The value of four hexadecimal digits. *)
Definition hex4 (a b c d : ascii) : option nat :=
  match hex_value a, hex_value b, hex_value c, hex_value d with
  | Some x, Some y, Some z, Some w =>
      Some (((x * 16 + y) * 16 + z) * 16 + w)%nat
  | _, _, _, _ => None
  end.

Definition cons_char (c : ascii) (r : result (string * string))
  : result (string * string) :=
  match r with
  | Ok (t, rest) => Ok (String c t, rest)
  | Raise e => Raise e
  end.

(** [scanstring(s, end)] in strict mode, [s] starting just after the
    opening quote: the decoded string and what follows the closing quote. *)
Fixpoint scanstring (s : string) : result (string * string) :=
  match s with
  | EmptyString => Raise JSONDecodeError
  | String c s1 =>
      if Ascii.eqb c dquote then Ok (EmptyString, s1)
      else if Ascii.eqb c backslash then
        match s1 with
        | EmptyString => Raise JSONDecodeError
        | String e s2 =>
            if Ascii.eqb e "u" then
              match s2 with
              | String h1 (String h2 (String h3 (String h4 s3))) =>
                  match hex4 h1 h2 h3 h4 with
                  | Some n =>
                      if (n <? 256)%nat then cons_char (chr n) (scanstring s3)
                      else Raise Unmodelled
                  | None => Raise JSONDecodeError
                  end
              | _ => Raise JSONDecodeError
              end
            else
              match unescape e with
              | Some ch => cons_char ch (scanstring s2)
              | None => Raise JSONDecodeError
              end
        end
      else if (ord c <? 32)%nat then Raise JSONDecodeError
      else cons_char c (scanstring s1)
  end.

(** The longest prefix of digits, and the rest. *)
Fixpoint span_digits (s : string) : string * string :=
  match s with
  | EmptyString => (EmptyString, EmptyString)
  | String c s' =>
      if is_digit c then
        let (d, r) := span_digits s' in (String c d, r)
      else (EmptyString, s)
  end.

(** The three groups of [NUMBER_RE]: the integer part (an optional minus
    sign, then a single zero or a non-zero digit followed by digits), the
    optional fraction (a dot and at least one digit) and the optional
    exponent (e or E, an optional sign, at least one digit). *)
Definition match_integer (s : string) : option (string * string) :=
  let (sign, s1) :=
    match s with
    | String c s' => if Ascii.eqb c "-" then ("-", s') else (EmptyString, s)
    | EmptyString => (EmptyString, s)
    end in
  match s1 with
  | EmptyString => None
  | String c s2 =>
      if Ascii.eqb c "0" then Some (sign ++ "0", s2)
      else if is_digit c then
        let (d, r) := span_digits s2 in Some (sign ++ String c d, r)
      else None
  end.

Definition match_frac (s : string) : string * string :=
  match s with
  | String c s1 =>
      if Ascii.eqb c "." then
        match span_digits s1 with
        | (EmptyString, _) => (EmptyString, s)
        | (d, r) => (String c d, r)
        end
      else (EmptyString, s)
  | EmptyString => (EmptyString, s)
  end.

Definition match_exp (s : string) : string * string :=
  match s with
  | String c s1 =>
      if Ascii.eqb c "e" || Ascii.eqb c "E" then
        let (sign, s2) :=
          match s1 with
          | String c2 s2 =>
              if Ascii.eqb c2 "-" || Ascii.eqb c2 "+" then (str1 c2, s2)
              else (EmptyString, s1)
          | EmptyString => (EmptyString, s1)
          end in
        match span_digits s2 with
        | (EmptyString, _) => (EmptyString, s)
        | (d, r) => (String c (sign ++ d), r)
        end
      else (EmptyString, s)
  | EmptyString => (EmptyString, s)
  end.

(** [int(integer)] on the first group of [NUMBER_RE]. *)
Definition int_of_token (t : string) : option Z :=
  match NilZero.int_of_string t with
  | Some d => Some (Z.of_int d)
  | None => None
  end.

(** [sys.get_int_max_str_digits()]: [int()] raises [ValueError] on a
    decimal text with more digits than this (4300 unless the limit is
    changed; CPython 3.11 and later, and the security releases of 3.7
    to 3.10). *)
Definition int_max_str_digits : nat := 4300.

(** The number of digits of the first group of [NUMBER_RE]. *)
Definition count_digits (integer : string) : nat :=
  match integer with
  | String c s' =>
      if Ascii.eqb c "-" then String.length s' else String.length integer
  | EmptyString => 0
  end.

(** [int(integer)] as [json.loads] calls it; [None] is [ValueError]. *)
Definition parse_int (integer : string) : option Z :=
  if (int_max_str_digits <? count_digits integer)%nat then None
  else int_of_token integer.

Definition is_empty (s : string) : bool :=
  match s with EmptyString => true | String _ _ => false end.

Section Decoder.
Context (rt : runtime).

(** The number branch of [scan_once]: [float(integer + frac + exp)] when
    a fraction or an exponent is present, [int(integer)] otherwise.
    The [ValueError] of [int()] is not a [JSONDecodeError]. *)
Definition scan_number (integer rest : string) : result (pyobj * string) :=
  let (frac, r2) := match_frac rest in
  let (exp, r3) := match_exp r2 in
  if is_empty frac && is_empty exp then
    match parse_int integer with
    | Some z => Ok (PInt z, r3)
    | None => Raise ValueError
    end
  else
    match py_float rt (integer ++ frac ++ exp) with
    | Some f => Ok (PFloat f, r3)
    | None => Raise ValueError
    end.

(** [scan_once(s, idx)], [JSONObject] and [JSONArray].  [fuel] bounds
    the number of nested calls: a value of [n] characters needs at most
    [2 * n + 1], which is what [json_loads] gives (every call but the
    first comes after an opening bracket, a comma or a colon).
    [object_items] starts just after the opening quote of a key and
    [array_items] at the first character of an element.  The recursion
    limit of the interpreter is not modelled: the [RecursionError] of
    a text nested some thousand levels deep has no counterpart here. *)
Fixpoint scan_once (fuel : nat) (s : string) {struct fuel}
  : result (pyobj * string) :=
  match fuel with
  | O => Raise Unmodelled
  | S n =>
      match s with
      | EmptyString => Raise JSONDecodeError
      | String c s1 =>
          if Ascii.eqb c dquote then
            match scanstring s1 with
            | Ok (t, r) => Ok (PStr t, r)
            | Raise e => Raise e
            end
          else if Ascii.eqb c "{" then
            match skip_ws s1 with
            | String c2 s2 =>
                if Ascii.eqb c2 "}" then Ok (PDict [], s2)
                else if Ascii.eqb c2 dquote then object_items n [] s2
                else Raise JSONDecodeError
            | EmptyString => Raise JSONDecodeError
            end
          else if Ascii.eqb c "[" then
            match skip_ws s1 with
            | String c2 s2 =>
                if Ascii.eqb c2 "]" then Ok (PList [], s2)
                else array_items n [] (String c2 s2)
            | EmptyString => array_items n [] EmptyString
            end
          else
            match strip_prefix "null" s, strip_prefix "true" s,
                  strip_prefix "false" s with
            | Some r, _, _ => Ok (PNone, r)
            | _, Some r, _ => Ok (PBool true, r)
            | _, _, Some r => Ok (PBool false, r)
            | None, None, None =>
                match match_integer s with
                | Some (integer, r1) => scan_number integer r1
                | None =>
                    match strip_prefix "NaN" s, strip_prefix "Infinity" s,
                          strip_prefix "-Infinity" s with
                    | Some r, _, _ => Ok (PFloat S754_nan, r)
                    | _, Some r, _ => Ok (PFloat (S754_infinity false), r)
                    | _, _, Some r => Ok (PFloat (S754_infinity true), r)
                    | None, None, None => Raise JSONDecodeError
                    end
                end
            end
      end
  end

with object_items (fuel : nat) (pairs : list (string * pyobj)) (s : string)
  {struct fuel} : result (pyobj * string) :=
  match fuel with
  | O => Raise Unmodelled
  | S n =>
      match scanstring s with
      | Raise e => Raise e
      | Ok (key, s1) =>
          match skip_ws s1 with
          | String c s2 =>
              if Ascii.eqb c ":" then
                match scan_once n (skip_ws s2) with
                | Raise e => Raise e
                | Ok (value, s3) =>
                    let pairs := (pairs ++ [(key, value)])%list in
                    match skip_ws s3 with
                    | String c3 s4 =>
                        if Ascii.eqb c3 "}" then
                          Ok (PDict (dict_of_pairs pairs), s4)
                        else if Ascii.eqb c3 "," then
                          match skip_ws s4 with
                          | String c5 s5 =>
                              if Ascii.eqb c5 dquote
                              then object_items n pairs s5
                              else Raise JSONDecodeError
                          | EmptyString => Raise JSONDecodeError
                          end
                        else Raise JSONDecodeError
                    | EmptyString => Raise JSONDecodeError
                    end
                end
              else Raise JSONDecodeError
          | EmptyString => Raise JSONDecodeError
          end
      end
  end

with array_items (fuel : nat) (values : list pyobj) (s : string)
  {struct fuel} : result (pyobj * string) :=
  match fuel with
  | O => Raise Unmodelled
  | S n =>
      match scan_once n s with
      | Raise e => Raise e
      | Ok (value, s1) =>
          let values := (values ++ [value])%list in
          match skip_ws s1 with
          | String c s2 =>
              if Ascii.eqb c "]" then Ok (PList values, s2)
              else if Ascii.eqb c "," then array_items n values (skip_ws s2)
              else Raise JSONDecodeError
          | EmptyString => Raise JSONDecodeError
          end
      end
  end.

(** [json.loads(s)]: one value between optional whitespace, then the end
    of the text ([JSONDecodeError("Extra data")] otherwise). *)
Definition json_loads (s : string) : result pyobj :=
  match scan_once (S (2 * String.length s)) (skip_ws s) with
  | Raise e => Raise e
  | Ok (obj, rest) =>
      if is_empty (skip_ws rest) then Ok obj else Raise JSONDecodeError
  end.
End Decoder.

(** ** Subscriptions and the registry *)

(** One value of [user_data]: [{'threshold': ..., 'address': ...}]. *)
Record subscription : Type := {
  threshold : float64;
  address : string
}.

(** [sub['threshold'] = t] and [sub['address'] = a] *)
Definition set_threshold (t : float64) (sub : subscription) : subscription :=
  {| threshold := t; address := address sub |}.
Definition set_address (a : string) (sub : subscription) : subscription :=
  {| threshold := threshold sub; address := a |}.

(** The global [user_data]: chat id (as a string) to subscription. *)
Definition registry : Type := pydict subscription.

(** [d[k][field] = x] for a key that is present. *)
Definition dict_update (V : Type) (k : string) (f : V -> V) (d : pydict V)
  : pydict V :=
  match dict_get k d with
  | Some v => dict_set k (f v) d
  | None => d
  end.

(** The Python object that a subscription and a registry are. *)
Definition sub_obj (sub : subscription) : pyobj :=
  PDict [("threshold", PFloat (threshold sub)); ("address", PStr (address sub))].

Definition reg_obj (m : registry) : pyobj :=
  PDict (map (fun kv => (fst kv, sub_obj (snd kv))) m).

(** ** The file [USER_DATA_FILE] *)

(** The content of the file; [None] when it does not exist. *)
Definition file : Type := option string.

(** What [save_user_data] does to the file, one step at a time:
    [open(USER_DATA_FILE, 'w')] creates or truncates it, then every chunk
    of [json.dump] is appended.  Buffering is not modelled: a chunk is in
    the file as soon as it is written. *)
Inductive fs_op : Type :=
| Truncate
| Append (chunk : string).

Definition fs_step (f : file) (op : fs_op) : file :=
  match op with
  | Truncate => Some EmptyString
  | Append chunk =>
      match f with
      | Some text => Some (text ++ chunk)
      | None => Some chunk
      end
  end.

Definition fs_run (ops : list fs_op) (f : file) : file :=
  fold_left fs_step ops f.

(** ** The state of the process and of what it talks to *)

(** One call of the Telegram API. *)
Record api_call : Type := {
  chat : Z;
  text : string;
  delivered : bool
}.

Record world : Type := {
  user_data : registry;
  user_data_file : file;
  (** The calls of the Telegram API so far, oldest first. *)
  api_log : list api_call;
  (** The addresses asked of the AAVE pool contract so far, oldest first. *)
  rpc_log : list string
}.

(** Handlers: state passing, with the exception that ends a handler. *)
Definition M (A : Type) : Type := world -> result A * world.

Definition ret (A : Type) (a : A) : M A := fun w => (Ok a, w).

Definition bind (A B : Type) (c : M A) (k : A -> M B) : M B :=
  fun w =>
    match c w with
    | (Ok a, w') => k a w'
    | (Raise e, w') => (Raise e, w')
    end.

Definition raise (A : Type) (e : exn) : M A := fun w => (Raise e, w).

Arguments raise {A} e.

Declare Scope py_scope.
Delimit Scope py_scope with py.
Notation "x <- c ;; k" := (bind c (fun x => k))
  (at level 61, c at next level, right associativity) : py_scope.
Notation "c ;;; k" := (bind c (fun _ => k))
  (at level 61, right associativity) : py_scope.

Definition get_user_data : M registry := fun w => (Ok (user_data w), w).

Definition put_user_data (m : registry) : M unit :=
  fun w =>
    (Ok tt, {| user_data := m; user_data_file := user_data_file w;
               api_log := api_log w; rpc_log := rpc_log w |}).

(** [for x in l: body(x)] *)
Fixpoint for_each (A : Type) (l : list A) (body : A -> M unit) : M unit :=
  match l with
  | [] => ret tt
  | x :: l' => bind (body x) (fun _ => for_each l' body)
  end.

Definition nl : string := str1 (chr 10).

Section Bot.
Context (rt : runtime).

Local Open Scope py_scope.

(** *** Persistence *)

(** The steps of [save_user_data(data)]. *)
Definition save_ops (data : pyobj) : list fs_op :=
  Truncate :: map Append (iterencode rt data).

(** [save_user_data(data)], run to its end. *)
Definition save_user_data (data : pyobj) : M unit :=
  fun w =>
    (Ok tt, {| user_data := user_data w;
               user_data_file := fs_run (save_ops data) (user_data_file w);
               api_log := api_log w; rpc_log := rpc_log w |}).

(** The file as a process killed after [n] steps of
    [save_user_data(data)] leaves it. *)
Definition save_interrupted (n : nat) (data : pyobj) (f : file) : file :=
  fs_run (firstn n (save_ops data)) f.

(** [open(USER_DATA_FILE, 'r')] followed by [f.read()]. *)
Definition read_file (f : file) : result string :=
  match f with
  | Some content => Ok content
  | None => Raise FileNotFoundError
  end.

(** [load_user_data()]: the body of the [try], then the [except] clause
    for [FileNotFoundError] and [json.JSONDecodeError]. *)
Definition load_user_data (f : file) : result pyobj :=
  let body :=
    match read_file f with
    | Raise e => Raise e
    | Ok raw =>
        let content := py_strip raw in
        if negb (is_empty content) then json_loads rt content
        else Ok (PDict [])
    end in
  match body with
  | Raise FileNotFoundError | Raise JSONDecodeError => Ok (PDict [])
  | r => r
  end.

(** *** The metric source *)

(** The body of the [try] of [check_health_factor] once the contract
    call has returned [account_data] or raised:
    [account_data[5] / 1e18], or [None] when anything raises. *)
Definition health_factor_of (call : option (list Z)) : option float64 :=
  match call with
  | Some account_data =>
      match nth_error account_data 5%nat with
      | Some hf => int_truediv_float hf float_1e18
      | None => None
      end
  | None => None
  end.

(** [check_health_factor(address)]; [None] is Python's [None]. *)
Definition check_health_factor (addr : string) : M (option float64) :=
  fun w =>
    (Ok (health_factor_of
           (getUserAccountData rt (List.length (rpc_log w)) addr)),
     {| user_data := user_data w; user_data_file := user_data_file w;
        api_log := api_log w; rpc_log := (rpc_log w ++ [addr])%list |}).

(** *** The notifier *)

(** One call of the Telegram API: logged, and raising when the message
    cannot be delivered. *)
Definition api_send (to : Z) (msg : string) : M unit :=
  fun w =>
    let ok := delivers rt (List.length (api_log w)) in
    (if ok then Ok tt else Raise TelegramError,
     {| user_data := user_data w; user_data_file := user_data_file w;
        api_log :=
          (api_log w ++ [{| chat := to; text := msg; delivered := ok |}])%list;
        rpc_log := rpc_log w |}).

(** [update.message.reply_text(msg)] in the chat [chat]. *)
Definition reply_text (chat : Z) (msg : string) : M unit := api_send chat msg.

(** [context.bot.send_message(chat_id=int(chat_id), text=msg)] *)
Definition send_message (chat_id : string) (msg : string) : M unit :=
  match py_int rt chat_id with
  | Some n => api_send n msg
  | None => raise ValueError
  end.

(** *** Message texts *)

Definition alert_text (addr : string) (hf thr : float64) : string :=
  "Alert: Health factor for " ++ addr ++ " is " ++ float_repr rt hf
  ++ ", which is below your threshold of " ++ float_repr rt thr ++ "!" ++ nl
  ++ "Check your position on AAVE: https://app.aave.com/".

Definition unavailable_text (addr : string) : string :=
  "Unable to fetch health factor for " ++ addr
  ++ ". Will try again in the next check.".

Definition updated_text (addr : string) (thr : float64) : string :=
  "Updated monitoring for address " ++ addr ++ " with new threshold "
  ++ float_repr rt thr.

Definition started_text (addr : string) (thr : float64) : string :=
  "Started monitoring address " ++ addr ++ " with threshold "
  ++ float_repr rt thr.

Definition check_text (addr : string) (thr : float64) (hf : option float64)
  : string :=
  "Currently monitoring address " ++ addr ++ nl
  ++ "Threshold: " ++ float_repr rt thr ++ nl
  ++ match hf with
     | Some h => "Current health factor: " ++ float_repr rt h
     | None => "Unable to fetch current health factor. Please try again later."
     end.

(** *** [check_and_notify] and the sweep *)

Definition check_and_notify (chat_id : string) : M unit :=
  ud <- get_user_data ;;
  match dict_get chat_id ud with
  | None => ret tt
  | Some sub =>
      let addr := address sub in
      let thr := threshold sub in
      health_factor <- check_health_factor addr ;;
      match health_factor with
      | Some hf =>
          if float_lt hf thr
          then send_message chat_id (alert_text addr hf thr)
          else ret tt
      | None => send_message chat_id (unavailable_text addr)
      end
  end.

Definition periodic_check : M unit :=
  ud <- get_user_data ;;
  for_each (dict_keys ud) check_and_notify.

(** *** The command handlers; [chat] is [update.effective_chat.id] *)

Definition monitor (chat : Z) (args : list string) : M unit :=
  match args with
  | [arg0; arg1] =>
      let chat_id := int_repr chat in
      match py_float rt arg0 with
      | None =>
          reply_text chat "Invalid threshold. Please enter a number (e.g., 1.5)."
      | Some thr =>
          let addr := arg1 in
          if negb (is_address rt addr) then
            reply_text chat "Invalid Ethereum address. Please try again."
          else
            ud <- get_user_data ;;
            message <-
              (if dict_mem chat_id ud then
                 put_user_data
                   (dict_update chat_id (set_address addr)
                      (dict_update chat_id (set_threshold thr) ud)) ;;;
                 ret (updated_text addr thr)
               else
                 put_user_data
                   (dict_set chat_id {| threshold := thr; address := addr |} ud) ;;;
                 ret (started_text addr thr)) ;;
            ud' <- get_user_data ;;
            save_user_data (reg_obj ud') ;;;
            reply_text chat message ;;;
            check_and_notify chat_id
      end
  | _ => reply_text chat "Usage: /monitor <threshold> <address>"
  end.

Definition check (chat : Z) : M unit :=
  let chat_id := int_repr chat in
  ud <- get_user_data ;;
  match dict_get chat_id ud with
  | Some sub =>
      let thr := threshold sub in
      let addr := address sub in
      health_factor <- check_health_factor addr ;;
      reply_text chat (check_text addr thr health_factor)
  | None => reply_text chat "You are not currently monitoring any address."
  end.

Definition stop (chat : Z) : M unit :=
  let chat_id := int_repr chat in
  ud <- get_user_data ;;
  if dict_mem chat_id ud then
    put_user_data (dict_del chat_id ud) ;;;
    ud' <- get_user_data ;;
    save_user_data (reg_obj ud') ;;;
    reply_text chat "Monitoring stopped."
  else reply_text chat "You were not monitoring any address.".
(** The text of the [/start] command. *)
Definition start_text : string :=
  "Welcome to the AAVE Health Factor Monitor Bot!" ++ nl ++ nl
  ++ "Here are the available commands:" ++ nl
  ++ "/start - Show this help message" ++ nl
  ++ "/monitor <threshold> <address> - Start monitoring an address" ++ nl
  ++ "/check - Check your current monitoring settings" ++ nl
  ++ "/stop - Stop monitoring" ++ nl ++ nl
  ++ "You can also simply paste an Ethereum address to check its current health factor."
  ++ nl ++ nl
  ++ "DISCLAIMER: This bot is not officially affiliated with or endorsed by AAVE. "
  ++ "It is an independent tool created for informational purposes only. "
  ++ "The bot is not guaranteed to be always accurate or available. "
  ++ "Users should not rely solely on this bot for making financial decisions.".

Definition start (chat : Z) : M unit := reply_text chat start_text.

(** [handle_address]: a message that is not a command;
    [message_text] is [update.message.text]. *)
Definition handle_address (chat : Z) (message_text : string) : M unit :=
  let addr := py_strip message_text in
  if negb (is_address rt addr) then
    reply_text chat "Invalid Ethereum address. Please try again."
  else
    health_factor <- check_health_factor addr ;;
    match health_factor with
    | Some hf =>
        reply_text chat
          ("Current health factor for " ++ addr ++ ": " ++ float_repr rt hf)
    | None =>
        reply_text chat "Unable to fetch health factor. Please try again later."
    end.
End Bot.

(** ** Runs of the bot *)

Section Runs.
Context (rt : runtime).

(** One event: a command or a plain message of some chat, or a tick of
    the job queue. *)
Inductive event : Type :=
| EStart (chat : Z)
| EMonitor (chat : Z) (args : list string)
| ECheck (chat : Z)
| EStop (chat : Z)
| EText (chat : Z) (message_text : string)
| ETick.

Definition handle (ev : event) : M unit :=
  match ev with
  | EStart chat => start rt chat
  | EMonitor chat args => monitor rt chat args
  | ECheck chat => check rt chat
  | EStop chat => stop rt chat
  | EText chat message_text => handle_address rt chat message_text
  | ETick => periodic_check rt
  end.

(** The world after a sequence of events, each handled to its end
    (or to the exception that ends it) before the next. *)
Definition run (evs : list event) (w : world) : world :=
  fold_left (fun w ev => snd (handle ev w)) evs w.

(** A subscription that [monitor] can have stored: its threshold is what
    [float()] made of some argument, its address passed [is_address]. *)
Definition accepted (sub : subscription) : Prop :=
  (exists arg, py_float rt arg = Some (threshold sub))
  /\ is_address rt (address sub) = true.
End Runs.

(** The addresses a sweep over [m] asks for, in order. *)
Definition sweep_addresses (m : registry) : list string :=
  map (fun kv => address (snd kv)) m.

(** Keys of a dict are pairwise distinct. *)
Fixpoint distinct (l : list string) : bool :=
  match l with
  | [] => true
  | k :: l' => negb (existsb (String.eqb k) l') && distinct l'
  end.

(** ** Values that [json.dump] writes exactly *)

(** The same datum (Leibniz equality, so NaN is the same as NaN). *)
Definition float_same (x y : float64) : bool :=
  match x, y with
  | S754_zero a, S754_zero b => Bool.eqb a b
  | S754_infinity a, S754_infinity b => Bool.eqb a b
  | S754_nan, S754_nan => true
  | S754_finite a m e, S754_finite b m' e' =>
      Bool.eqb a b && Pos.eqb m m' && Z.eqb e e'
  | _, _ => false
  end.

(** [s] is, from its first to its last character, a number of
    [NUMBER_RE] with a fraction or an exponent. *)
Definition is_float_token (s : string) : bool :=
  match match_integer s with
  | Some (_, r1) =>
      let (frac, r2) := match_frac r1 in
      let (exp, r3) := match_exp r2 in
      is_empty r3 && negb (is_empty frac && is_empty exp)
  | None => false
  end.

Section Exact.
Context (rt : runtime).

(** [repr(f)] is a JSON number that [float()] reads back as [f]:
    what CPython promises of every finite float. *)
Definition repr_roundtrips (f : float64) : bool :=
  is_float_token (float_repr rt f)
  && match py_float rt (float_repr rt f) with
     | Some g => float_same g f
     | None => false
     end.

(** Every finite float inside [v] satisfies [repr_roundtrips], every
    integer inside [v] is within the limit of [int()] and [str()], and
    every dict inside [v] has distinct keys. *)
Fixpoint json_exact (v : pyobj) : bool :=
  match v with
  | PFloat f => if float_is_finite f then repr_roundtrips f else true
  | PInt z => (count_digits (int_repr z) <=? int_max_str_digits)%nat
  | PList l => forallb json_exact l
  | PDict d =>
      distinct (map fst d) && forallb (fun kv => json_exact (snd kv)) d
  | PNone | PBool _ | PStr _ => true
  end.

(** The text of a list after its first element and of a dict after its
    first item. *)
Fixpoint list_tail_text (l : list pyobj) : string :=
  match l with
  | [] => "]"
  | v :: l' => ", " ++ json_text rt v ++ list_tail_text l'
  end.

Fixpoint dict_tail_text (d : list (string * pyobj)) : string :=
  match d with
  | [] => "}"
  | (k, v) :: d' =>
      ", " ++ encode_basestring_ascii k ++ ": " ++ json_text rt v
      ++ dict_tail_text d'
  end.
End Exact.

(** What may follow a value inside a JSON text: nothing, or a character
    that cannot continue a number. *)
Definition ends_number (c : ascii) : bool :=
  negb (is_digit c || Ascii.eqb c "." || Ascii.eqb c "e" || Ascii.eqb c "E"
        || Ascii.eqb c "+" || Ascii.eqb c "-").

Definition delimited (rest : string) : bool :=
  match rest with
  | EmptyString => true
  | String c _ => ends_number c
  end.

(** ** A concrete runtime and concrete runs, for the examples *)

(** The double nearest to [num / den], for integers that are doubles. *)
Definition decimal_float (num den : Z) : float64 :=
  SFdiv prec64 emax64 (binary_normalize prec64 emax64 num 0 false)
        (binary_normalize prec64 emax64 den 0 false).

(** [AAVE_V3_POOL_ADDRESS], and the address of the WETH contract. *)
Definition pool_address : string := "0x87870Bca3F3fD6335C3F4ce8392D69350B4fA4E2".
Definition weth_address : string := "0xC02aaA39b223FE8D0A0e5C4F27eAD9083C756Cc2".

(** [float()] and [repr()] restricted to the strings and the floats of
    the examples, on which they agree with CPython. *)
Definition example_float (s : string) : option float64 :=
  if String.eqb s "1.5" then Some (decimal_float 15 10)
  else if String.eqb s "2.0" then Some (decimal_float 2 1)
  else if String.eqb s "1.2" then Some (decimal_float 12 10)
  else if String.eqb s "-1" then Some (decimal_float (-1) 1)
  else if String.eqb s "-1.0" then Some (decimal_float (-1) 1)
  else if String.eqb s "nan" then Some S754_nan
  else None.

Definition example_repr (f : float64) : string :=
  if float_same f (decimal_float 15 10) then "1.5"
  else if float_same f (decimal_float 2 1) then "2.0"
  else if float_same f (decimal_float 12 10) then "1.2"
  else if float_same f (decimal_float (-1) 1) then "-1.0"
  else if float_same f S754_nan then "nan"
  else "0.0".

(** A position whose health factor is 1.2. *)
Definition example_account_data : list Z :=
  [250000000000; 100000000000; 50000000000; 8000; 7500; 1200000000000000000].

(** A runtime in which every contract call returns
    [example_account_data] and every message is delivered. *)
Definition example_rt : runtime :=
  {| py_float := example_float;
     float_repr := example_repr;
     py_int := int_of_token;
     is_address := fun s => String.eqb s pool_address || String.eqb s weth_address;
     getUserAccountData := fun _ _ => Some example_account_data;
     delivers := fun _ => true |}.

(** The same, except that the Telegram API fails from its fifth call on
    (a user who blocked the bot, a network failure). *)
Definition blocked_rt : runtime :=
  {| py_float := example_float;
     float_repr := example_repr;
     py_int := int_of_token;
     is_address := fun s => String.eqb s pool_address || String.eqb s weth_address;
     getUserAccountData := fun _ _ => Some example_account_data;
     delivers := fun n => (n <? 4)%nat |}.

(** The same as [example_rt], except that every contract call fails
    (the node is unreachable). *)
Definition offline_rt : runtime :=
  {| py_float := example_float;
     float_repr := example_repr;
     py_int := int_of_token;
     is_address := fun s => String.eqb s pool_address || String.eqb s weth_address;
     getUserAccountData := fun _ _ => None;
     delivers := fun _ => true |}.

(** The process just started, with no file and nothing done yet. *)
Definition fresh_world : world :=
  {| user_data := []; user_data_file := None; api_log := []; rpc_log := [] |}.

(** Chat 1 monitors the pool with threshold 1.5, chat 2 the WETH
    contract with threshold 2.0. *)
Definition two_monitors : list event :=
  [EMonitor 1 ["1.5"; pool_address]; EMonitor 2 ["2.0"; weth_address]].

(** ** Vocabulary of the properties *)

(** [user_data] after the assignments of [monitor] for the chat
    [chat_id]. *)
Definition upserted (chat_id : string) (thr : float64) (addr : string)
  (ud : registry) : registry :=
  if dict_mem chat_id ud then
    dict_update chat_id (set_address addr)
      (dict_update chat_id (set_threshold thr) ud)
  else dict_set chat_id {| threshold := thr; address := addr |} ud.

(** The event changes [user_data]: a [/monitor] whose two arguments are
    accepted, or a [/stop] of a chat that has a subscription. *)
Definition mutates (rt : runtime) (ev : event) (w : world) : bool :=
  match ev with
  | EMonitor _ [arg0; arg1] =>
      match py_float rt arg0 with
      | Some _ => is_address rt arg1
      | None => false
      end
  | EStop chat => dict_mem (int_repr chat) (user_data w)
  | _ => false
  end.

(** The keys of a registry are distinct and each is the [str()] of a
    chat id. *)
Definition keys_ok (m : registry) : Prop :=
  distinct (dict_keys m) = true
  /\ forall k, In k (dict_keys m) -> exists chat, k = int_repr chat.

(** [p] is the beginning of [s]. *)
Definition is_prefix (p s : string) : Prop := exists q, s = p ++ q.

(** A world whose registry holds the subscription of chat 1 (threshold
    1.5 on the pool) and nothing else. *)
Definition one_subscriber : world :=
  {| user_data := [("1", {| threshold := decimal_float 15 10;
                            address := pool_address |})];
     user_data_file := None; api_log := []; rpc_log := [] |}.

(** [save_user_data(load_user_data())] as an operation on the file;
    nothing is written when [load_user_data] raises. *)
Definition resave (rt : runtime) (f : file) : file :=
  match load_user_data rt f with
  | Ok data => fs_run (save_ops rt data) f
  | Raise _ => f
  end.

(** A registry that [json.dump] writes exactly: distinct keys (as in any
    dict) and thresholds whose [repr] reads back. *)
Definition registry_exact (rt : runtime) (m : registry) : bool :=
  distinct (dict_keys m)
  && forallb (fun kv =>
                if float_is_finite (threshold (snd kv))
                then repr_roundtrips rt (threshold (snd kv)) else true) m.

(** Induction on a value, with the property available for the
    elements of a list and the values of a dict. *)
Section pyobj_induction.
Variable P : pyobj -> Prop.
Hypothesis HNone : P PNone.
Hypothesis HBool : forall b, P (PBool b).
Hypothesis HInt : forall z, P (PInt z).
Hypothesis HFloat : forall f, P (PFloat f).
Hypothesis HStr : forall s, P (PStr s).
Hypothesis HList : forall l, Forall P l -> P (PList l).
Hypothesis HDict : forall d, Forall (fun kv => P (snd kv)) d -> P (PDict d).

Fixpoint pyobj_nested_ind (v : pyobj) : P v :=
  match v with
  | PNone => HNone
  | PBool b => HBool b
  | PInt z => HInt z
  | PFloat f => HFloat f
  | PStr s => HStr s
  | PList l =>
      HList
        ((fix go (l : list pyobj) : Forall P l :=
            match l with
            | [] => Forall_nil P
            | x :: l' => Forall_cons x (pyobj_nested_ind x) (go l')
            end) l)
  | PDict d =>
      HDict
        ((fix go (d : list (string * pyobj))
            : Forall (fun kv => P (snd kv)) d :=
            match d with
            | [] => Forall_nil _
            | kv :: d' =>
                Forall_cons kv (pyobj_nested_ind (snd kv)) (go d')
            end) d)
  end.
End pyobj_induction.

(** [json.loads] reads the text of [v] back, whatever follows it: the
    property proved by induction on the value. *)
Definition reads_back (rt : runtime) (v : pyobj) : Prop :=
  json_exact rt v = true ->
  forall fuel rest,
    (String.length (json_text rt v) < fuel)%nat ->
    delimited rest = true ->
    scan_once rt fuel (json_text rt v ++ rest) = Ok (v, rest).

(** ** Vocabulary of the properties of the handlers and of runs *)

(** The chat an event comes from; a tick of the job queue has none. *)
Definition event_chat (ev : event) : option Z :=
  match ev with
  | EStart chat | EMonitor chat _ | ECheck chat | EStop chat
  | EText chat _ => Some chat
  | ETick => None
  end.

(** The file holds the text that [json.dump] writes for [user_data]. *)
Definition in_sync (rt : runtime) (w : world) : Prop :=
  user_data_file w = Some (json_text rt (reg_obj (user_data w))).

(** Every character of [s] is one that [str.strip()] removes. *)
Fixpoint all_space (s : string) : bool :=
  match s with
  | EmptyString => true
  | String c s' => is_py_space c && all_space s'
  end.

(** What [check_health_factor(addr)] returns when it is the [n]-th
    contract call of the run. *)
Definition reading (rt : runtime) (n : nat) (addr : string)
  : option float64 :=
  health_factor_of (getUserAccountData rt n addr).

(** The address that the handler of [ev] asks the metric source for:
    the stored one for [/check], the stripped text of a plain message that
    is an address, the new one for a [/monitor] whose arguments are
    accepted and whose confirmation is delivered. *)
Definition asked_address (rt : runtime) (ev : event) (w : world)
  : option string :=
  match ev with
  | EMonitor _ [arg0; arg1] =>
      match py_float rt arg0 with
      | Some _ =>
          if is_address rt arg1 && delivers rt (List.length (api_log w))
          then Some arg1 else None
      | None => None
      end
  | ECheck chat =>
      match dict_get (int_repr chat) (user_data w) with
      | Some sub => Some (address sub)
      | None => None
      end
  | EText _ message_text =>
      if is_address rt (py_strip message_text)
      then Some (py_strip message_text) else None
  | _ => None
  end.

(** [c] is a message that [check_and_notify] sends for a subscription
    of [m]: to the chat of its key, with the notice that the source is
    unavailable or with an alert for a reading below the threshold. *)
Definition notice_of (rt : runtime) (m : registry) (c : api_call) : Prop :=
  exists k sub,
    In (k, sub) m /\ py_int rt k = Some (chat c)
    /\ (text c = unavailable_text (address sub)
        \/ exists hf,
             float_lt hf (threshold sub) = true
             /\ text c = alert_text rt (address sub) hf (threshold sub)).

(** [x] is not negative: [+0.0], a positive number, [+inf], or NaN. *)
Definition float_not_negative (x : float64) : bool :=
  match x with
  | S754_zero s | S754_infinity s | S754_finite s _ _ => negb s
  | S754_nan => true
  end.




(** The text that [check_and_notify] sends for [sub] when its contract
    call is the [n]-th of the run: the alert with the reading just
    obtained when it is below the threshold, the notice that the source
    is unavailable when there is no reading, nothing otherwise. *)
Definition notice_text (rt : runtime) (n : nat) (sub : subscription)
  : option string :=
  match reading rt n (address sub) with
  | Some hf =>
      if float_lt hf (threshold sub) then
        Some ("Alert: Health factor for " ++ address sub ++ " is "
              ++ float_repr rt hf ++ ", which is below your threshold of "
              ++ float_repr rt (threshold sub) ++ "!" ++ nl
              ++ "Check your position on AAVE: https://app.aave.com/")
      else None
  | None =>
      Some ("Unable to fetch health factor for " ++ address sub
            ++ ". Will try again in the next check.")
  end.

(** [sweep_sends rt n a m sent]: [sent] is what a sweep over the
    entries [m] adds to the calls of the Telegram API when its next
    contract call is the [n]-th and its next call of the API the [a]-th
    of the run.  The entries are taken in order and each gives at most
    one call: none when no notice is due, its notice to the chat of its
    key otherwise.  The sweep ends after the last entry, at the first
    notice that is not delivered, and at a key that [int()] rejects. *)
Inductive sweep_sends (rt : runtime)
  : nat -> nat -> registry -> list api_call -> Prop :=
| sweep_done n a : sweep_sends rt n a [] []
| sweep_quiet n a k sub m sent :
    notice_text rt n sub = None ->
    sweep_sends rt (S n) a m sent ->
    sweep_sends rt n a ((k, sub) :: m) sent
| sweep_delivered n a k sub m sent c msg :
    notice_text rt n sub = Some msg ->
    py_int rt k = Some c ->
    delivers rt a = true ->
    sweep_sends rt (S n) (S a) m sent ->
    sweep_sends rt n a ((k, sub) :: m)
      ({| chat := c; text := msg; delivered := true |} :: sent)
| sweep_undelivered n a k sub m c msg :
    notice_text rt n sub = Some msg ->
    py_int rt k = Some c ->
    delivers rt a = false ->
    sweep_sends rt n a ((k, sub) :: m)
      [{| chat := c; text := msg; delivered := false |}]
| sweep_bad_key n a k sub m msg :
    notice_text rt n sub = Some msg ->
    py_int rt k = None ->
    sweep_sends rt n a ((k, sub) :: m) [].

(** The number of calls of the Telegram API in [sent] that are addressed
    to the chat [c]. *)
Definition sent_to (c : Z) (sent : list api_call) : nat :=
  List.length (filter (fun call => Z.eqb (chat call) c) sent).

(** The number of entries of [m] whose key [int()] reads as the chat
    [c]: one for a chat with a subscription, none for the others. *)
Definition subscriptions_of (rt : runtime) (c : Z) (m : registry) : nat :=
  List.length
    (filter (fun kv => match py_int rt (fst kv) with
                       | Some c' => Z.eqb c' c
                       | None => false
                       end) m).

(** * Properties *)
(** ** Strings and dicts *)

Lemma append_nil_r (s : string) : s ++ EmptyString = s.
Proof. induction s as [|c s IH]; simpl; [reflexivity | now rewrite IH]. Qed.

Lemma append_assoc (a b c : string) : (a ++ b) ++ c = a ++ (b ++ c).
Proof. induction a as [|x a IH]; simpl; [reflexivity | now rewrite IH]. Qed.

Lemma length_append (a b : string) :
  String.length (a ++ b) = (String.length a + String.length b)%nat.
Proof. induction a as [|x a IH]; simpl; [reflexivity | now rewrite IH]. Qed.

Section DictFacts.
Variable V : Type.
Implicit Types (d : pydict V) (k : string) (v : V).

Lemma dict_get_set_same k v d : dict_get k (dict_set k v d) = Some v.
Proof.
  induction d as [|[k' v'] d IH]; simpl.
  - now rewrite String.eqb_refl.
  - destruct (String.eqb k k') eqn:E; simpl; rewrite E; [reflexivity | exact IH].
Qed.

Lemma dict_get_set_other k k' v d :
  k' <> k -> dict_get k' (dict_set k v d) = dict_get k' d.
Proof.
  intros Hne. induction d as [|[k0 v0] d IH]; simpl.
  - now apply String.eqb_neq in Hne as ->.
  - destruct (String.eqb k k0) eqn:E; simpl.
    + apply String.eqb_eq in E as <-.
      now apply String.eqb_neq in Hne as ->.
    + now rewrite IH.
Qed.

Lemma dict_keys_set_mem k v d :
  dict_mem k d = true -> dict_keys (dict_set k v d) = dict_keys d.
Proof.
  unfold dict_mem, dict_keys.
  induction d as [|[k' v'] d IH]; simpl; [discriminate|].
  destruct (String.eqb k k') eqn:E; simpl; [reflexivity|].
  intros H. now rewrite IH.
Qed.

Lemma dict_get_del_same k d :
  distinct (dict_keys d) = true -> dict_get k (dict_del k d) = None.
Proof.
  unfold dict_keys.
  induction d as [|[k' v'] d IH]; simpl; [reflexivity|].
  intros [Hk Hd]%andb_prop.
  destruct (String.eqb k k') eqn:E; simpl.
  - apply String.eqb_eq in E as <-.
    clear IH Hd. induction d as [|[k1 v1] d IH]; simpl in *; [reflexivity|].
    destruct (String.eqb k k1); simpl in *; [discriminate | now apply IH].
  - rewrite E. now apply IH.
Qed.

Lemma dict_get_In k v d : dict_get k d = Some v -> In (k, v) d.
Proof.
  induction d as [|[k' v'] d IH]; simpl; [discriminate|].
  destruct (String.eqb k k') eqn:E.
  - apply String.eqb_eq in E as <-. intros [= ->]. now left.
  - intros H. right. now apply IH.
Qed.

Lemma In_dict_set k v d x :
  In x (dict_set k v d) -> x = (k, v) \/ In x d.
Proof.
  induction d as [|[k' v'] d IH]; simpl.
  - intros [<-|[]]. now left.
  - destruct (String.eqb k k') eqn:E; simpl.
    + apply String.eqb_eq in E as <-. intros [<-|H]; auto.
    + intros [<-|H]; auto. destruct (IH H); auto.
Qed.

Lemma In_dict_del k d x : In x (dict_del k d) -> In x d.
Proof.
  induction d as [|[k' v'] d IH]; simpl; [auto|].
  destruct (String.eqb k k'); simpl; intuition.
Qed.

Lemma dict_get_middle k v d1 d2 :
  existsb (String.eqb k) (dict_keys d1) = false ->
  dict_get k (d1 ++ (k, v) :: d2)%list = Some v.
Proof.
  unfold dict_keys.
  induction d1 as [|[k' v'] d1 IH]; simpl.
  - now rewrite String.eqb_refl.
  - intros [E H]%orb_false_elim. rewrite E. now apply IH.
Qed.
End DictFacts.

Lemma distinct_middle (k : string) (l1 l2 : list string) :
  distinct (l1 ++ k :: l2)%list = true ->
  existsb (String.eqb k) l1 = false.
Proof.
  induction l1 as [|x l1 IH]; simpl; [reflexivity|].
  intros [Hx Hd]%andb_prop.
  rewrite (IH Hd), orb_false_r.
  apply negb_true_iff in Hx.
  rewrite existsb_app in Hx. apply orb_false_elim in Hx as [_ Hx].
  simpl in Hx. apply orb_false_elim in Hx as [Hx _].
  now rewrite String.eqb_sym.
Qed.

Lemma SFcompare_antisym (x y : float64) (c : comparison) :
  SFcompare x y = Some c -> SFcompare y x = Some (CompOpp c).
Proof.
  destruct x as [sx | sx | | sx mx ex], y as [sy | sy | | sy my ey];
    simpl; try discriminate;
    try (destruct sx; intros [= <-]; reflexivity);
    try (destruct sy; intros [= <-]; reflexivity);
    try (destruct sx, sy; intros [= <-]; reflexivity).
  intros [= <-]. f_equal.
  rewrite (Z.compare_antisym ex ey).
  destruct sx, sy; try reflexivity;
    destruct (ex ?= ey) eqn:E; simpl; try reflexivity.
  - f_equal. symmetry. exact (Pos.compare_cont_antisym mx my Eq).
  - symmetry. exact (Pos.compare_cont_antisym mx my Eq).
Qed.

Lemma float_ge_not_lt (hf thr : float64) :
  float_ge hf thr = true -> float_lt hf thr = false.
Proof.
  unfold float_ge, float_lt, SFleb, SFltb.
  destruct (SFcompare thr hf) as [c|] eqn:E; [|discriminate].
  rewrite (SFcompare_antisym _ _ E). now destruct c.
Qed.

Section BotFacts.
Context (rt : runtime).

Lemma check_and_notify_eq chat_id w :
  check_and_notify rt chat_id w =
  match dict_get chat_id (user_data w) with
  | None => (Ok tt, w)
  | Some sub =>
      let w1 := {| user_data := user_data w; user_data_file := user_data_file w;
                   api_log := api_log w;
                   rpc_log := (rpc_log w ++ [address sub])%list |} in
      match health_factor_of (getUserAccountData rt (List.length (rpc_log w)) (address sub)) with
      | Some hf =>
          if float_lt hf (threshold sub)
          then send_message rt chat_id (alert_text rt (address sub) hf (threshold sub)) w1
          else (Ok tt, w1)
      | None => send_message rt chat_id (unavailable_text (address sub)) w1
      end
  end.
Proof.
  unfold check_and_notify, bind, get_user_data, check_health_factor, ret.
  destruct (dict_get chat_id (user_data w)) as [sub|]; [|reflexivity].
  cbn.
  destruct (health_factor_of _) as [hf|]; [|reflexivity].
  destruct (float_lt hf (threshold sub)); reflexivity.
Qed.

Lemma send_message_eq chat_id n msg w :
  py_int rt chat_id = Some n ->
  send_message rt chat_id msg w = api_send rt n msg w.
Proof. unfold send_message. now intros ->. Qed.

(** C1: for every subscription and every evaluation, whatever the world
    is (no memory of earlier evaluations): when the reading is a number
    strictly below the threshold, [check_and_notify] sends the alert,
    whose text carries this value (as [repr] prints it) together with
    the address and the threshold; when it is a number greater than or
    equal to the threshold (equal included), it sends nothing; when the
    reading is unavailable, it sends the source-unavailable notice for
    the address.  [n] is the chat identifier that [int(chat_id)]
    gives. *)
Theorem check_and_notify_decision chat_id sub n w :
  dict_get chat_id (user_data w) = Some sub ->
  py_int rt chat_id = Some n ->
  let reading :=
    health_factor_of
      (getUserAccountData rt (List.length (rpc_log w)) (address sub)) in
  let w' := snd (check_and_notify rt chat_id w) in
  let sent msg :=
    (api_log w ++
       [{| chat := n; text := msg;
           delivered := delivers rt (List.length (api_log w)) |}])%list in
  (forall hf, reading = Some hf -> float_lt hf (threshold sub) = true ->
     api_log w'
     = sent ("Alert: Health factor for " ++ address sub ++ " is "
             ++ float_repr rt hf ++ ", which is below your threshold of "
             ++ float_repr rt (threshold sub) ++ "!" ++ nl
             ++ "Check your position on AAVE: https://app.aave.com/"))
  /\ (forall hf, reading = Some hf -> float_ge hf (threshold sub) = true ->
        api_log w' = api_log w)
  /\ (reading = None ->
      api_log w'
      = sent ("Unable to fetch health factor for " ++ address sub
              ++ ". Will try again in the next check.")).
Proof.
  intros Hsub Hint reading w' sent. subst w' reading.
  rewrite check_and_notify_eq, Hsub. cbn zeta.
  repeat split.
  - intros hf -> Hlt. rewrite Hlt. erewrite send_message_eq by eassumption. reflexivity.
  - intros hf -> Hge. rewrite (float_ge_not_lt _ _ Hge). reflexivity.
  - intros ->. erewrite send_message_eq by eassumption. reflexivity.
Qed.
End BotFacts.

Section SweepFacts.
Context (rt : runtime).

Lemma api_send_frame to msg w :
  user_data (snd (api_send rt to msg w)) = user_data w
  /\ user_data_file (snd (api_send rt to msg w)) = user_data_file w
  /\ rpc_log (snd (api_send rt to msg w)) = rpc_log w.
Proof. now unfold api_send. Qed.

Lemma send_message_frame chat_id msg w :
  user_data (snd (send_message rt chat_id msg w)) = user_data w
  /\ user_data_file (snd (send_message rt chat_id msg w)) = user_data_file w
  /\ rpc_log (snd (send_message rt chat_id msg w)) = rpc_log w.
Proof.
  unfold send_message. destruct (py_int rt chat_id); [apply api_send_frame|].
  now unfold raise.
Qed.

Lemma check_and_notify_frame chat_id w :
  user_data (snd (check_and_notify rt chat_id w)) = user_data w
  /\ user_data_file (snd (check_and_notify rt chat_id w)) = user_data_file w.
Proof.
  rewrite check_and_notify_eq.
  destruct (dict_get chat_id (user_data w)) as [sub|]; [|now split].
  cbn zeta.
  destruct (health_factor_of _) as [hf|];
    [destruct (float_lt hf (threshold sub)); [|now split]|];
    match goal with
    | |- context [send_message rt ?c ?m ?w1] =>
        destruct (send_message_frame c m w1) as (H1 & H2 & _);
        rewrite H1, H2; now split
    end.
Qed.

Lemma for_each_frame (l : list string) w :
  user_data (snd (for_each l (check_and_notify rt) w)) = user_data w
  /\ user_data_file (snd (for_each l (check_and_notify rt) w))
     = user_data_file w.
Proof.
  revert w. induction l as [|k l IH]; intros w; simpl; [now split|].
  unfold bind.
  destruct (check_and_notify_frame k w) as [H1 H2].
  destruct (check_and_notify rt k w) as [[[]|e] w1]; simpl in *.
  - destruct (IH w1) as [H3 H4]. rewrite H3, H4. now split.
  - now split.
Qed.

Lemma periodic_check_frame w :
  user_data (snd (periodic_check rt w)) = user_data w
  /\ user_data_file (snd (periodic_check rt w)) = user_data_file w.
Proof.
  unfold periodic_check, bind, get_user_data. apply for_each_frame.
Qed.

(** C9: a sweep never mutates the registry: whatever the readings and
    the outcomes of the notifications, and also when the sweep ends in
    an exception, [user_data] and the file after [periodic_check] are
    those before it. *)
Theorem periodic_check_read_only w :
  user_data (snd (periodic_check rt w)) = user_data w
  /\ user_data_file (snd (periodic_check rt w)) = user_data_file w.
Proof. apply periodic_check_frame. Qed.

(** One evaluation whose message, if any, is delivered. *)
Lemma check_and_notify_delivered chat_id sub n w :
  dict_get chat_id (user_data w) = Some sub ->
  py_int rt chat_id = Some n ->
  delivers rt (List.length (api_log w)) = true ->
  exists w1,
    check_and_notify rt chat_id w = (Ok tt, w1)
    /\ user_data w1 = user_data w
    /\ rpc_log w1 = (rpc_log w ++ [address sub])%list
    /\ (List.length (api_log w) <= List.length (api_log w1))%nat.
Proof.
  intros Hsub Hint Hok.
  rewrite check_and_notify_eq, Hsub. cbn zeta.
  destruct (health_factor_of _) as [hf|];
    [destruct (float_lt hf (threshold sub))|];
    try (erewrite send_message_eq by eassumption; unfold api_send;
         cbn [api_log user_data rpc_log user_data_file]; rewrite Hok;
         eexists; split; [reflexivity|];
         cbn [api_log user_data rpc_log user_data_file];
         rewrite length_app; repeat split; lia).
  eexists; split; [reflexivity|].
  cbn [api_log user_data rpc_log user_data_file]. repeat split; lia.
Qed.

Lemma sweep_from (d2 : registry) : forall (d1 : registry) w1,
  user_data w1 = (d1 ++ d2)%list ->
  distinct (dict_keys (d1 ++ d2)%list) = true ->
  (forall k, In k (dict_keys d2) -> py_int rt k <> None) ->
  (forall n, (List.length (api_log w1) <= n)%nat -> delivers rt n = true) ->
  fst (for_each (dict_keys d2) (check_and_notify rt) w1) = Ok tt
  /\ rpc_log (snd (for_each (dict_keys d2) (check_and_notify rt) w1))
     = (rpc_log w1 ++ sweep_addresses d2)%list.
Proof.
  induction d2 as [|[k sub] d2 IH]; intros d1 w1 Hud Hdist Hint Hok; simpl.
  - now rewrite app_nil_r.
  - unfold bind.
    assert (Hget : dict_get k (user_data w1) = Some sub).
    { rewrite Hud. apply dict_get_middle.
      unfold dict_keys in Hdist. rewrite map_app in Hdist. simpl in Hdist.
      exact (distinct_middle _ _ _ Hdist). }
    destruct (py_int rt k) as [n|] eqn:Hn;
      [|exfalso; apply (Hint k); [now left | exact Hn]].
    destruct (check_and_notify_delivered _ _ Hget Hn) as (w2 & -> & Hu & Hr & Hl).
    { apply Hok. lia. }
    destruct (IH (d1 ++ [(k, sub)])%list w2) as [H1 H2].
    + now rewrite Hu, Hud, <- app_assoc.
    + now rewrite <- app_assoc.
    + intros k' Hk'. apply Hint. now right.
    + intros m Hm. apply Hok. lia.
    + rewrite H1, H2, Hr, <- app_assoc. now split.
Qed.

(** C3, as amended: during one sweep a failure of the metric source
    for one subscriber does not abort the evaluation of the others.
    For every registry and every pattern of failures of the contract
    call, as long as the notifications of the sweep are delivered
    (and [int()] reads every chat id), the sweep ends normally and has
    asked for the address of every subscription, in order. *)
Theorem sweep_survives_source_failures w :
  distinct (dict_keys (user_data w)) = true ->
  (forall k, In k (dict_keys (user_data w)) -> py_int rt k <> None) ->
  (forall n, (List.length (api_log w) <= n)%nat -> delivers rt n = true) ->
  fst (periodic_check rt w) = Ok tt
  /\ rpc_log (snd (periodic_check rt w))
     = (rpc_log w ++ sweep_addresses (user_data w))%list.
Proof.
  intros Hd Hint Hok. unfold periodic_check, bind, get_user_data.
  now apply (sweep_from (user_data w) [] w).
Qed.
(** What the hypothesis on deliveries excludes: when the notice for the
    first subscriber cannot be delivered, the sweep ends there, with
    the exception of the Telegram API, and the other subscriptions
    are not evaluated. *)
Lemma sweep_stops_at_failed_notification k sub d n w :
  user_data w = (k, sub) :: d ->
  py_int rt k = Some n ->
  delivers rt (List.length (api_log w)) = false ->
  match health_factor_of
          (getUserAccountData rt (List.length (rpc_log w)) (address sub)) with
  | Some hf => float_lt hf (threshold sub)
  | None => true
  end = true ->
  fst (periodic_check rt w) = Raise TelegramError
  /\ rpc_log (snd (periodic_check rt w)) = (rpc_log w ++ [address sub])%list.
Proof.
  intros Hud Hint Hfail Hnotice.
  unfold periodic_check, bind, get_user_data. rewrite Hud.
  cbn [dict_keys map fst for_each]. unfold bind.
  rewrite check_and_notify_eq, Hud. cbn [dict_get].
  rewrite String.eqb_refl. cbn zeta.
  destruct (health_factor_of _) as [hf|]; [rewrite Hnotice|];
    erewrite send_message_eq by eassumption; unfold api_send;
    cbn [api_log user_data user_data_file rpc_log]; rewrite Hfail;
    now split.
Qed.
End SweepFacts.


Section HandlerFacts.
Context (rt : runtime).

Lemma fs_run_appends (chunks : list string) (t : string) :
  fs_run (map Append chunks) (Some t)
  = Some (t ++ fold_right String.append EmptyString chunks).
Proof.
  unfold fs_run. revert t.
  induction chunks as [|c chunks IH]; intros t; simpl.
  - now rewrite append_nil_r.
  - now rewrite IH, append_assoc.
Qed.

Lemma fs_run_save_ops data f :
  fs_run (save_ops rt data) f = Some (json_text rt data).
Proof.
  unfold save_ops, json_text.
  change (fs_run (Truncate :: ?l) f) with (fs_run l (Some EmptyString)).
  now rewrite fs_run_appends.
Qed.

(** What [monitor] does once both arguments are accepted. *)
Lemma monitor_accepted chat arg0 arg1 thr w :
  py_float rt arg0 = Some thr ->
  is_address rt arg1 = true ->
  let chat_id := int_repr chat in
  let ud' := upserted chat_id thr arg1 (user_data w) in
  let message :=
    if dict_mem chat_id (user_data w)
    then updated_text rt arg1 thr else started_text rt arg1 thr in
  monitor rt chat [arg0; arg1] w
  = bind (api_send rt chat message) (fun _ => check_and_notify rt chat_id)
      {| user_data := ud';
         user_data_file := Some (json_text rt (reg_obj ud'));
         api_log := api_log w; rpc_log := rpc_log w |}.
Proof.
  intros Hf Ha. cbn zeta. unfold monitor, upserted.
  rewrite Hf, Ha. cbn [negb].
  unfold bind at 1. unfold get_user_data at 1. cbn iota.
  destruct (dict_mem (int_repr chat) (user_data w));
    unfold bind, put_user_data, ret, get_user_data, save_user_data,
      reply_text;
    cbn [user_data user_data_file api_log rpc_log];
    rewrite fs_run_save_ops; reflexivity.
Qed.

Lemma monitor_user_data chat args w :
  user_data (snd (monitor rt chat args w))
  = match args with
    | [arg0; arg1] =>
        match py_float rt arg0 with
        | Some thr =>
            if is_address rt arg1
            then upserted (int_repr chat) thr arg1 (user_data w)
            else user_data w
        | None => user_data w
        end
    | _ => user_data w
    end.
Proof.
  destruct args as [|arg0 [|arg1 [|arg2 args]]]; try reflexivity.
  destruct (py_float rt arg0) as [thr|] eqn:Hf;
    [|unfold monitor; rewrite Hf; reflexivity].
  destruct (is_address rt arg1) eqn:Ha.
  - erewrite monitor_accepted by eassumption. cbn zeta. unfold bind.
    match goal with
    | |- context [api_send rt ?c ?m ?w1] =>
        destruct (api_send_frame rt c m w1) as (H1 & _);
        destruct (api_send rt c m w1) as [[[]|e] w2]
    end; simpl in *; [|exact H1].
    destruct (check_and_notify_frame rt (int_repr chat) w2) as [H2 _].
    now rewrite H2.
  - unfold monitor. rewrite Hf, Ha. reflexivity.
Qed.

Lemma upserted_get chat_id thr addr ud :
  dict_get chat_id (upserted chat_id thr addr ud)
  = Some {| threshold := thr; address := addr |}.
Proof.
  unfold upserted, dict_mem, dict_update.
  destruct (dict_get chat_id ud) as [old|] eqn:E.
  - rewrite dict_get_set_same. now rewrite dict_get_set_same.
  - apply dict_get_set_same.
Qed.

Lemma In_upserted chat_id thr addr ud x :
  In x (upserted chat_id thr addr ud) ->
  In x ud
  \/ (fst x = chat_id /\ threshold (snd x) = thr
      /\ (address (snd x) = addr
          \/ exists old, In (chat_id, old) ud /\ address (snd x) = address old)).
Proof.
  unfold upserted, dict_mem, dict_update.
  destruct (dict_get chat_id ud) as [old|] eqn:E.
  - rewrite dict_get_set_same. intros H.
    apply In_dict_set in H as [->|H]; [right; simpl; auto|].
    apply In_dict_set in H as [->|H]; [|now left].
    right. simpl. repeat split. right. exists old. split; [|reflexivity].
    now apply dict_get_In.
  - intros H. apply In_dict_set in H as [->|H]; [right; simpl; auto | now left].
Qed.

Lemma stop_eq chat w :
  stop rt chat w
  = if dict_mem (int_repr chat) (user_data w) then
      let ud' := dict_del (int_repr chat) (user_data w) in
      api_send rt chat "Monitoring stopped."
        {| user_data := ud';
           user_data_file := Some (json_text rt (reg_obj ud'));
           api_log := api_log w; rpc_log := rpc_log w |}
    else api_send rt chat "You were not monitoring any address." w.
Proof.
  unfold stop. unfold bind at 1. unfold get_user_data at 1. cbn iota.
  destruct (dict_mem (int_repr chat) (user_data w)); [|reflexivity].
  unfold bind, put_user_data, get_user_data, save_user_data, reply_text.
  cbn [user_data user_data_file api_log rpc_log].
  now rewrite fs_run_save_ops.
Qed.

Lemma check_eq chat w :
  check rt chat w
  = match dict_get (int_repr chat) (user_data w) with
    | Some sub =>
        api_send rt chat
          (check_text rt (address sub) (threshold sub)
             (health_factor_of
                (getUserAccountData rt (List.length (rpc_log w)) (address sub))))
          {| user_data := user_data w; user_data_file := user_data_file w;
             api_log := api_log w;
             rpc_log := (rpc_log w ++ [address sub])%list |}
    | None =>
        api_send rt chat "You are not currently monitoring any address." w
    end.
Proof.
  unfold check. unfold bind at 1. unfold get_user_data at 1. cbn iota.
  destruct (dict_get (int_repr chat) (user_data w)); reflexivity.
Qed.

Lemma check_frame chat w :
  user_data (snd (check rt chat w)) = user_data w
  /\ user_data_file (snd (check rt chat w)) = user_data_file w.
Proof.
  rewrite check_eq.
  destruct (dict_get (int_repr chat) (user_data w)); now split.
Qed.
End HandlerFacts.

Section Claims.
Context (rt : runtime).

Lemma api_log_api_send to msg w :
  api_log (snd (api_send rt to msg w))
  = (api_log w
     ++ [{| chat := to; text := msg;
            delivered := delivers rt (List.length (api_log w)) |}])%list.
Proof. reflexivity. Qed.


Lemma dict_keys_upserted chat_id thr addr (ud : registry) :
  dict_keys (upserted chat_id thr addr ud)
  = if dict_mem chat_id ud then dict_keys ud
    else (dict_keys ud ++ [chat_id])%list.
Proof.
  unfold upserted. destruct (dict_mem chat_id ud) eqn:Hm.
  - unfold dict_update, dict_mem in *.
    destruct (dict_get chat_id ud) as [old|] eqn:E; [|discriminate].
    rewrite dict_get_set_same.
    rewrite dict_keys_set_mem.
    + apply dict_keys_set_mem. unfold dict_mem. now rewrite E.
    + unfold dict_mem. now rewrite dict_get_set_same.
  - unfold dict_mem, dict_keys in *.
    induction ud as [|[k v] ud IH]; simpl in *; [reflexivity|].
    destruct (String.eqb chat_id k); [discriminate|].
    simpl. now rewrite IH.
Qed.

Lemma monitor_accepted_state chat arg0 arg1 thr w :
  py_float rt arg0 = Some thr ->
  is_address rt arg1 = true ->
  let ud' := upserted (int_repr chat) thr arg1 (user_data w) in
  user_data (snd (monitor rt chat [arg0; arg1] w)) = ud'
  /\ user_data_file (snd (monitor rt chat [arg0; arg1] w))
     = Some (json_text rt (reg_obj ud')).
Proof.
  intros Hf Ha. cbn zeta.
  erewrite monitor_accepted by eassumption. cbn zeta. unfold bind.
  match goal with
  | |- context [api_send rt ?c ?m ?w1] =>
      destruct (api_send_frame rt c m w1) as (H1 & H2 & _);
      destruct (api_send rt c m w1) as [[[]|e] w2]
  end; simpl in *; [|now split].
  destruct (check_and_notify_frame rt (int_repr chat) w2) as [H3 H4].
  rewrite H3, H4. now split.
Qed.


(** C8: for every registry and every chat that is not in it, [stop]
    answers "You were not monitoring any address." and leaves both
    [user_data] and the file unchanged: nothing is persisted unless
    an entry is removed. *)
Theorem stop_absent chat w :
  dict_mem (int_repr chat) (user_data w) = false ->
  let w' := snd (stop rt chat w) in
  user_data w' = user_data w
  /\ user_data_file w' = user_data_file w
  /\ api_log w'
     = (api_log w
        ++ [{| chat := chat; text := "You were not monitoring any address.";
               delivered := delivers rt (List.length (api_log w)) |}])%list.
Proof. intros Hm. cbn zeta. rewrite stop_eq, Hm. now repeat split. Qed.

(** The other branch of [stop]: the entry is deleted and the whole new
    mapping is written to the file. *)
Lemma stop_present chat w :
  dict_mem (int_repr chat) (user_data w) = true ->
  let w' := snd (stop rt chat w) in
  user_data w' = dict_del (int_repr chat) (user_data w)
  /\ user_data_file w' = Some (json_text rt (reg_obj (user_data w'))).
Proof. intros Hm. cbn zeta. rewrite stop_eq, Hm. now split. Qed.

(** C10, as amended: every [monitor] with an accepted threshold and
    address, once its confirmation is delivered, evaluates the stored
    subscription at once: the metric source is asked exactly once, for
    the new address, and after the confirmation comes the alert when
    the reading is below the threshold, the source-unavailable notice
    when there is no reading, and nothing otherwise.  (When the
    confirmation is not delivered the subscription is stored and saved
    all the same, and no evaluation follows.) *)
Theorem monitor_evaluates_at_once chat arg0 arg1 thr w :
  py_float rt arg0 = Some thr ->
  is_address rt arg1 = true ->
  delivers rt (List.length (api_log w)) = true ->
  py_int rt (int_repr chat) = Some chat ->
  let chat_id := int_repr chat in
  let w' := snd (monitor rt chat [arg0; arg1] w) in
  let reading :=
    health_factor_of (getUserAccountData rt (List.length (rpc_log w)) arg1) in
  let confirmation :=
    {| chat := chat;
       text := if dict_mem chat_id (user_data w)
               then updated_text rt arg1 thr else started_text rt arg1 thr;
       delivered := true |} in
  let notice msg :=
    {| chat := chat; text := msg;
       delivered := delivers rt (S (List.length (api_log w))) |} in
  rpc_log w' = (rpc_log w ++ [arg1])%list
  /\ api_log w'
     = (api_log w
        ++ confirmation
           :: match reading with
              | Some hf =>
                  if float_lt hf thr
                  then [notice (alert_text rt arg1 hf thr)] else []
              | None => [notice (unavailable_text arg1)]
              end)%list.
Proof.
  intros Hf Ha Hd Hint chat_id w' reading confirmation notice.
  set (w2 := {| user_data := upserted chat_id thr arg1 (user_data w);
                user_data_file :=
                  Some (json_text rt
                          (reg_obj (upserted chat_id thr arg1 (user_data w))));
                api_log := (api_log w ++ [confirmation])%list;
                rpc_log := rpc_log w |}).
  assert (Hm : monitor rt chat [arg0; arg1] w = check_and_notify rt chat_id w2).
  { erewrite monitor_accepted by eassumption. cbn zeta. fold chat_id.
    unfold bind, api_send.
    cbn [api_log user_data user_data_file rpc_log]. now rewrite Hd. }
  subst w'. rewrite Hm, check_and_notify_eq.
  replace (dict_get chat_id (user_data w2))
    with (Some {| threshold := thr; address := arg1 |})
    by (symmetry; apply upserted_get).
  cbn zeta. cbn [address threshold].
  change (rpc_log w2) with (rpc_log w). fold reading.
  destruct reading as [hf|]; [destruct (float_lt hf thr)|];
    try (erewrite send_message_eq by eassumption; unfold api_send;
         subst w2; cbn [api_log user_data user_data_file rpc_log snd];
         rewrite length_app, <- app_assoc; cbn [List.length app];
         rewrite Nat.add_1_r; now split).
  subst w2. cbn [snd api_log rpc_log]. now split.
Qed.
End Claims.

Section Persistence.
Context (rt : runtime).

Lemma handle_user_data_accepted ev w :
  (forall k sub, In (k, sub) (user_data w) -> accepted rt sub) ->
  forall k sub,
    In (k, sub) (user_data (snd (handle rt ev w))) -> accepted rt sub.
Proof.
  intros Hinv k sub.
  destruct ev as [chat | chat args | chat | chat | chat txt |]; cbn [handle].
  - apply Hinv.
  - rewrite monitor_user_data.
    destruct args as [|arg0 [|arg1 [|arg2 args]]]; try apply Hinv.
    destruct (py_float rt arg0) as [thr|] eqn:Hf; [|apply Hinv].
    destruct (is_address rt arg1) eqn:Ha; [|apply Hinv].
    intros [H|(_ & Ht & Hadr)]%In_upserted; [now apply (Hinv k)|].
    cbn [fst snd] in *. split.
    + exists arg0. now rewrite Ht.
    + destruct Hadr as [->|(old & Hold & ->)]; [exact Ha|].
      now apply (Hinv _ _ Hold).
  - destruct (check_frame rt chat w) as [-> _]. apply Hinv.
  - rewrite stop_eq.
    destruct (dict_mem (int_repr chat) (user_data w)); cbn; [|apply Hinv].
    intros H%In_dict_del. now apply (Hinv k).
  - unfold handle_address.
    destruct (is_address rt (py_strip txt)); cbn [negb]; [|apply Hinv].
    unfold bind, check_health_factor.
    destruct (health_factor_of _); apply Hinv.
  - destruct (periodic_check_frame rt w) as [-> _]. apply Hinv.
Qed.

(** C2, as amended: in every registry reachable from one whose
    subscriptions were accepted (the empty one in particular), every
    stored subscription has a threshold that [float()] returned for
    some argument and an address that [is_address] accepted; and a
    threshold text that [float()] cannot parse is rejected before the
    mapping or the file is touched.  Nothing requires the threshold
    to be finite or positive. *)
Theorem stored_subscriptions_were_accepted (evs : list event) (w0 : world) :
  (forall k sub, In (k, sub) (user_data w0) -> accepted rt sub) ->
  (forall k sub, In (k, sub) (user_data (run rt evs w0)) -> accepted rt sub)
  /\ (forall chat arg0 arg1 w,
        py_float rt arg0 = None ->
        user_data (snd (monitor rt chat [arg0; arg1] w)) = user_data w
        /\ user_data_file (snd (monitor rt chat [arg0; arg1] w))
           = user_data_file w).
Proof.
  intros Hinv. split.
  - revert w0 Hinv. unfold run.
    induction evs as [|ev evs IH]; intros w0 Hinv; cbn [fold_left].
    + exact Hinv.
    + apply IH. now apply handle_user_data_accepted.
  - intros chat arg0 arg1 w Hf. unfold monitor. rewrite Hf. now split.
Qed.

Lemma fold_right_append_app (l1 l2 : list string) :
  fold_right String.append EmptyString (l1 ++ l2)%list
  = fold_right String.append EmptyString l1
    ++ fold_right String.append EmptyString l2.
Proof.
  induction l1 as [|c l1 IH]; simpl; [reflexivity|].
  now rewrite IH, append_assoc.
Qed.

Lemma save_interrupted_prefix n data f :
  (1 <= n)%nat ->
  exists p, save_interrupted rt n data f = Some p
            /\ is_prefix p (json_text rt data).
Proof.
  intros Hn. destruct n as [|n]; [lia|].
  unfold save_interrupted, save_ops. cbn [firstn].
  change (fs_run (Truncate :: ?l) f) with (fs_run l (Some EmptyString)).
  rewrite firstn_map, fs_run_appends. cbn [String.append].
  eexists. split; [reflexivity|].
  exists (fold_right String.append EmptyString (skipn n (iterencode rt data))).
  unfold json_text.
  now rewrite <- fold_right_append_app, firstn_skipn.
Qed.

Lemma handle_mutation_saved ev w :
  mutates rt ev w = true ->
  user_data_file (snd (handle rt ev w))
  = Some (json_text rt (reg_obj (user_data (snd (handle rt ev w))))).
Proof.
  destruct ev as [chat | chat args | chat | chat | chat txt |];
    cbn [handle mutates]; try discriminate.
  - destruct args as [|arg0 [|arg1 [|arg2 args]]]; try discriminate.
    destruct (py_float rt arg0) as [thr|] eqn:Hf; [|discriminate].
    intros Ha.
    destruct (@monitor_accepted_state rt chat arg0 arg1 thr w Hf Ha)
      as [-> ->].
    reflexivity.
  - intros Hm. now destruct (@stop_present rt chat w Hm) as [_ ->].
Qed.

(** C4, as amended: every mutating operation (an accepted [monitor],
    a [stop] of a subscribed chat) leaves in the file the complete
    text of the new mapping, written by [save_user_data].  The write
    is in place: after its first step the file is empty, and
    interrupted after any later step the file holds a beginning of
    the new text; the previous content is gone from the first step
    on. *)
Theorem mutation_rewrites_snapshot_in_place ev w :
  mutates rt ev w = true ->
  let w' := snd (handle rt ev w) in
  let data := reg_obj (user_data w') in
  user_data_file w' = Some (json_text rt data)
  /\ user_data_file w' = fs_run (save_ops rt data) (user_data_file w)
  /\ save_interrupted rt 1 data (user_data_file w) = Some EmptyString
  /\ (forall n, (1 <= n)%nat ->
        exists p, save_interrupted rt n data (user_data_file w) = Some p
                  /\ is_prefix p (json_text rt data)).
Proof.
  intros Hm. cbn zeta.
  rewrite fs_run_save_ops, (handle_mutation_saved _ _ Hm).
  repeat split. intros n Hn. now apply save_interrupted_prefix.
Qed.
End Persistence.

(** ** The keys of the registry *)

Section KeyFacts.
Variable V : Type.
Implicit Types (d : pydict V) (k : string) (v : V).

Lemma dict_keys_set_new k v d :
  dict_mem k d = false ->
  dict_keys (dict_set k v d) = (dict_keys d ++ [k])%list.
Proof.
  unfold dict_mem, dict_keys.
  induction d as [|[k' v'] d IH]; simpl; [reflexivity|].
  destruct (String.eqb k k'); [discriminate|].
  simpl. intros H. now rewrite IH.
Qed.

Lemma dict_mem_existsb k d :
  dict_mem k d = existsb (String.eqb k) (dict_keys d).
Proof.
  unfold dict_mem, dict_keys.
  induction d as [|[k' v'] d IH]; simpl; [reflexivity|].
  destruct (String.eqb k k'); [reflexivity | exact IH].
Qed.

Lemma In_keys_dict_del k d x :
  In x (dict_keys (dict_del k d)) -> In x (dict_keys d).
Proof.
  unfold dict_keys.
  induction d as [|[k' v'] d IH]; simpl; [auto|].
  destruct (String.eqb k k'); simpl; intuition.
Qed.

Lemma existsb_keys_dict_del k x d :
  existsb (String.eqb x) (dict_keys d) = false ->
  existsb (String.eqb x) (dict_keys (dict_del k d)) = false.
Proof.
  unfold dict_keys.
  induction d as [|[k' v'] d IH]; simpl; [auto|].
  intros [H1 H2]%orb_false_elim.
  destruct (String.eqb k k'); simpl; [exact H2|].
  now rewrite H1, IH.
Qed.

Lemma distinct_dict_del k d :
  distinct (dict_keys d) = true -> distinct (dict_keys (dict_del k d)) = true.
Proof.
  induction d as [|[k' v'] d IH]; simpl; [auto|].
  intros [H1 H2]%andb_prop.
  destruct (String.eqb k k'); simpl; [exact H2|].
  apply negb_true_iff in H1.
  change (map fst d) with (dict_keys d) in H1.
  change (map fst (dict_del k d)) with (dict_keys (dict_del k d)).
  now rewrite (existsb_keys_dict_del k _ _ H1), IH.
Qed.
End KeyFacts.

Lemma distinct_snoc (l : list string) (k : string) :
  distinct l = true -> existsb (String.eqb k) l = false ->
  distinct (l ++ [k])%list = true.
Proof.
  induction l as [|x l IH]; simpl; [reflexivity|].
  intros [H1 H2]%andb_prop [H3 H4]%orb_false_elim.
  rewrite existsb_app. simpl. apply negb_true_iff in H1.
  rewrite H1, (String.eqb_sym x k), H3. simpl. now apply IH.
Qed.

Section RegistryKeys.
Context (rt : runtime).

Lemma keys_ok_upserted chat thr addr m :
  keys_ok m -> keys_ok (upserted (int_repr chat) thr addr m).
Proof.
  intros [Hd Hk]. unfold keys_ok. rewrite dict_keys_upserted.
  destruct (dict_mem (int_repr chat) m) eqn:Hm; [now split|].
  split.
  - apply distinct_snoc; [exact Hd|]. now rewrite <- dict_mem_existsb.
  - intros k [H|[<-|[]]]%in_app_or; [now apply Hk | now exists chat].
Qed.

Lemma keys_ok_handle ev w :
  keys_ok (user_data w) -> keys_ok (user_data (snd (handle rt ev w))).
Proof.
  intros Hok.
  destruct ev as [chat | chat args | chat | chat | chat txt |]; cbn [handle].
  - exact Hok.
  - rewrite monitor_user_data.
    destruct args as [|arg0 [|arg1 [|arg2 args]]]; try exact Hok.
    destruct (py_float rt arg0); [|exact Hok].
    destruct (is_address rt arg1); [|exact Hok].
    now apply keys_ok_upserted.
  - now destruct (check_frame rt chat w) as [-> _].
  - rewrite stop_eq.
    destruct (dict_mem (int_repr chat) (user_data w)); cbn; [|exact Hok].
    destruct Hok as [Hd Hk]. split.
    + now apply distinct_dict_del.
    + intros k Hin. apply Hk. exact (In_keys_dict_del _ _ _ Hin).
  - unfold handle_address.
    destruct (is_address rt (py_strip txt)); cbn [negb]; [|exact Hok].
    unfold bind, check_health_factor.
    destruct (health_factor_of _); exact Hok.
  - now destruct (periodic_check_frame rt w) as [-> _].
Qed.

(** Whatever the bot has handled since it started with an empty
    registry, the keys of [user_data] are distinct and are chat ids. *)
Lemma keys_ok_run (evs : list event) (w0 : world) :
  keys_ok (user_data w0) -> keys_ok (user_data (run rt evs w0)).
Proof.
  revert w0. unfold run.
  induction evs as [|ev evs IH]; intros w0 Hok; cbn [fold_left].
  - exact Hok.
  - apply IH. now apply keys_ok_handle.
Qed.
End RegistryKeys.

(** ** Strings through [encode_basestring_ascii] and [scanstring] *)

Lemma scanstring_escape_char (c : ascii) (rest : string) :
  scanstring (escape_char c ++ rest) = cons_char c (scanstring rest).
Proof.
  destruct c as [[] [] [] [] [] [] [] []]; reflexivity.
Qed.

Lemma scanstring_escape_ascii (s rest : string) :
  scanstring (escape_ascii s ++ String dquote rest) = Ok (s, rest).
Proof.
  induction s as [|c s IH]; cbn [escape_ascii].
  - reflexivity.
  - now rewrite append_assoc, scanstring_escape_char, IH.
Qed.

(** ** Numbers through [NUMBER_RE] *)

Lemma delimited_not_digit c rest :
  delimited (String c rest) = true -> is_digit c = false.
Proof.
  unfold delimited, ends_number. intros H%negb_true_iff.
  now destruct (is_digit c).
Qed.

Lemma span_digits_split s : s = fst (span_digits s) ++ snd (span_digits s).
Proof.
  induction s as [|c s IH]; cbn [span_digits]; [reflexivity|].
  destruct (is_digit c); [|reflexivity].
  destruct (span_digits s) as [d r]. cbn in *. now rewrite <- IH.
Qed.

Lemma span_digits_app s rest :
  delimited rest = true ->
  span_digits (s ++ rest)
  = (fst (span_digits s), snd (span_digits s) ++ rest).
Proof.
  intros Hd. induction s as [|c s IH]; cbn [String.append span_digits].
  - destruct rest as [|c rest]; [reflexivity|].
    cbn [span_digits]. now rewrite (delimited_not_digit _ _ Hd).
  - destruct (is_digit c); [|reflexivity].
    rewrite IH. now destruct (span_digits s).
Qed.

Lemma match_integer_split s i r : match_integer s = Some (i, r) -> s = i ++ r.
Proof.
  unfold match_integer.
  assert (H : forall sign s1, 
    match s1 with
    | EmptyString => None
    | String c s2 =>
        if Ascii.eqb c "0" then Some (sign ++ "0", s2)
        else if is_digit c then
               let (d, r) := span_digits s2 in Some (sign ++ String c d, r)
             else None
    end = Some (i, r) -> sign ++ s1 = i ++ r).
  { intros sign [|c s2]; [discriminate|].
    destruct (Ascii.eqb c "0") eqn:E.
    - apply Ascii.eqb_eq in E as ->. intros [= <- <-].
      now rewrite append_assoc.
    - destruct (is_digit c); [|discriminate].
      pose proof (span_digits_split s2) as Hs.
      destruct (span_digits s2) as [d r']. cbn in Hs.
      intros [= <- <-]. rewrite append_assoc. cbn. now rewrite <- Hs. }
  destruct s as [|c s]; [discriminate|].
  destruct (Ascii.eqb c "-") eqn:E.
  - apply Ascii.eqb_eq in E as ->. apply (H "-" s).
  - apply (H EmptyString (String c s)).
Qed.

Lemma match_integer_app s rest i r :
  delimited rest = true ->
  match_integer s = Some (i, r) ->
  match_integer (s ++ rest) = Some (i, r ++ rest).
Proof.
  intros Hd. unfold match_integer.
  assert (H : forall sign s1,
    match s1 with
    | EmptyString => None
    | String c s2 =>
        if Ascii.eqb c "0" then Some (sign ++ "0", s2)
        else if is_digit c then
               let (d, r) := span_digits s2 in Some (sign ++ String c d, r)
             else None
    end = Some (i, r) ->
    match s1 ++ rest with
    | EmptyString => None
    | String c s2 =>
        if Ascii.eqb c "0" then Some (sign ++ "0", s2)
        else if is_digit c then
               let (d, r) := span_digits s2 in Some (sign ++ String c d, r)
             else None
    end = Some (i, r ++ rest)).
  { intros sign [|c s2]; [discriminate|]. cbn [String.append].
    destruct (Ascii.eqb c "0"); [now intros [= <- <-]|].
    destruct (is_digit c); [|discriminate].
    rewrite (span_digits_app s2 _ Hd).
    destruct (span_digits s2) as [d r']. cbn. now intros [= <- <-]. }
  destruct s as [|c s]; [discriminate|]. cbn [String.append].
  destruct (Ascii.eqb c "-");
    [apply (H "-" s) | apply (H EmptyString (String c s))].
Qed.

Lemma match_integer_head s i r :
  match_integer s = Some (i, r) ->
  exists c s', s = String c s' /\ (is_digit c || Ascii.eqb c "-" = true).
Proof.
  unfold match_integer. destruct s as [|c s]; [discriminate|].
  intros H. exists c, s. split; [reflexivity|].
  destruct (Ascii.eqb c "-"); [now rewrite orb_true_r|].
  rewrite orb_false_r.
  destruct (Ascii.eqb c "0") eqn:E.
  - now apply Ascii.eqb_eq in E as ->.
  - now destruct (is_digit c).
Qed.

Lemma match_frac_split s : s = fst (match_frac s) ++ snd (match_frac s).
Proof.
  unfold match_frac. destruct s as [|c s]; [reflexivity|].
  destruct (Ascii.eqb c "."); [|reflexivity].
  pose proof (span_digits_split s) as Hs.
  destruct (span_digits s) as [[|d0 d] r]; [reflexivity|].
  cbn in *. now rewrite <- Hs.
Qed.

Lemma match_frac_app s rest :
  delimited rest = true ->
  match_frac (s ++ rest) = (fst (match_frac s), snd (match_frac s) ++ rest).
Proof.
  intros Hd. unfold match_frac. destruct s as [|c s]; cbn [String.append].
  - destruct rest as [|c rest]; [reflexivity|].
    unfold delimited, ends_number in Hd.
    destruct (Ascii.eqb c "."); [|reflexivity].
    now rewrite !orb_true_r in Hd.
  - destruct (Ascii.eqb c "."); [|reflexivity].
    rewrite (span_digits_app s _ Hd).
    now destruct (span_digits s) as [[|d0 d] r].
Qed.

Lemma match_exp_split s : s = fst (match_exp s) ++ snd (match_exp s).
Proof.
  unfold match_exp. destruct s as [|c s]; [reflexivity|].
  destruct (Ascii.eqb c "e" || Ascii.eqb c "E"); [|reflexivity].
  destruct s as [|c2 s2].
  - reflexivity.
  - destruct (Ascii.eqb c2 "-" || Ascii.eqb c2 "+").
    + pose proof (span_digits_split s2) as Hs.
      destruct (span_digits s2) as [[|d0 d] r]; [reflexivity|].
      cbn in *. now rewrite <- Hs.
    + pose proof (span_digits_split (String c2 s2)) as Hs.
      destruct (span_digits (String c2 s2)) as [[|d0 d] r]; [reflexivity|].
      cbn in *. now rewrite <- Hs.
Qed.

Lemma match_exp_app s rest :
  delimited rest = true ->
  match_exp (s ++ rest) = (fst (match_exp s), snd (match_exp s) ++ rest).
Proof.
  intros Hd. unfold match_exp. destruct s as [|c s]; cbn [String.append].
  - destruct rest as [|c rest]; [reflexivity|].
    unfold delimited, ends_number in Hd.
    destruct (Ascii.eqb c "e"); [now rewrite !orb_true_r in Hd|].
    destruct (Ascii.eqb c "E"); [now rewrite !orb_true_r in Hd|].
    reflexivity.
  - destruct (Ascii.eqb c "e" || Ascii.eqb c "E"); [|reflexivity].
    destruct s as [|c2 s2]; cbn [String.append].
    + destruct rest as [|c3 rest]; [reflexivity|].
      pose proof (delimited_not_digit _ _ Hd) as Hdig.
      unfold delimited, ends_number in Hd.
      destruct (Ascii.eqb c3 "-"); [now rewrite !orb_true_r in Hd|].
      destruct (Ascii.eqb c3 "+"); [now rewrite !orb_true_r in Hd|].
      cbn [orb span_digits]. now rewrite Hdig.
    + destruct (Ascii.eqb c2 "-" || Ascii.eqb c2 "+").
      * rewrite (span_digits_app s2 _ Hd).
        now destruct (span_digits s2) as [[|d0 d] r].
      * change (String c2 (s2 ++ rest)) with (String c2 s2 ++ rest).
        rewrite (span_digits_app (String c2 s2) _ Hd).
        now destruct (span_digits (String c2 s2)) as [[|d0 d] r].
Qed.

(** ** Integers through [int.__repr__] and [NUMBER_RE] *)

Lemma span_digits_uint (d : Decimal.uint) :
  span_digits (NilEmpty.string_of_uint d)
  = (NilEmpty.string_of_uint d, EmptyString).
Proof.
  induction d as [|d IH|d IH|d IH|d IH|d IH|d IH|d IH|d IH|d IH|d IH];
    cbn [NilEmpty.string_of_uint span_digits]; [reflexivity|..];
    change (is_digit _) with true; cbn iota; now rewrite IH.
Qed.

Lemma to_uint_head (p : positive) :
  match Pos.to_uint p with
  | Decimal.Nil | Decimal.D0 _ => False
  | _ => True
  end.
Proof.
  pose proof (DecimalPos.Unsigned.to_of (Pos.to_uint p)) as H.
  rewrite DecimalPos.Unsigned.of_to in H. cbn [N.to_uint] in H.
  pose proof (DecimalPos.Unsigned.to_uint_nonzero p) as Hnz.
  pose proof (DecimalPos.Unsigned.to_uint_nonnil p) as Hnn.
  destruct (Pos.to_uint p) as [|d|d|d|d|d|d|d|d|d|d] eqn:E; try exact I.
  - now apply Hnn.
  - unfold Decimal.unorm in H.
    pose proof (DecimalFacts.nzhead_nonzero (Decimal.D0 d)) as Hh.
    destruct (Decimal.nzhead (Decimal.D0 d)) as [|d'|d'|d'|d'|d'|d'|d'|d'|d'|d'] eqn:E2;
      try discriminate H.
    + apply Hnz. now rewrite H.
    + now apply (Hh d').
Qed.

Lemma match_integer_uint (sign : string) (p : positive) :
  (sign = EmptyString \/ sign = "-") ->
  match_integer (sign ++ NilEmpty.string_of_uint (Pos.to_uint p))
  = Some (sign ++ NilEmpty.string_of_uint (Pos.to_uint p), EmptyString).
Proof.
  intros Hs. pose proof (to_uint_head p) as Hh.
  destruct Hs as [->| ->];
    destruct (Pos.to_uint p) as [|d|d|d|d|d|d|d|d|d|d]; try contradiction;
    unfold match_integer; cbn [String.append NilEmpty.string_of_uint];
    cbn -[span_digits]; now rewrite span_digits_uint.
Qed.

Lemma match_integer_int_repr (z : Z) :
  match_integer (int_repr z) = Some (int_repr z, EmptyString).
Proof.
  unfold int_repr. destruct z as [|p|p]; cbn [Z.to_int NilZero.string_of_int].
  - reflexivity.
  - unfold NilZero.string_of_uint.
    pose proof (to_uint_head p) as Hh.
    pose proof (@match_integer_uint EmptyString p (or_introl eq_refl)) as H.
    cbn [String.append] in H.
    destruct (Pos.to_uint p); try contradiction; exact H.
  - unfold NilZero.string_of_uint.
    pose proof (to_uint_head p) as Hh.
    pose proof (@match_integer_uint "-" p (or_intror eq_refl)) as H.
    cbn [String.append] in H.
    destruct (Pos.to_uint p); try contradiction; exact H.
Qed.

Lemma int_of_token_int_repr (z : Z) : int_of_token (int_repr z) = Some z.
Proof.
  unfold int_of_token, int_repr.
  rewrite NilZero.isi.
  - now rewrite DecimalZ.of_to.
  - destruct z; cbn; try discriminate.
    intros [= H]. now apply (DecimalPos.Unsigned.to_uint_nonnil p).
  - destruct z; cbn; try discriminate.
    intros [= H]. now apply (DecimalPos.Unsigned.to_uint_nonnil p).
Qed.

(** ** [scan_once] on the text of a number *)

Lemma float_same_eq (g f : float64) : float_same g f = true -> g = f.
Proof.
  destruct g as [a|a| |a m e], f as [b|b| |b m' e']; cbn; try discriminate;
    try reflexivity.
  - intros ->%Bool.eqb_prop. reflexivity.
  - intros ->%Bool.eqb_prop. reflexivity.
  - intros [[->%Bool.eqb_prop ->%Pos.eqb_eq]%andb_prop ->%Z.eqb_eq]%andb_prop.
    reflexivity.
Qed.

Lemma number_head_plain (c : ascii) :
  is_digit c || Ascii.eqb c "-" = true ->
  Ascii.eqb c dquote = false /\ Ascii.eqb c "{" = false
  /\ Ascii.eqb c "[" = false /\ Ascii.eqb "n" c = false
  /\ Ascii.eqb "t" c = false /\ Ascii.eqb "f" c = false
  /\ is_json_ws c = false.
Proof.
  destruct c as [[] [] [] [] [] [] [] []]; vm_compute;
    intros H; try discriminate H; repeat split.
Qed.

Section ScanNumber.
Context (rt : runtime).

Lemma scan_once_number fuel tok rest i r1 :
  delimited rest = true ->
  match_integer tok = Some (i, r1) ->
  scan_once rt (S fuel) (tok ++ rest) = scan_number rt i (r1 ++ rest).
Proof.
  intros Hd Hm.
  destruct (match_integer_head _ Hm) as (c & s' & -> & Hc).
  destruct (number_head_plain _ Hc) as (H1 & H2 & H3 & H4 & H5 & H6 & _).
  pose proof (match_integer_app _ _ Hd Hm) as Hm'.
  cbn [String.append] in Hm' |- *.
  cbn [scan_once strip_prefix]. rewrite H1, H2, H3, H4, H5, H6, Hm'.
  reflexivity.
Qed.

Lemma scan_number_empty i rest :
  delimited rest = true ->
  scan_number rt i rest
  = match parse_int i with
    | Some z => Ok (PInt z, rest)
    | None => Raise ValueError
    end.
Proof.
  intros Hd. unfold scan_number.
  pose proof (match_frac_app EmptyString _ Hd) as Hf.
  pose proof (match_exp_app EmptyString _ Hd) as He.
  cbn in Hf, He. now rewrite Hf, He.
Qed.

Lemma scan_once_int fuel z rest :
  delimited rest = true ->
  (count_digits (int_repr z) <=? int_max_str_digits)%nat = true ->
  scan_once rt (S fuel) (int_repr z ++ rest) = Ok (PInt z, rest).
Proof.
  intros Hd Hz.
  rewrite (scan_once_number fuel _ _ Hd (match_integer_int_repr z)).
  cbn [String.append]. rewrite (scan_number_empty _ _ Hd).
  unfold parse_int. apply Nat.leb_le in Hz.
  rewrite (proj2 (Nat.ltb_ge _ _) Hz).
  now rewrite int_of_token_int_repr.
Qed.

Lemma scan_once_float_token fuel tok rest :
  delimited rest = true ->
  is_float_token tok = true ->
  scan_once rt (S fuel) (tok ++ rest)
  = match py_float rt tok with
    | Some f => Ok (PFloat f, rest)
    | None => Raise ValueError
    end.
Proof.
  intros Hd Ht. unfold is_float_token in Ht.
  destruct (match_integer tok) as [[i r1]|] eqn:Hm; [|discriminate].
  rewrite (scan_once_number fuel _ _ Hd Hm). unfold scan_number.
  rewrite (match_frac_app r1 _ Hd).
  pose proof (match_frac_split r1) as Hs1.
  destruct (match_frac r1) as [frac r2]. cbn [fst snd] in *.
  rewrite (match_exp_app r2 _ Hd).
  pose proof (match_exp_split r2) as Hs2.
  destruct (match_exp r2) as [exp r3]. cbn [fst snd] in *.
  apply andb_prop in Ht as [Hr3 Hfe].
  destruct r3; [|discriminate]. apply negb_true_iff in Hfe. rewrite Hfe.
  rewrite append_nil_r in Hs2. subst r2 r1.
  now rewrite <- (match_integer_split _ Hm).
Qed.

Lemma scan_once_float fuel f rest :
  delimited rest = true ->
  (if float_is_finite f then repr_roundtrips rt f else true) = true ->
  scan_once rt (S fuel) (floatstr rt f ++ rest) = Ok (PFloat f, rest).
Proof.
  intros Hd Hf.
  destruct f as [s|[]| |s m e]; cbn [floatstr float_is_finite] in *;
    try reflexivity;
    unfold repr_roundtrips in Hf; apply andb_prop in Hf as [Ht Hp];
    rewrite (scan_once_float_token fuel _ _ Hd Ht);
    destruct (py_float rt (float_repr rt _)) as [g|]; try discriminate;
    now rewrite (float_same_eq _ _ Hp).
Qed.
End ScanNumber.

(** ** The text of lists and dicts *)



Section TextFacts.
Context (rt : runtime).



Lemma atom_text_iterencode v t :
  atom_text rt v = Some t -> iterencode rt v = [t].
Proof.
  destruct v as [|[]| | | | |]; cbn; intros [= <-]; reflexivity.
Qed.

Lemma join_value_chunks (buf : string) v :
  fold_right String.append EmptyString (match atom_text rt v with
        | Some t => [buf ++ t]
        | None => buf :: iterencode rt v
        end) = buf ++ json_text rt v.
Proof.
  unfold json_text.
  destruct (atom_text rt v) as [t|] eqn:E; [|reflexivity].
  rewrite (atom_text_iterencode _ E). cbn. now rewrite !append_nil_r.
Qed.

Lemma join_list_items (l : list pyobj) (first : bool) :
  fold_right String.append EmptyString (iterencode_list_items rt (iterencode rt) first l)
  = match l with
    | [] => "]"
    | v :: l' =>
        (if first then "[" else ", ") ++ json_text rt v
        ++ list_tail_text rt l'
    end.
Proof.
  revert first. induction l as [|v l IH]; intros first; [reflexivity|].
  cbn [iterencode_list_items].
  rewrite fold_right_append_app, join_value_chunks, IH, append_assoc.
  now destruct l.
Qed.

Lemma json_text_list v l :
  json_text rt (PList (v :: l))
  = "[" ++ json_text rt v ++ list_tail_text rt l.
Proof.
  unfold json_text at 1. cbn [iterencode]. apply join_list_items.
Qed.

Lemma join_dict_items (d : list (string * pyobj)) (first : bool) :
  fold_right String.append EmptyString (iterencode_dict_items rt (iterencode rt) first d)
  = match d with
    | [] => "}"
    | (k, v) :: d' =>
        (if first then EmptyString else ", ")
        ++ encode_basestring_ascii k ++ ": " ++ json_text rt v
        ++ dict_tail_text rt d'
    end.
Proof.
  revert first. induction d as [|[k v] d IH]; intros first; [reflexivity|].
  cbn [iterencode_dict_items].
  rewrite fold_right_append_app. cbn [fold_right].
  rewrite fold_right_append_app, IH.
  assert (Hv : fold_right String.append EmptyString (match atom_text rt v with
                     | Some t => [t]
                     | None => iterencode rt v
                     end) = json_text rt v).
  { unfold json_text. destruct (atom_text rt v) as [t|] eqn:E; [|reflexivity].
    now rewrite (atom_text_iterencode _ E). }
  rewrite Hv.
  destruct first; cbn [fold_right String.append];
    rewrite ?append_nil_r; destruct d as [|[k' v'] d]; reflexivity.
Qed.

Lemma json_text_dict k v d :
  json_text rt (PDict ((k, v) :: d))
  = "{" ++ encode_basestring_ascii k ++ ": " ++ json_text rt v
    ++ dict_tail_text rt d.
Proof.
  unfold json_text at 1. cbn [iterencode fold_right].
  now rewrite join_dict_items.
Qed.
End TextFacts.

(** ** [json.loads] of what [json.dump] wrote *)

Lemma number_head_not_bracket (c : ascii) :
  is_digit c || Ascii.eqb c "-" = true -> Ascii.eqb c "]" = false.
Proof.
  destruct c as [[] [] [] [] [] [] [] []]; vm_compute;
    intros H; try discriminate H; reflexivity.
Qed.

Section DictOfPairs.
Variable V : Type.

Lemma dict_set_fresh (k : string) (v : V) (d : pydict V) :
  existsb (String.eqb k) (dict_keys d) = false ->
  dict_set k v d = (d ++ [(k, v)])%list.
Proof.
  unfold dict_keys. induction d as [|[k' v'] d IH]; cbn; [reflexivity|].
  intros [-> H]%orb_false_elim. now rewrite IH.
Qed.

Lemma dict_of_pairs_from (d acc : pydict V) :
  distinct (dict_keys (acc ++ d)%list) = true ->
  fold_left (fun d kv => dict_set (fst kv) (snd kv) d) d acc
  = (acc ++ d)%list.
Proof.
  revert acc. induction d as [|[k v] d IH]; intros acc Hd; cbn [fold_left].
  - now rewrite app_nil_r.
  - cbn [fst snd]. rewrite dict_set_fresh.
    + rewrite IH; rewrite <- app_assoc; [reflexivity | exact Hd].
    + unfold dict_keys in *. rewrite map_app in Hd.
      exact (distinct_middle _ _ _ Hd).
Qed.

Lemma dict_of_pairs_distinct (d : pydict V) :
  distinct (dict_keys d) = true -> dict_of_pairs d = d.
Proof. intros Hd. unfold dict_of_pairs. now rewrite dict_of_pairs_from. Qed.
End DictOfPairs.

Section RoundTrip.
Context (rt : runtime).

Lemma json_text_atom v t : atom_text rt v = Some t -> json_text rt v = t.
Proof.
  intros E. unfold json_text. rewrite (atom_text_iterencode _ _ E).
  apply append_nil_r.
Qed.

(** The text of a value starts with a character that is neither
    whitespace nor a closing bracket. *)
Lemma json_text_head v :
  json_exact rt v = true ->
  exists c t, json_text rt v = String c t
              /\ is_json_ws c = false /\ Ascii.eqb c "]" = false.
Proof.
  assert (Hnum : forall tok i r, match_integer tok = Some (i, r) ->
            exists c t, tok = String c t
                        /\ is_json_ws c = false /\ Ascii.eqb c "]" = false).
  { intros tok i r Hm.
    destruct (match_integer_head _ Hm) as (c & t & -> & Hc).
    exists c, t. repeat split.
    - apply (number_head_plain _ Hc).
    - apply (number_head_not_bracket _ Hc). }
  destruct v as [|[]|z|f|s|[|v l]|[|[k v] d]]; intros Hx;
    try (eexists _, _; repeat split; reflexivity).
  - rewrite (@json_text_atom (PInt z) _ eq_refl).
    apply (Hnum _ _ _ (match_integer_int_repr z)).
  - rewrite (@json_text_atom (PFloat f) _ eq_refl).
    destruct f as [s|[]| |s m e]; cbn [floatstr];
      try (eexists _, _; repeat split; reflexivity);
      cbn in Hx; unfold repr_roundtrips, is_float_token in Hx;
      apply andb_prop in Hx as [Ht _];
      destruct (match_integer (float_repr rt _)) as [[i r]|] eqn:Hm;
      try discriminate; apply (Hnum _ _ _ Hm).
  - rewrite json_text_list. eexists _, _; repeat split; reflexivity.
Qed.

Lemma skip_ws_json_text v rest :
  json_exact rt v = true ->
  skip_ws (json_text rt v ++ rest) = json_text rt v ++ rest.
Proof.
  intros Hx. destruct (json_text_head v Hx) as (c & t & -> & Hc & _).
  cbn. now rewrite Hc.
Qed.

Lemma list_tail_text_head l :
  exists c t, list_tail_text rt l = String c t
              /\ (c = "]" \/ c = ",")%char.
Proof. destruct l; cbn; eauto. Qed.

Lemma dict_tail_text_head d :
  exists c t, dict_tail_text rt d = String c t
              /\ (c = "}" \/ c = ",")%char.
Proof. destruct d as [|[k v] d]; cbn; eauto. Qed.

Lemma array_items_eq n values s :
  array_items rt (S n) values s
  = match scan_once rt n s with
    | Raise e => Raise e
    | Ok (value, s1) =>
        match skip_ws s1 with
        | String c s2 =>
            if Ascii.eqb c "]" then Ok (PList (values ++ [value]), s2)
            else if Ascii.eqb c ","
                 then array_items rt n (values ++ [value])%list (skip_ws s2)
                 else Raise JSONDecodeError
        | EmptyString => Raise JSONDecodeError
        end
    end.
Proof. reflexivity. Qed.

Lemma object_items_eq n pairs s :
  object_items rt (S n) pairs s
  = match scanstring s with
    | Raise e => Raise e
    | Ok (key, s1) =>
        match skip_ws s1 with
        | String c s2 =>
            if Ascii.eqb c ":" then
              match scan_once rt n (skip_ws s2) with
              | Raise e => Raise e
              | Ok (value, s3) =>
                  match skip_ws s3 with
                  | String c3 s4 =>
                      if Ascii.eqb c3 "}" then
                        Ok (PDict (dict_of_pairs (pairs ++ [(key, value)])), s4)
                      else if Ascii.eqb c3 "," then
                        match skip_ws s4 with
                        | String c5 s5 =>
                            if Ascii.eqb c5 dquote
                            then object_items rt n
                                   (pairs ++ [(key, value)])%list s5
                            else Raise JSONDecodeError
                        | EmptyString => Raise JSONDecodeError
                        end
                      else Raise JSONDecodeError
                  | EmptyString => Raise JSONDecodeError
                  end
              end
            else Raise JSONDecodeError
        | EmptyString => Raise JSONDecodeError
        end
    end.
Proof. reflexivity. Qed.

Lemma array_items_text (l : list pyobj) :
  Forall (reads_back rt) l ->
  forallb (json_exact rt) l = true ->
  forall v acc fuel rest,
    reads_back rt v -> json_exact rt v = true ->
    (String.length (json_text rt v)
     + String.length (list_tail_text rt l) < fuel)%nat ->
    delimited rest = true ->
    array_items rt fuel acc (json_text rt v ++ list_tail_text rt l ++ rest)
    = Ok (PList (acc ++ v :: l), rest).
Proof.
  induction l as [|v' l IH]; intros HF Hxl v acc fuel rest Hv Hxv Hfuel Hd;
    (destruct fuel as [|n]; [lia|]); rewrite array_items_eq.
  - cbn [list_tail_text String.length] in *.
    rewrite Hv; [reflexivity | exact Hxv | lia | reflexivity].
  - inversion HF as [|? ? Hv' HF']; subst.
    cbn [forallb] in Hxl. apply andb_prop in Hxl as [Hxv' Hxl].
    cbn [list_tail_text] in *.
    rewrite !length_append in Hfuel. cbn [String.length plus] in Hfuel.
    rewrite Hv; [| exact Hxv | lia | reflexivity].
    rewrite !append_assoc.
    change (skip_ws (", " ++ ?x)) with (String "," (" " ++ x)).
    cbn iota.
    change (Ascii.eqb "," "]") with false.
    change (Ascii.eqb "," ",") with true. cbn iota.
    change (skip_ws (" " ++ ?x)) with (skip_ws x).
    rewrite skip_ws_json_text by exact Hxv'.
    rewrite (IH HF' Hxl v' _ n rest Hv' Hxv'); [|lia|exact Hd].
    now rewrite <- app_assoc.
Qed.

Lemma object_items_text (d : list (string * pyobj)) :
  Forall (fun kv => reads_back rt (snd kv)) d ->
  forallb (fun kv => json_exact rt (snd kv)) d = true ->
  forall k v pairs fuel rest,
    reads_back rt v -> json_exact rt v = true ->
    (String.length (json_text rt v)
     + String.length (dict_tail_text rt d) < fuel)%nat ->
    delimited rest = true ->
    object_items rt fuel pairs
      (escape_ascii k ++ String dquote
         (": " ++ json_text rt v ++ dict_tail_text rt d ++ rest))
    = Ok (PDict (dict_of_pairs (pairs ++ (k, v) :: d)), rest).
Proof.
  induction d as [|[k' v'] d IH];
    intros HF Hxd k v pairs fuel rest Hv Hxv Hfuel Hd;
    (destruct fuel as [|n]; [lia|]);
    rewrite object_items_eq, scanstring_escape_ascii;
    change (skip_ws (": " ++ ?x)) with (String ":" (" " ++ x));
    cbn iota; change (Ascii.eqb ":" ":") with true; cbn iota;
    change (skip_ws (" " ++ ?x)) with (skip_ws x);
    rewrite skip_ws_json_text by exact Hxv.
  - cbn [dict_tail_text String.length] in *.
    rewrite Hv; [reflexivity | exact Hxv | lia | reflexivity].
  - inversion HF as [|? ? Hv' HF']; subst. cbn [snd] in Hv'.
    cbn [forallb snd] in Hxd. apply andb_prop in Hxd as [Hxv' Hxd].
    cbn [dict_tail_text] in *.
    rewrite !length_append in Hfuel. cbn [String.length plus] in Hfuel.
    rewrite Hv; [| exact Hxv | lia | reflexivity].
    unfold encode_basestring_ascii. rewrite !append_assoc.
    change (skip_ws (", " ++ ?x)) with (String "," (" " ++ x)).
    cbn iota.
    change (Ascii.eqb "," "}") with false.
    change (Ascii.eqb "," ",") with true. cbn iota.
    change (skip_ws (" " ++ String dquote ?a ++ ?b))
      with (String dquote (a ++ b)).
    cbn iota. change (Ascii.eqb dquote dquote) with true. cbn iota.
    rewrite !append_assoc. change (str1 dquote ++ ?x) with (String dquote x).
    rewrite (IH HF' Hxd k' v' _ n rest Hv' Hxv'); [|lia|exact Hd].
    now rewrite <- app_assoc.
Qed.

Lemma scan_once_text (v : pyobj) : reads_back rt v.
Proof.
  induction v as [|b|z|f|s|l IH|d IH] using pyobj_nested_ind;
    intros Hx fuel rest Hfuel Hd; (destruct fuel as [|n]; [lia|]).
  - reflexivity.
  - destruct b; reflexivity.
  - rewrite (@json_text_atom (PInt z) _ eq_refl).
    now apply scan_once_int.
  - rewrite (@json_text_atom (PFloat f) _ eq_refl).
    now apply scan_once_float.
  - rewrite (@json_text_atom (PStr s) _ eq_refl).
    unfold encode_basestring_ascii. cbn [String.append scan_once].
    change (Ascii.eqb dquote dquote) with true. cbn iota.
    rewrite append_assoc. change (str1 dquote ++ ?x) with (String dquote x).
    now rewrite scanstring_escape_ascii.
  - destruct l as [|v l]; [reflexivity|].
    inversion IH as [|? ? Hv HF]; subst.
    cbn [json_exact forallb] in Hx. apply andb_prop in Hx as [Hxv Hxl].
    rewrite json_text_list in *.
    rewrite !length_append in Hfuel. cbn [String.length plus] in Hfuel.
    rewrite !append_assoc.
    change (scan_once rt (S n) ("[" ++ ?x))
      with (match skip_ws x with
            | String c2 s2 =>
                if Ascii.eqb c2 "]" then Ok (PList [], s2)
                else array_items rt n [] (String c2 s2)
            | EmptyString => array_items rt n [] EmptyString
            end).
    rewrite skip_ws_json_text by exact Hxv.
    destruct (json_text_head v Hxv) as (c & t & Ht & _ & Hc).
    rewrite Ht at 1. cbn [String.append]. rewrite Hc.
    change (String c (t ++ ?x)) with (String c t ++ x). rewrite <- Ht.
    apply (@array_items_text l HF Hxl v [] n rest Hv Hxv); [lia|exact Hd].
  - destruct d as [|[k v] d]; [reflexivity|].
    inversion IH as [|? ? Hv HF]; subst. cbn [snd] in Hv.
    cbn [json_exact forallb map fst snd] in Hx.
    apply andb_prop in Hx as [Hdist Hx].
    pose proof Hx as Hx'. apply andb_prop in Hx' as [Hxv Hxd].
    rewrite json_text_dict in *.
    rewrite !length_append in Hfuel. cbn [String.length plus] in Hfuel.
    unfold encode_basestring_ascii. rewrite !append_assoc.
    change (scan_once rt (S n) ("{" ++ String dquote ?a ++ ?b))
      with (object_items rt n [] (a ++ b)).
    rewrite append_assoc. change (str1 dquote ++ ?x) with (String dquote x).
    rewrite (@object_items_text d HF Hxd k v [] n rest Hv Hxv); [|lia|exact Hd].
    cbn [app]. now rewrite dict_of_pairs_distinct.
Qed.
End RoundTrip.

(** ** [load_user_data] of what [save_user_data] wrote *)

Lemma rstrip_last (t : string) (c : ascii) :
  is_py_space c = false -> rstrip (t ++ str1 c) = t ++ str1 c.
Proof.
  intros Hc. induction t as [|x t IH]; cbn [String.append rstrip str1].
  - now rewrite Hc.
  - cbn [str1] in IH. rewrite IH. now destruct t.
Qed.

Section LoadSave.
Context (rt : runtime).

Lemma json_loads_json_text v :
  json_exact rt v = true -> json_loads rt (json_text rt v) = Ok v.
Proof.
  intros Hx. unfold json_loads.
  pose proof (skip_ws_json_text rt v EmptyString Hx) as Hs.
  rewrite append_nil_r in Hs. rewrite Hs.
  assert (Hfuel : (String.length (json_text rt v)
                   < S (2 * String.length (json_text rt v)))%nat) by lia.
  pose proof (@scan_once_text rt v Hx
                (S (2 * String.length (json_text rt v)))
                EmptyString Hfuel eq_refl) as H.
  rewrite append_nil_r in H. now rewrite H.
Qed.

Lemma dict_tail_text_last d :
  exists t, dict_tail_text rt d = t ++ "}".
Proof.
  induction d as [|[k v] d [t IH]]; cbn [dict_tail_text].
  - now exists EmptyString.
  - rewrite IH.
    exists (", " ++ encode_basestring_ascii k ++ ": " ++ json_text rt v ++ t).
    now rewrite !append_assoc.
Qed.

Lemma py_strip_dict_text d :
  py_strip (json_text rt (PDict d)) = json_text rt (PDict d).
Proof.
  assert (H : exists t, json_text rt (PDict d) = String "{" (t ++ "}")).
  { destruct d as [|[k v] d]; [now exists EmptyString|].
    rewrite json_text_dict. destruct (dict_tail_text_last d) as [t ->].
    exists (encode_basestring_ascii k ++ ": " ++ json_text rt v ++ t).
    change (String "{" (?x ++ "}")) with ("{" ++ x ++ "}").
    now rewrite !append_assoc. }
  destruct H as [t ->]. unfold py_strip. cbn [lstrip].
  change (is_py_space "{") with false. cbn iota.
  change (String "{" (t ++ "}")) with (String "{" t ++ str1 "}").
  now apply rstrip_last.
Qed.

Lemma load_saved_dict d f :
  json_exact rt (PDict d) = true ->
  load_user_data rt (fs_run (save_ops rt (PDict d)) f) = Ok (PDict d).
Proof.
  intros Hx. rewrite fs_run_save_ops. unfold load_user_data, read_file.
  rewrite py_strip_dict_text.
  assert (Hne : is_empty (json_text rt (PDict d)) = false).
  { destruct (json_text_head rt (PDict d) Hx) as (c & t & -> & _).
    reflexivity. }
  rewrite Hne. cbn [negb]. now rewrite json_loads_json_text.
Qed.

Lemma json_exact_reg_obj (m : registry) :
  json_exact rt (reg_obj m) = registry_exact rt m.
Proof.
  unfold reg_obj, registry_exact, dict_keys. cbn [json_exact].
  rewrite map_map. cbn [fst]. f_equal.
  induction m as [|[k sub] m IH]; [reflexivity|].
  cbn [map forallb snd sub_obj json_exact fst]. rewrite IH.
  now rewrite andb_true_r.
Qed.

(** C6: a registry whose keys are distinct and whose finite thresholds
    are printed by [repr] as numbers that [float()] reads back (which
    CPython guarantees of every finite float) is reproduced exactly by
    [load_user_data] from the file that [save_user_data] wrote, and
    saving what was loaded from such a file a second time changes
    nothing. *)
Theorem load_save_roundtrip (m : registry) :
  registry_exact rt m = true ->
  (forall f, load_user_data rt (fs_run (save_ops rt (reg_obj m)) f)
             = Ok (reg_obj m))
  /\ (forall f, load_user_data rt f = Ok (reg_obj m) ->
                resave rt (resave rt f) = resave rt f).
Proof.
  intros Hx. rewrite <- json_exact_reg_obj in Hx.
  assert (H : forall f, load_user_data rt (fs_run (save_ops rt (reg_obj m)) f)
                        = Ok (reg_obj m))
    by (intros f; now apply load_saved_dict).
  split; [exact H|].
  intros f Hl. unfold resave at 2 3. rewrite Hl.
  unfold resave. rewrite H. now rewrite !fs_run_save_ops.
Qed.
End LoadSave.

Lemma load_save_roundtrip_witness :
  (forall f,
      load_user_data example_rt
        (fs_run (save_ops example_rt
                   (reg_obj (user_data (run example_rt two_monitors fresh_world))))
           f)
      = Ok (reg_obj (user_data (run example_rt two_monitors fresh_world))))
  /\ (forall f,
        load_user_data example_rt f
        = Ok (reg_obj (user_data (run example_rt two_monitors fresh_world))) ->
        resave example_rt (resave example_rt f) = resave example_rt f).
Proof.
  apply (@load_save_roundtrip example_rt
           (user_data (run example_rt two_monitors fresh_world))).
  vm_compute. reflexivity.
Defined.

(** The file of the two subscriptions, read and written again. *)
Example resave_two_monitors :
  let f := user_data_file (run example_rt two_monitors fresh_world) in
  load_user_data example_rt f
  = Ok (reg_obj (user_data (run example_rt two_monitors fresh_world)))
  /\ resave example_rt f = f.
Proof. vm_compute. split; reflexivity. Qed.

(** ** The theorems at concrete inputs *)

Lemma check_and_notify_decision_witness :
  let sub := {| threshold := decimal_float 15 10; address := pool_address |} in
  let reading :=
    health_factor_of
      (getUserAccountData example_rt (List.length (rpc_log one_subscriber))
         (address sub)) in
  let w' := snd (check_and_notify example_rt "1" one_subscriber) in
  let sent msg :=
    (api_log one_subscriber ++
       [{| chat := 1; text := msg;
           delivered :=
             delivers example_rt (List.length (api_log one_subscriber)) |}])%list in
  (forall hf, reading = Some hf -> float_lt hf (threshold sub) = true ->
     api_log w'
     = sent ("Alert: Health factor for " ++ address sub ++ " is "
             ++ float_repr example_rt hf
             ++ ", which is below your threshold of "
             ++ float_repr example_rt (threshold sub) ++ "!" ++ nl
             ++ "Check your position on AAVE: https://app.aave.com/"))
  /\ (forall hf, reading = Some hf -> float_ge hf (threshold sub) = true ->
        api_log w' = api_log one_subscriber)
  /\ (reading = None ->
      api_log w'
      = sent ("Unable to fetch health factor for " ++ address sub
              ++ ". Will try again in the next check.")).
Proof.
  intros sub.
  apply (@check_and_notify_decision example_rt "1" sub 1 one_subscriber);
    vm_compute; reflexivity.
Defined.


Lemma stop_absent_witness :
  let w' := snd (stop example_rt 2 one_subscriber) in
  user_data w' = user_data one_subscriber
  /\ user_data_file w' = user_data_file one_subscriber
  /\ api_log w'
     = (api_log one_subscriber
        ++ [{| chat := 2; text := "You were not monitoring any address.";
               delivered :=
                 delivers example_rt (List.length (api_log one_subscriber)) |}])%list.
Proof.
  apply (@stop_absent example_rt 2 one_subscriber). vm_compute. reflexivity.
Defined.

Lemma monitor_evaluates_at_once_witness :
  let chat_id := int_repr 1 in
  let w' := snd (monitor example_rt 1 ["1.5"; pool_address] fresh_world) in
  let reading :=
    health_factor_of
      (getUserAccountData example_rt (List.length (rpc_log fresh_world))
         pool_address) in
  let confirmation :=
    {| chat := 1;
       text := if dict_mem chat_id (user_data fresh_world)
               then updated_text example_rt pool_address (decimal_float 15 10)
               else started_text example_rt pool_address (decimal_float 15 10);
       delivered := true |} in
  let notice msg :=
    {| chat := 1; text := msg;
       delivered := delivers example_rt (S (List.length (api_log fresh_world))) |} in
  rpc_log w' = (rpc_log fresh_world ++ [pool_address])%list
  /\ api_log w'
     = (api_log fresh_world
        ++ confirmation
           :: match reading with
              | Some hf =>
                  if float_lt hf (decimal_float 15 10)
                  then [notice (alert_text example_rt pool_address hf
                                  (decimal_float 15 10))]
                  else []
              | None => [notice (unavailable_text pool_address)]
              end)%list.
Proof.
  apply (@monitor_evaluates_at_once example_rt 1 "1.5" pool_address
           (decimal_float 15 10) fresh_world);
    vm_compute; reflexivity.
Defined.

Lemma stored_subscriptions_were_accepted_witness :
  (forall k sub,
      In (k, sub) (user_data (run example_rt two_monitors fresh_world)) ->
      accepted example_rt sub)
  /\ (forall chat arg0 arg1 w,
        py_float example_rt arg0 = None ->
        user_data (snd (monitor example_rt chat [arg0; arg1] w)) = user_data w
        /\ user_data_file (snd (monitor example_rt chat [arg0; arg1] w))
           = user_data_file w).
Proof.
  apply (@stored_subscriptions_were_accepted example_rt two_monitors fresh_world).
  intros k sub [].
Defined.

Lemma monitor_stores_nonpositive_threshold :
  let w := snd (monitor example_rt 1 ["-1"; pool_address] fresh_world) in
  exists sub,
    dict_get "1" (user_data w) = Some sub
    /\ threshold sub = decimal_float (-1) 1
    /\ finite_positive (threshold sub) = false.
Proof.
  eexists. vm_compute. repeat split.
Qed.

Lemma mutation_rewrites_snapshot_in_place_witness :
  let ev := EMonitor 1 ["1.5"; pool_address] in
  let w' := snd (handle example_rt ev fresh_world) in
  let data := reg_obj (user_data w') in
  user_data_file w' = Some (json_text example_rt data)
  /\ user_data_file w'
     = fs_run (save_ops example_rt data) (user_data_file fresh_world)
  /\ save_interrupted example_rt 1 data (user_data_file fresh_world)
     = Some EmptyString
  /\ (forall n, (1 <= n)%nat ->
        exists p,
          save_interrupted example_rt n data (user_data_file fresh_world) = Some p
          /\ is_prefix p (json_text example_rt data)).
Proof.
  intros ev.
  apply (@mutation_rewrites_snapshot_in_place example_rt ev fresh_world).
  vm_compute. reflexivity.
Defined.

(** Chat 1 raises its threshold to 2.0 while two subscriptions are on
    file, and the process dies during [save_user_data]: after the
    [open] the file is empty, after three more chunks it is cut short;
    either way the next start finds no subscription. *)
Lemma interrupted_save_loses_previous_state :
  let w := run example_rt two_monitors fresh_world in
  let data := reg_obj (upserted "1" (decimal_float 2 1) pool_address (user_data w)) in
  load_user_data example_rt (user_data_file w) = Ok (reg_obj (user_data w))
  /\ save_interrupted example_rt 1 data (user_data_file w) = Some EmptyString
  /\ save_interrupted example_rt 1 data (user_data_file w) <> user_data_file w
  /\ load_user_data example_rt (save_interrupted example_rt 1 data (user_data_file w))
     = Ok (PDict [])
  /\ save_interrupted example_rt 4 data (user_data_file w)
     = Some (String "{" (String dquote (String "1" (String dquote ": "))))
  /\ load_user_data example_rt (save_interrupted example_rt 4 data (user_data_file w))
     = Ok (PDict []).
Proof. vm_compute. repeat split. discriminate. Qed.


(** Every contract call fails, every notice is delivered: both
    subscriptions are evaluated. *)
Lemma sweep_survives_source_failures_witness :
  fst (periodic_check offline_rt (run example_rt two_monitors fresh_world))
  = Ok tt
  /\ rpc_log (snd (periodic_check offline_rt
                     (run example_rt two_monitors fresh_world)))
     = (rpc_log (run example_rt two_monitors fresh_world)
        ++ sweep_addresses (user_data (run example_rt two_monitors fresh_world)))%list.
Proof.
  apply (@sweep_survives_source_failures offline_rt
           (run example_rt two_monitors fresh_world)).
  - vm_compute. reflexivity.
  - intros k Hk. vm_compute in Hk.
    destruct Hk as [<-|[<-|[]]]; vm_compute; discriminate.
  - intros n _. reflexivity.
Defined.

(** The source stays unavailable over two sweeps: the notice is sent at
    each of them. *)
Example unavailable_notice_at_every_sweep :
  map text (api_log (run offline_rt [ETick; ETick] one_subscriber))
  = [unavailable_text pool_address; unavailable_text pool_address].
Proof. vm_compute. reflexivity. Qed.

(** The fifth call of the Telegram API fails: the sweep stops at chat 1
    and never asks for the address of chat 2. *)
Lemma sweep_aborted_by_notifier_failure :
  let w := run blocked_rt two_monitors fresh_world in
  let w' := snd (periodic_check blocked_rt w) in
  dict_keys (user_data w) = ["1"; "2"]
  /\ fst (periodic_check blocked_rt w) = Raise TelegramError
  /\ rpc_log w' = (rpc_log w ++ [pool_address])%list
  /\ rpc_log w' <> (rpc_log w ++ sweep_addresses (user_data w))%list.
Proof. vm_compute. repeat split. discriminate. Qed.

(** * Further properties of the handlers *)

(** ** More on dicts *)

Section DictMore.
Variable V : Type.
Implicit Types (d : pydict V) (k : string) (v : V).

Lemma dict_get_del_other k k' d :
  k' <> k -> dict_get k' (dict_del k d) = dict_get k' d.
Proof.
  intros Hne. induction d as [|[k0 v0] d IH]; simpl; [reflexivity|].
  destruct (String.eqb k k0) eqn:E.
  - apply String.eqb_eq in E. subst k0.
    destruct (String.eqb k' k) eqn:E'; [|reflexivity].
    apply String.eqb_eq in E'. contradiction.
  - simpl. destruct (String.eqb k' k0); [reflexivity | exact IH].
Qed.

Lemma dict_del_set_new k v d :
  dict_mem k d = false -> dict_del k (dict_set k v d) = d.
Proof.
  unfold dict_mem. induction d as [|[k0 v0] d IH]; simpl.
  - now rewrite String.eqb_refl.
  - destruct (String.eqb k k0) eqn:E; [discriminate|].
    simpl. rewrite E. intros H. now rewrite IH.
Qed.

Lemma length_dict_del k d :
  dict_mem k d = true -> S (List.length (dict_del k d)) = List.length d.
Proof.
  unfold dict_mem. induction d as [|[k0 v0] d IH]; simpl; [discriminate|].
  destruct (String.eqb k k0); [reflexivity|].
  intros H. simpl. now rewrite IH.
Qed.

Lemma dict_mem_get k v d : dict_get k d = Some v -> dict_mem k d = true.
Proof. unfold dict_mem. now intros ->. Qed.
End DictMore.

(** [str()] of two different chat ids gives two different keys. *)
Lemma int_repr_inj (a b : Z) : int_repr a = int_repr b -> a = b.
Proof.
  intros H. pose proof (int_of_token_int_repr a) as Ha.
  rewrite H, int_of_token_int_repr in Ha. congruence.
Qed.

Lemma upserted_get_other k k' thr addr (ud : registry) :
  k' <> k -> dict_get k' (upserted k thr addr ud) = dict_get k' ud.
Proof.
  intros Hne. unfold upserted, dict_update, dict_mem.
  destruct (dict_get k ud) as [old|] eqn:E.
  - rewrite dict_get_set_same. now rewrite !dict_get_set_other.
  - now rewrite dict_get_set_other.
Qed.

Lemma upserted_new k thr addr (ud : registry) :
  dict_mem k ud = false ->
  upserted k thr addr ud
  = dict_set k {| threshold := thr; address := addr |} ud.
Proof. unfold upserted. now intros ->. Qed.

Section HandlerFrames.
Context (rt : runtime).

(** An event that does not mutate leaves the registry and the file as
    they are. *)
Lemma handle_frame ev w :
  mutates rt ev w = false ->
  user_data (snd (handle rt ev w)) = user_data w
  /\ user_data_file (snd (handle rt ev w)) = user_data_file w.
Proof.
  destruct ev as [chat | chat args | chat | chat | chat txt |];
    cbn [handle mutates]; intros Hm.
  - now split.
  - destruct args as [|arg0 [|arg1 [|arg2 args]]]; try (now split).
    unfold monitor.
    destruct (py_float rt arg0) as [thr|]; [|now split].
    rewrite Hm. now split.
  - apply check_frame.
  - rewrite stop_eq, Hm. now split.
  - unfold handle_address.
    destruct (is_address rt (py_strip txt)); cbn [negb]; [|now split].
    unfold bind, check_health_factor.
    destruct (health_factor_of _); now split.
  - apply periodic_check_frame.
Qed.

(** X1: every event that is not an accepted [/monitor] or the [/stop]
    of a subscribed chat ([/start], [/check], a plain message, a tick,
    a [/monitor] with a wrong number of arguments, a threshold that is
    not a number or an invalid address, a [/stop] of a chat without a
    subscription) leaves both [user_data] and the file exactly as they
    were, also when its handler ends in an exception. *)
Theorem non_mutating_event_read_only ev w :
  mutates rt ev w = false ->
  user_data (snd (handle rt ev w)) = user_data w
  /\ user_data_file (snd (handle rt ev w)) = user_data_file w.
Proof. apply handle_frame. Qed.

(** X2: isolation of the chats.  Whatever a chat sends ([/monitor]
    accepted or not, [/stop], [/check], [/start], a plain message),
    and whatever a tick does, the entry of every other chat in
    [user_data] stays what it was (present with the same threshold
    and address, or absent). *)
Theorem other_chats_untouched ev chat' w :
  event_chat ev <> Some chat' ->
  dict_get (int_repr chat') (user_data (snd (handle rt ev w)))
  = dict_get (int_repr chat') (user_data w).
Proof.
  intros Hne.
  destruct (mutates rt ev w) eqn:Hm;
    [|now destruct (handle_frame ev w Hm) as [-> _]].
  destruct ev as [chat | chat args | chat | chat | chat txt |];
    cbn [mutates] in Hm; try discriminate; cbn [handle].
  - assert (Hk : int_repr chat' <> int_repr chat).
    { intros H%int_repr_inj. apply Hne. cbn. now subst. }
    rewrite monitor_user_data.
    destruct args as [|arg0 [|arg1 [|arg2 args]]]; try reflexivity.
    destruct (py_float rt arg0); [|reflexivity].
    destruct (is_address rt arg1); [|reflexivity].
    now apply upserted_get_other.
  - assert (Hk : int_repr chat' <> int_repr chat).
    { intros H%int_repr_inj. apply Hne. cbn. now subst. }
    rewrite stop_eq, Hm. cbn. now apply dict_get_del_other.
Qed.

(** X3: [/stop] of a subscribed chat removes exactly its entry: the
    chat is no longer in [user_data], every other key keeps its value,
    the mapping has one entry less, the file holds the text of the new
    mapping, the metric source is not asked, and the only call of the
    Telegram API is the reply "Monitoring stopped." in that chat. *)
Theorem stop_removes_own_entry chat w :
  distinct (dict_keys (user_data w)) = true ->
  dict_mem (int_repr chat) (user_data w) = true ->
  let w' := snd (stop rt chat w) in
  dict_get (int_repr chat) (user_data w') = None
  /\ (forall k, k <> int_repr chat ->
        dict_get k (user_data w') = dict_get k (user_data w))
  /\ S (List.length (user_data w')) = List.length (user_data w)
  /\ in_sync rt w'
  /\ rpc_log w' = rpc_log w
  /\ api_log w'
     = (api_log w
        ++ [{| chat := chat; text := "Monitoring stopped.";
               delivered := delivers rt (List.length (api_log w)) |}])%list.
Proof.
  intros Hd Hm. cbn zeta. rewrite stop_eq, Hm. cbn zeta.
  unfold in_sync, api_send. cbn [snd user_data user_data_file api_log rpc_log].
  repeat split.
  - now apply dict_get_del_same.
  - intros k Hk. now apply dict_get_del_other.
  - now apply length_dict_del.
Qed.

(** X4: [/monitor] followed by [/stop] undoes the subscription: for a
    chat that had no entry, the registry after the two commands is the
    one before them, entry for entry and in the same order, and the
    file holds its text. *)
Theorem monitor_then_stop_restores chat arg0 arg1 thr w :
  py_float rt arg0 = Some thr ->
  is_address rt arg1 = true ->
  dict_mem (int_repr chat) (user_data w) = false ->
  let w1 := snd (monitor rt chat [arg0; arg1] w) in
  let w2 := snd (stop rt chat w1) in
  user_data w2 = user_data w
  /\ user_data_file w2 = Some (json_text rt (reg_obj (user_data w))).
Proof.
  intros Hf Ha Hm. cbn zeta.
  destruct (@monitor_accepted_state rt chat arg0 arg1 thr w Hf Ha)
    as [Hud _].
  cbn zeta in Hud.
  set (w1 := snd (monitor rt chat [arg0; arg1] w)) in *.
  assert (Hm1 : dict_mem (int_repr chat) (user_data w1) = true).
  { rewrite Hud. exact (dict_mem_get _ _ (upserted_get _ _ _ _)). }
  rewrite stop_eq, Hm1. cbn zeta. unfold api_send.
  cbn [snd user_data user_data_file].
  rewrite Hud, upserted_new by exact Hm.
  rewrite dict_del_set_new by exact Hm.
  now split.
Qed.

(** X6: when the confirmation of an accepted [/monitor] cannot be
    delivered, the handler ends with the exception of the Telegram
    API, but the subscription is already stored and saved: the entry
    of the chat is the new one, the file holds the text of the new
    mapping, and the evaluation that would follow the confirmation
    does not take place (the metric source is not asked, no second
    message is attempted). *)
Theorem failed_confirmation_keeps_subscription chat arg0 arg1 thr w :
  py_float rt arg0 = Some thr ->
  is_address rt arg1 = true ->
  delivers rt (List.length (api_log w)) = false ->
  let r := monitor rt chat [arg0; arg1] w in
  fst r = Raise TelegramError
  /\ dict_get (int_repr chat) (user_data (snd r))
     = Some {| threshold := thr; address := arg1 |}
  /\ in_sync rt (snd r)
  /\ rpc_log (snd r) = rpc_log w
  /\ List.length (api_log (snd r)) = S (List.length (api_log w)).
Proof.
  intros Hf Ha Hd. cbn zeta.
  erewrite monitor_accepted by eassumption. cbn zeta.
  unfold bind, api_send, in_sync.
  cbn [api_log user_data user_data_file rpc_log]. rewrite Hd.
  cbn [fst snd api_log user_data user_data_file rpc_log].
  repeat split.
  - apply upserted_get.
  - rewrite length_app. cbn. lia.
Qed.
End HandlerFrames.

(** ** What the handlers send and ask *)

Section Traffic.
Context (rt : runtime).

Lemma rpc_log_check_and_notify chat_id w :
  rpc_log (snd (check_and_notify rt chat_id w))
  = (rpc_log w
     ++ match dict_get chat_id (user_data w) with
        | Some sub => [address sub]
        | None => []
        end)%list.
Proof.
  rewrite check_and_notify_eq.
  destruct (dict_get chat_id (user_data w)) as [sub|];
    [|cbn; now rewrite app_nil_r].
  cbn zeta.
  destruct (health_factor_of _) as [hf|];
    [destruct (float_lt hf (threshold sub)); [|reflexivity]|];
    match goal with
    | |- context [send_message rt ?c ?m ?w1] =>
        destruct (send_message_frame rt c m w1) as (_ & _ & ->)
    end; reflexivity.
Qed.

(** The messages of one evaluation: at most one, and a notice for a
    subscription of the registry. *)
Lemma check_and_notify_sent chat_id w :
  exists sent,
    api_log (snd (check_and_notify rt chat_id w)) = (api_log w ++ sent)%list
    /\ (List.length sent <= 1)%nat
    /\ Forall (notice_of rt (user_data w)) sent.
Proof.
  rewrite check_and_notify_eq.
  destruct (dict_get chat_id (user_data w)) as [sub|] eqn:Hg;
    [|exists []; cbn; rewrite app_nil_r; auto].
  cbn zeta.
  assert (Hs : forall msg w1,
            api_log w1 = api_log w ->
            (msg = unavailable_text (address sub)
             \/ exists hf,
                  float_lt hf (threshold sub) = true
                  /\ msg = alert_text rt (address sub) hf (threshold sub)) ->
            exists sent,
              api_log (snd (send_message rt chat_id msg w1))
              = (api_log w ++ sent)%list
              /\ (List.length sent <= 1)%nat
              /\ Forall (notice_of rt (user_data w)) sent).
  { intros msg w1 Hlog Hmsg. unfold send_message.
    destruct (py_int rt chat_id) as [n|] eqn:Hn.
    - rewrite api_log_api_send, Hlog. eexists. split; [reflexivity|].
      split; [cbn; lia|]. constructor; [|constructor].
      exists chat_id, sub. split; [now apply dict_get_In|].
      split; [exact Hn | exact Hmsg].
    - exists []. cbn. rewrite app_nil_r, Hlog. auto. }
  destruct (health_factor_of _) as [hf|];
    [destruct (float_lt hf (threshold sub)) eqn:Hlt|].
  - apply Hs; [reflexivity|]. right. now exists hf.
  - exists []. cbn. rewrite app_nil_r. auto.
  - apply Hs; [reflexivity|]. now left.
Qed.

(** X7: the handler of a command or of a plain message asks the
    metric source at most once: [/check] asks for the stored address
    of a subscribed chat, a plain message for its stripped text when
    [is_address] accepts it, an accepted [/monitor] for the new
    address once its confirmation is delivered; [/start], [/stop], a
    rejected [/monitor], a [/check] without subscription and a
    message that is not an address ask for nothing. *)
Theorem handler_asks_source_at_most_once ev w :
  ev <> ETick ->
  rpc_log (snd (handle rt ev w))
  = (rpc_log w
     ++ match asked_address rt ev w with
        | Some addr => [addr]
        | None => []
        end)%list.
Proof.
  intros Hev.
  destruct ev as [chat | chat args | chat | chat | chat txt |];
    cbn [handle asked_address].
  - cbn. now rewrite app_nil_r.
  - destruct args as [|arg0 [|arg1 [|arg2 args]]];
      try (cbn; now rewrite app_nil_r).
    destruct (py_float rt arg0) as [thr|] eqn:Hf;
      [|unfold monitor; rewrite Hf; cbn; now rewrite app_nil_r].
    destruct (is_address rt arg1) eqn:Ha;
      [|unfold monitor; rewrite Hf, Ha; cbn; now rewrite app_nil_r].
    erewrite monitor_accepted by eassumption. cbn zeta.
    unfold bind, api_send.
    cbn [api_log user_data user_data_file rpc_log andb].
    destruct (delivers rt (List.length (api_log w)));
      [|cbn; now rewrite app_nil_r].
    rewrite rpc_log_check_and_notify. cbn [user_data rpc_log].
    now rewrite upserted_get.
  - rewrite check_eq.
    destruct (dict_get (int_repr chat) (user_data w));
      cbn; [reflexivity | now rewrite app_nil_r].
  - rewrite stop_eq.
    destruct (dict_mem (int_repr chat) (user_data w));
      cbn; now rewrite app_nil_r.
  - unfold handle_address.
    destruct (is_address rt (py_strip txt)); cbn [negb];
      [|cbn; now rewrite app_nil_r].
    unfold bind, check_health_factor.
    destruct (health_factor_of _); reflexivity.
  - contradiction.
Qed.

(** X8: every command and every plain message is answered: the first
    call of the Telegram API that its handler makes is a reply in the
    chat it came from, whatever the state and the arguments.  At most
    one more message follows, and only [/monitor] ever sends one (the
    notice of the evaluation that follows its confirmation). *)
Theorem every_command_is_answered ev c w :
  event_chat ev = Some c ->
  exists reply rest,
    api_log (snd (handle rt ev w)) = (api_log w ++ reply :: rest)%list
    /\ chat reply = c
    /\ delivered reply = delivers rt (List.length (api_log w))
    /\ (List.length rest <= 1)%nat
    /\ match ev with EMonitor _ _ => True | _ => rest = [] end.
Proof.
  assert (Hone : forall to msg w1,
            api_log w1 = api_log w -> to = c ->
            exists reply rest,
              api_log (snd (api_send rt to msg w1))
              = (api_log w ++ reply :: rest)%list
              /\ chat reply = c
              /\ delivered reply = delivers rt (List.length (api_log w))
              /\ (List.length rest <= 1)%nat /\ rest = []).
  { intros to msg w1 Hlog ->. rewrite api_log_api_send, Hlog.
    do 2 eexists. split; [reflexivity|]. cbn. repeat split. lia. }
  assert (Hplain : forall to msg w1,
            api_log w1 = api_log w -> to = c ->
            forall ev', match ev' with EMonitor _ _ => False | _ => True end ->
            exists reply rest,
              api_log (snd (api_send rt to msg w1))
              = (api_log w ++ reply :: rest)%list
              /\ chat reply = c
              /\ delivered reply = delivers rt (List.length (api_log w))
              /\ (List.length rest <= 1)%nat
              /\ match ev' with EMonitor _ _ => True | _ => rest = [] end).
  { intros to msg w1 Hlog Hto ev' Hev'.
    destruct (Hone to msg w1 Hlog Hto) as (r & rest & H1 & H2 & H3 & H4 & H5).
    exists r, rest. repeat split; try assumption.
    now destruct ev'. }
  assert (Hmon : forall to msg w1,
            api_log w1 = api_log w -> to = c ->
            exists reply rest,
              api_log (snd (api_send rt to msg w1))
              = (api_log w ++ reply :: rest)%list
              /\ chat reply = c
              /\ delivered reply = delivers rt (List.length (api_log w))
              /\ (List.length rest <= 1)%nat /\ True).
  { intros to msg w1 Hlog Hto.
    destruct (Hone to msg w1 Hlog Hto) as (r & rest & H1 & H2 & H3 & H4 & _).
    exists r, rest. repeat split; assumption. }
  destruct ev as [chat | chat args | chat | chat | chat txt |];
    cbn [event_chat handle]; intros [= Hc].
  - now apply (Hplain chat start_text w eq_refl Hc (EStart chat)).
  - destruct args as [|arg0 [|arg1 [|arg2 args]]];
      try (now apply Hmon).
    destruct (py_float rt arg0) as [thr|] eqn:Hf;
      [|unfold monitor; rewrite Hf; now apply Hmon].
    destruct (is_address rt arg1) eqn:Ha;
      [|unfold monitor; rewrite Hf, Ha; now apply Hmon].
    erewrite monitor_accepted by eassumption. cbn zeta. unfold bind.
    match goal with
    | |- context [api_send rt ?to ?m ?w1] =>
        pose proof (api_log_api_send rt to m w1) as Hlog;
        destruct (api_send rt to m w1) as [[[]|e] w2]
    end; cbn [snd api_log] in Hlog |- *.
    + destruct (check_and_notify_sent (int_repr chat) w2)
        as (sent & Hsent & Hlen & _).
      do 2 eexists. split; [rewrite Hsent, Hlog, <- app_assoc; reflexivity|].
      cbn. repeat split; assumption.
    + do 2 eexists. split; [rewrite Hlog; reflexivity|].
      cbn. repeat split; try assumption. lia.
  - rewrite check_eq.
    destruct (dict_get (int_repr chat) (user_data w));
      now apply (fun m w1 H => Hplain chat m w1 H Hc (ECheck chat)).
  - rewrite stop_eq.
    destruct (dict_mem (int_repr chat) (user_data w));
      now apply (fun m w1 H => Hplain chat m w1 H Hc (EStop chat)).
  - unfold handle_address.
    destruct (is_address rt (py_strip txt)); cbn [negb];
      [|now apply (fun m w1 H => Hplain chat m w1 H Hc (EText chat txt))].
    unfold bind, check_health_factor.
    destruct (health_factor_of _);
      now apply (fun m w1 H => Hplain chat m w1 H Hc (EText chat txt)).
Qed.
End Traffic.

(** ** More on the sweep *)

Section SweepMore.
Context (rt : runtime).

Lemma for_each_sent (l : list string) : forall w,
  exists sent,
    api_log (snd (for_each l (check_and_notify rt) w))
    = (api_log w ++ sent)%list
    /\ (List.length sent <= List.length l)%nat
    /\ Forall (notice_of rt (user_data w)) sent.
Proof.
  induction l as [|k l IH]; intros w; cbn [for_each].
  - exists []. cbn. rewrite app_nil_r. auto.
  - unfold bind.
    destruct (check_and_notify_sent rt k w) as (s1 & H1 & L1 & F1).
    destruct (check_and_notify_frame rt k w) as [Hu _].
    destruct (check_and_notify rt k w) as [[[]|e] w1]; cbn [snd] in *.
    + destruct (IH w1) as (s2 & H2 & L2 & F2).
      exists (s1 ++ s2)%list. rewrite H2, H1, <- app_assoc.
      split; [reflexivity|]. split.
      * rewrite length_app. cbn [List.length]. lia.
      * apply Forall_app. split; [exact F1|]. now rewrite <- Hu.
    + exists s1. split; [exact H1|]. split; [cbn [List.length]; lia|exact F1].
Qed.

Lemma notice_text_eq n (sub : subscription) :
  notice_text rt n sub
  = match health_factor_of (getUserAccountData rt n (address sub)) with
    | Some hf =>
        if float_lt hf (threshold sub)
        then Some (alert_text rt (address sub) hf (threshold sub))
        else None
    | None => Some (unavailable_text (address sub))
    end.
Proof. reflexivity. Qed.

(** The rest of a sweep, entry by entry. *)
Lemma sweep_sends_from (d2 : registry) : forall (d1 : registry) w1,
  user_data w1 = (d1 ++ d2)%list ->
  distinct (dict_keys (d1 ++ d2)%list) = true ->
  exists sent,
    api_log (snd (for_each (dict_keys d2) (check_and_notify rt) w1))
    = (api_log w1 ++ sent)%list
    /\ sweep_sends rt (List.length (rpc_log w1)) (List.length (api_log w1))
         d2 sent.
Proof.
  induction d2 as [|[k sub] d2 IH]; intros d1 w1 Hud Hdist.
  { exists []. cbn. rewrite app_nil_r. split; [reflexivity | constructor]. }
  cbn [dict_keys map fst for_each]. unfold bind.
  change (map fst d2) with (dict_keys d2).
  assert (Hget : dict_get k (user_data w1) = Some sub).
  { rewrite Hud. apply dict_get_middle.
    unfold dict_keys in Hdist. rewrite map_app in Hdist. simpl in Hdist.
    exact (distinct_middle _ _ _ Hdist). }
  rewrite check_and_notify_eq, Hget. cbn zeta.
  pose proof (notice_text_eq (List.length (rpc_log w1)) sub) as Hn.
  set (w2 := {| user_data := user_data w1;
                user_data_file := user_data_file w1;
                api_log := api_log w1;
                rpc_log := (rpc_log w1 ++ [address sub])%list |}).
  assert (Hrest : forall w3,
            user_data w3 = user_data w1 ->
            rpc_log w3 = rpc_log w2 ->
            exists sent,
              api_log (snd (for_each (dict_keys d2) (check_and_notify rt) w3))
              = (api_log w3 ++ sent)%list
              /\ sweep_sends rt (S (List.length (rpc_log w1)))
                   (List.length (api_log w3)) d2 sent).
  { intros w3 Hu Hr.
    destruct (IH (d1 ++ [(k, sub)])%list w3) as (sent & H1 & H2).
    - now rewrite Hu, Hud, <- app_assoc.
    - now rewrite <- app_assoc.
    - exists sent. split; [exact H1|].
      rewrite Hr in H2. subst w2. cbn [rpc_log] in H2.
      rewrite length_app in H2. cbn [List.length] in H2.
      now rewrite Nat.add_1_r in H2. }
  assert (Hsend : forall msg,
            notice_text rt (List.length (rpc_log w1)) sub = Some msg ->
            exists sent,
              api_log
                (snd (let (r, w') := send_message rt k msg w2 in
                      match r with
                      | Ok a => for_each (dict_keys d2) (check_and_notify rt) w'
                      | Raise e => (Raise e, w')
                      end))
              = (api_log w1 ++ sent)%list
              /\ sweep_sends rt (List.length (rpc_log w1))
                   (List.length (api_log w1)) ((k, sub) :: d2) sent).
  { intros msg Hmsg. unfold send_message.
    destruct (py_int rt k) as [c|] eqn:Hc.
    - unfold api_send. cbn [api_log user_data user_data_file rpc_log w2].
      destruct (delivers rt (List.length (api_log w1))) eqn:Hd.
      + match goal with
        | |- context [for_each _ _ ?w] => destruct (Hrest w) as (sent & H1 & H2)
        end; [reflexivity | reflexivity |].
        cbn [api_log] in H1, H2.
        rewrite length_app in H2. cbn [List.length] in H2.
        rewrite Nat.add_1_r in H2.
        eexists. split; [rewrite H1, <- app_assoc; reflexivity|].
        eapply sweep_delivered; eassumption.
      + eexists. split; [reflexivity|].
        eapply sweep_undelivered; eassumption.
    - exists []. cbn. rewrite app_nil_r. split; [reflexivity|].
      eapply sweep_bad_key; eassumption. }
  destruct (health_factor_of _) as [hf|];
    [destruct (float_lt hf (threshold sub))|].
  - now apply Hsend.
  - destruct (Hrest w2) as (sent & H1 & H2); [reflexivity | reflexivity |].
    exists sent. split; [exact H1|]. now apply sweep_quiet.
  - now apply Hsend.
Qed.

(** One call at most for every entry that [int()] reads as the chat. *)
Lemma sweep_sends_count n a (m : registry) sent :
  sweep_sends rt n a m sent ->
  forall c, (sent_to c sent <= subscriptions_of rt c m)%nat.
Proof.
  unfold sent_to, subscriptions_of.
  induction 1 as [n a | n a k sub m sent Hq _ IH
                 | n a k sub m sent c msg Hq Hc Hd _ IH
                 | n a k sub m c msg Hq Hc Hd | n a k sub m msg Hq Hc];
    intros c0; cbn [filter fst chat List.length].
  - lia.
  - specialize (IH c0). destruct (py_int rt k) as [c'|];
      [destruct (Z.eqb c' c0)|]; cbn [List.length]; lia.
  - specialize (IH c0). rewrite Hc.
    destruct (Z.eqb c c0); cbn [List.length]; lia.
  - rewrite Hc. destruct (Z.eqb c c0); cbn [List.length]; lia.
  - lia.
Qed.

(** X9: what a sweep sends, when no handler runs in between.  The
    entries of the registry are taken in order and each gives at most
    one call of the Telegram API ([sweep_sends]): none when the
    reading of its own contract call is a number that is not below its
    threshold, otherwise the alert that carries this reading, or the
    notice that the source is unavailable, addressed to the chat of
    its key; the sweep ends after the last entry or at the first call
    that is not delivered.  So a chat receives at most as many
    messages as it has subscriptions (one), a chat without a
    subscription receives nothing, and there are at most as many
    messages as entries. *)
Theorem sweep_sends_only_notices w :
  distinct (dict_keys (user_data w)) = true ->
  exists sent,
    api_log (snd (periodic_check rt w)) = (api_log w ++ sent)%list
    /\ (List.length sent <= List.length (user_data w))%nat
    /\ Forall (notice_of rt (user_data w)) sent
    /\ sweep_sends rt (List.length (rpc_log w)) (List.length (api_log w))
         (user_data w) sent
    /\ forall c, (sent_to c sent <= subscriptions_of rt c (user_data w))%nat.
Proof.
  intros Hd. unfold periodic_check, bind, get_user_data.
  destruct (for_each_sent (dict_keys (user_data w)) w) as (sent & H1 & H2 & H3).
  destruct (sweep_sends_from (user_data w) [] w eq_refl Hd) as (sent' & H4 & H5).
  assert (sent' = sent) as ->.
  { rewrite H1 in H4. now apply app_inv_head in H4. }
  exists sent. split; [exact H1|]. split.
  { unfold dict_keys in H2. now rewrite length_map in H2. }
  split; [exact H3|]. split; [exact H5|].
  exact (sweep_sends_count H5).
Qed.

(** The part of a sweep that goes over healthy positions. *)
Lemma quiet_between (d2 : registry) : forall (d1 d3 : registry) w1,
  user_data w1 = (d1 ++ d2 ++ d3)%list ->
  distinct (dict_keys (d1 ++ d2 ++ d3)%list) = true ->
  (forall k sub n, In (k, sub) d2 ->
     exists hf, reading rt n (address sub) = Some hf
                /\ float_ge hf (threshold sub) = true) ->
  for_each (dict_keys d2) (check_and_notify rt) w1
  = (Ok tt,
     {| user_data := user_data w1; user_data_file := user_data_file w1;
        api_log := api_log w1;
        rpc_log := (rpc_log w1 ++ sweep_addresses d2)%list |}).
Proof.
  induction d2 as [|[k sub] d2 IH]; intros d1 d3 w1 Hud Hdist Hq.
  - cbn. rewrite app_nil_r. now destruct w1.
  - cbn [dict_keys map fst for_each]. unfold bind.
    assert (Hget : dict_get k (user_data w1) = Some sub).
    { rewrite Hud. apply dict_get_middle.
      unfold dict_keys in Hdist. rewrite map_app in Hdist. simpl in Hdist.
      exact (distinct_middle _ _ _ Hdist). }
    rewrite check_and_notify_eq, Hget. cbn zeta.
    destruct (Hq k sub (List.length (rpc_log w1)) (or_introl eq_refl))
      as (hf & Hr & Hge).
    unfold reading in Hr. rewrite Hr, (float_ge_not_lt _ _ Hge).
    change (map fst d2) with (dict_keys d2).
    rewrite (IH (d1 ++ [(k, sub)])%list d3).
    + cbn [user_data user_data_file api_log rpc_log sweep_addresses map snd].
      now rewrite <- app_assoc.
    + cbn [user_data]. now rewrite Hud, <- app_assoc.
    + now rewrite <- app_assoc.
    + intros k' sub' n Hin. apply (Hq k' sub' n). now right.
Qed.

(** X10: a sweep over healthy positions is silent and cannot fail.
    When every reading is a number greater than or equal to the
    threshold of its subscription, [periodic_check] ends normally
    without any call of the Telegram API, whatever [int()] and the
    Telegram API would have done, after asking for the address of
    every subscription once, in order. *)
Theorem healthy_sweep_is_silent w :
  distinct (dict_keys (user_data w)) = true ->
  (forall k sub n, In (k, sub) (user_data w) ->
     exists hf, reading rt n (address sub) = Some hf
                /\ float_ge hf (threshold sub) = true) ->
  fst (periodic_check rt w) = Ok tt
  /\ api_log (snd (periodic_check rt w)) = api_log w
  /\ rpc_log (snd (periodic_check rt w))
     = (rpc_log w ++ sweep_addresses (user_data w))%list.
Proof.
  intros Hd Hq. unfold periodic_check, bind, get_user_data.
  rewrite (quiet_between (user_data w) [] [] w); cbn [app];
    rewrite ?app_nil_r; auto.
Qed.

Lemma check_and_notify_outcome chat_id w :
  py_int rt chat_id <> None ->
  fst (check_and_notify rt chat_id w) = Ok tt
  \/ (fst (check_and_notify rt chat_id w) = Raise TelegramError
      /\ delivers rt (List.length (api_log w)) = false).
Proof.
  intros Hint. rewrite check_and_notify_eq.
  destruct (dict_get chat_id (user_data w)) as [sub|]; [|now left].
  cbn zeta. unfold send_message.
  destruct (py_int rt chat_id) as [n|]; [|contradiction].
  unfold api_send. cbn [api_log].
  destruct (health_factor_of _) as [hf|];
    [destruct (float_lt hf (threshold sub)); [|now left]|];
    cbn [fst]; destruct (delivers rt (List.length (api_log w)));
    auto.
Qed.

(** X11: the only way an evaluation can fail.  In every state that
    the bot can reach from a registry whose keys are chat ids (the
    empty one in particular), as long as [int()] reads back what
    [str()] wrote, [check_and_notify] of any chat either ends normally
    or ends with the exception of its one call of the Telegram API,
    which was not delivered, and then the chat has a subscription; the
    conversion [int(chat_id)] never fails and the metric source never
    makes the evaluation fail.  ([check_and_notify] reads [user_data]
    and asks the source without giving control away, so this holds of
    each evaluation of a sweep, whatever is handled between two of
    them.) *)
Theorem evaluation_fails_only_in_telegram (evs : list event) (w0 : world)
  (chat_id : string) :
  keys_ok (user_data w0) ->
  (forall z, py_int rt (int_repr z) <> None) ->
  let w := run rt evs w0 in
  fst (check_and_notify rt chat_id w) = Ok tt
  \/ (fst (check_and_notify rt chat_id w) = Raise TelegramError
      /\ dict_mem chat_id (user_data w) = true
      /\ delivers rt (List.length (api_log w)) = false).
Proof.
  intros Hk Hint. cbn zeta.
  destruct (@keys_ok_run rt evs w0 Hk) as [_ Hkeys].
  destruct (dict_get chat_id (user_data (run rt evs w0))) as [sub|] eqn:Hg.
  - assert (Hin : In chat_id (dict_keys (user_data (run rt evs w0)))).
    { apply dict_get_In in Hg. unfold dict_keys.
      change chat_id with (fst (chat_id, sub)). now apply in_map. }
    destruct (Hkeys _ Hin) as [chat ->].
    destruct (check_and_notify_outcome (int_repr chat) (run rt evs w0)
                (Hint chat)) as [H|[H Hd]]; [now left|].
    right. split; [exact H|]. split; [|exact Hd].
    unfold dict_mem. now rewrite Hg.
  - left. now rewrite check_and_notify_eq, Hg.
Qed.
End SweepMore.

(** ** Readings are not negative *)

Lemma binary_round_aux_not_negative (m e : Z) (l : location) :
  float_not_negative (binary_round_aux prec64 emax64 false m e l) = true.
Proof.
  unfold binary_round_aux.
  destruct (shr_fexp prec64 emax64 m e l) as [mrs' e'].
  destruct (shr_fexp prec64 emax64 _ e' loc_Exact) as [mrs'' e''].
  destruct (shr_m mrs''); [reflexivity| |reflexivity].
  now destruct (e'' <=? emax64 - prec64).
Qed.

Lemma binary_normalize_not_negative (z : Z) :
  0 <= z ->
  float_not_negative (binary_normalize prec64 emax64 z 0 false) = true.
Proof.
  intros Hz. destruct z as [|p|p]; [reflexivity| |lia].
  unfold binary_normalize, binary_round.
  destruct (shl_align _ _ _) as [mz ez].
  apply binary_round_aux_not_negative.
Qed.

Lemma SFdiv_not_negative (x y : float64) :
  float_not_negative x = true -> float_not_negative y = true ->
  float_not_negative (SFdiv prec64 emax64 x y) = true.
Proof.
  destruct x as [sx|sx| |sx mx ex], y as [sy|sy| |sy my ey];
    cbn [float_not_negative SFdiv];
    try (destruct sx; [discriminate|]); try (destruct sy; [discriminate|]);
    try reflexivity.
  intros _ _. destruct (SFdiv_core_binary _ _ _ _ _ _) as [[mz ez] lz].
  apply binary_round_aux_not_negative.
Qed.

(** The value of [n / 1e18] for a field [n] of the contract (an
    unsigned integer) is never negative. *)
Lemma int_truediv_not_negative (n : Z) (r : float64) :
  0 <= n -> int_truediv_float n float_1e18 = Some r ->
  float_not_negative r = true.
Proof.
  intros Hn.
  assert (Hd : float_not_negative float_1e18 = true)
    by (vm_compute; reflexivity).
  revert Hd. generalize float_1e18. intros d Hd.
  unfold int_truediv_float, float_of_int.
  pose proof (binary_normalize_not_negative Hn) as Hx.
  revert Hx. generalize (binary_normalize prec64 emax64 n 0 false).
  intros x Hx H.
  assert (Hr : r = SFdiv prec64 emax64 x d) by (destruct x; congruence).
  rewrite Hr. now apply SFdiv_not_negative.
Qed.

Lemma not_negative_not_below (x thr : float64) :
  float_not_negative x = true ->
  float_lt (S754_zero false) thr = false ->
  float_lt x thr = false.
Proof.
  unfold float_lt, SFltb.
  destruct x as [sx|sx| |sx mx ex], thr as [st|st| |st mt et];
    cbn [float_not_negative SFcompare];
    try (destruct sx; [discriminate|]); try (destruct st);
    try discriminate; reflexivity.
Qed.

Section DeadThresholds.
Context (rt : runtime).

(** X12: a subscription whose threshold is not above zero (a negative
    number, a zero or NaN, all of which [/monitor] stores) never
    produces an alert: whatever unsigned value the contract returns
    as health factor, when [check_health_factor] gives a number for
    it, the comparison with the threshold fails and
    [check_and_notify] sends nothing. *)
Theorem nonpositive_threshold_never_alerts
    chat_id sub account_data hf r w :
  dict_get chat_id (user_data w) = Some sub ->
  getUserAccountData rt (List.length (rpc_log w)) (address sub)
  = Some account_data ->
  nth_error account_data 5 = Some hf ->
  0 <= hf ->
  int_truediv_float hf float_1e18 = Some r ->
  float_lt (S754_zero false) (threshold sub) = false ->
  float_lt r (threshold sub) = false
  /\ api_log (snd (check_and_notify rt chat_id w)) = api_log w.
Proof.
  intros Hsub Hcall Hnth Hhf Hr Hthr.
  assert (Hlt : float_lt r (threshold sub) = false).
  { apply not_negative_not_below; [|exact Hthr].
    exact (int_truediv_not_negative Hhf Hr). }
  split; [exact Hlt|].
  rewrite check_and_notify_eq, Hsub. cbn zeta.
  rewrite Hcall. cbn [health_factor_of]. rewrite Hnth, Hr, Hlt.
  reflexivity.
Qed.
End DeadThresholds.

(** ** Where a sweep stops *)

Lemma for_each_app (A : Type) (l1 l2 : list A) (body : A -> M unit) w :
  for_each (l1 ++ l2)%list body w
  = match for_each l1 body w with
    | (Ok _, w1) => for_each l2 body w1
    | (Raise e, w1) => (Raise e, w1)
    end.
Proof.
  revert w. induction l1 as [|x l1 IH]; intros w; cbn [app for_each].
  - reflexivity.
  - unfold bind. destruct (body x w) as [[[]|e] w1]; [apply IH|reflexivity].
Qed.

Section SweepStops.
Context (rt : runtime).

(** X13: a notification that cannot be delivered ends the sweep.
    When the subscriptions before the one of key [k] are healthy, a
    notice is due for [k] (its reading is below its threshold or
    unavailable) and the call of the Telegram API for it fails,
    [periodic_check] ends with the exception of the Telegram API
    right there: the subscriptions after [k] are not evaluated at
    this tick, whatever their state. *)
Theorem sweep_stops_at_first_failed_notification
    (d1 d2 : registry) k sub n w :
  user_data w = (d1 ++ (k, sub) :: d2)%list ->
  distinct (dict_keys (user_data w)) = true ->
  (forall k' sub' n', In (k', sub') d1 ->
     exists hf, reading rt n' (address sub') = Some hf
                /\ float_ge hf (threshold sub') = true) ->
  py_int rt k = Some n ->
  match reading rt (List.length (rpc_log w) + List.length d1)
          (address sub) with
  | Some hf => float_lt hf (threshold sub)
  | None => true
  end = true ->
  delivers rt (List.length (api_log w)) = false ->
  fst (periodic_check rt w) = Raise TelegramError
  /\ rpc_log (snd (periodic_check rt w))
     = (rpc_log w ++ sweep_addresses d1 ++ [address sub])%list
  /\ List.length (api_log (snd (periodic_check rt w)))
     = S (List.length (api_log w)).
Proof.
  intros Hud Hdist Hq Hint Hdue Hfail.
  assert (Hpc : exists msg,
            periodic_check rt w
            = (Raise TelegramError,
               {| user_data := user_data w;
                  user_data_file := user_data_file w;
                  api_log :=
                    (api_log w
                     ++ [{| chat := n; text := msg; delivered := false |}])%list;
                  rpc_log :=
                    ((rpc_log w ++ sweep_addresses d1)
                     ++ [address sub])%list |})).
  { unfold periodic_check, bind, get_user_data.
    replace (dict_keys (user_data w))
      with (dict_keys d1 ++ k :: dict_keys d2)%list
      by (rewrite Hud; unfold dict_keys; now rewrite map_app).
    rewrite for_each_app.
    rewrite (@quiet_between rt d1 [] ((k, sub) :: d2) w);
      [|exact Hud | now rewrite <- Hud | exact Hq].
    cbn [for_each]. unfold bind.
    rewrite check_and_notify_eq.
    cbn [user_data user_data_file api_log rpc_log].
    assert (Hget : dict_get k (user_data w) = Some sub).
    { rewrite Hud. apply dict_get_middle.
      rewrite Hud in Hdist. unfold dict_keys in Hdist.
      rewrite map_app in Hdist. simpl in Hdist.
      exact (distinct_middle _ _ _ Hdist). }
    rewrite Hget. cbn zeta.
    unfold reading in Hdue.
    replace (List.length (rpc_log w ++ sweep_addresses d1)%list)
      with (List.length (rpc_log w) + List.length d1)%nat
      by (unfold sweep_addresses; now rewrite length_app, length_map).
    destruct (health_factor_of _) as [hf|]; [rewrite Hdue|];
      erewrite send_message_eq by eassumption; unfold api_send;
      cbn [api_log user_data user_data_file rpc_log];
      rewrite Hfail; eexists; reflexivity. }
  destruct Hpc as [msg ->]. cbn [fst snd api_log rpc_log].
  rewrite length_app, <- app_assoc. cbn [List.length].
  repeat split. lia.
Qed.
End SweepStops.

(** ** The registry after several commands *)

Section DictSet.
Variable V : Type.
Implicit Types (d : pydict V) (k : string) (v : V).

Lemma dict_set_set k v v' d :
  dict_set k v (dict_set k v' d) = dict_set k v d.
Proof.
  induction d as [|[k0 v0] d IH]; simpl.
  - now rewrite String.eqb_refl.
  - destruct (String.eqb k k0) eqn:E; simpl; rewrite E; [reflexivity|].
    now rewrite IH.
Qed.
End DictSet.

(** The two assignments of the update branch of [monitor] and the
    assignment of its creation branch give the same mapping:
    [user_data[chat_id] = {'threshold': thr, 'address': addr}]. *)
Lemma upserted_is_set k thr addr (ud : registry) :
  upserted k thr addr ud
  = dict_set k {| threshold := thr; address := addr |} ud.
Proof.
  unfold upserted, dict_mem, dict_update.
  destruct (dict_get k ud) as [old|]; [|reflexivity].
  rewrite dict_get_set_same. apply dict_set_set.
Qed.

Section RunFacts.
Context (rt : runtime).

(** X5: the last [/monitor] wins and no history is kept: two accepted
    [/monitor] commands of one chat in a row leave [user_data] and the
    file exactly as the second one alone would have, whatever the
    first one stored.  In particular repeating a command changes
    nothing more. *)
Theorem last_monitor_wins chat a0 a1 b0 b1 thr1 thr2 w :
  py_float rt a0 = Some thr1 -> is_address rt a1 = true ->
  py_float rt b0 = Some thr2 -> is_address rt b1 = true ->
  let w1 := snd (monitor rt chat [a0; a1] w) in
  user_data (snd (monitor rt chat [b0; b1] w1))
  = user_data (snd (monitor rt chat [b0; b1] w))
  /\ user_data_file (snd (monitor rt chat [b0; b1] w1))
     = user_data_file (snd (monitor rt chat [b0; b1] w)).
Proof.
  intros Hf1 Ha1 Hf2 Ha2. cbn zeta.
  destruct (@monitor_accepted_state rt chat a0 a1 thr1 w Hf1 Ha1)
    as [Hud1 _].
  cbn zeta in Hud1.
  set (w1 := snd (monitor rt chat [a0; a1] w)) in *.
  destruct (@monitor_accepted_state rt chat b0 b1 thr2 w1 Hf2 Ha2)
    as [-> ->].
  destruct (@monitor_accepted_state rt chat b0 b1 thr2 w Hf2 Ha2)
    as [-> ->].
  rewrite Hud1, !upserted_is_set, dict_set_set. now split.
Qed.

Lemma handle_in_sync_or_same ev w :
  in_sync rt (snd (handle rt ev w))
  \/ (user_data (snd (handle rt ev w)) = user_data w
      /\ user_data_file (snd (handle rt ev w)) = user_data_file w).
Proof.
  destruct (mutates rt ev w) eqn:Hm.
  - left. unfold in_sync. now apply handle_mutation_saved.
  - right. now apply handle_frame.
Qed.

Lemma run_in_sync_or_same (evs : list event) : forall w0,
  in_sync rt (run rt evs w0)
  \/ (user_data (run rt evs w0) = user_data w0
      /\ user_data_file (run rt evs w0) = user_data_file w0).
Proof.
  unfold run.
  induction evs as [|ev evs IH]; intros w0; cbn [fold_left]; [now right|].
  destruct (IH (snd (handle rt ev w0))) as [H|[H1 H2]]; [now left|].
  destruct (handle_in_sync_or_same ev w0) as [H|[H3 H4]].
  - left. unfold in_sync in *. now rewrite H1, H2.
  - right. rewrite H1, H2. now split.
Qed.

(** X14: the file follows the registry.  After any sequence of
    commands, messages and ticks, handled to their end or to an
    exception, either nothing was ever changed (the registry and the
    file are those of the start) or the file holds exactly the text
    that [json.dump] gives for the current [user_data]: no handler
    changes the mapping without saving it, and none saves anything
    else. *)
Theorem file_follows_registry (evs : list event) (w0 : world) :
  in_sync rt (run rt evs w0)
  \/ (user_data (run rt evs w0) = user_data w0
      /\ user_data_file (run rt evs w0) = user_data_file w0).
Proof. apply run_in_sync_or_same. Qed.

(** X15: a restart recovers the registry.  If the process started
    with the mapping that [load_user_data] read from the file, then
    after any sequence of events [load_user_data] on the file as it
    then is returns the current [user_data]: what a process started
    at that point would begin with.  The thresholds of the final
    registry are assumed to be written exactly by [repr]. *)
Theorem restart_recovers_registry (evs : list event) (w0 : world) :
  load_user_data rt (user_data_file w0) = Ok (reg_obj (user_data w0)) ->
  registry_exact rt (user_data (run rt evs w0)) = true ->
  load_user_data rt (user_data_file (run rt evs w0))
  = Ok (reg_obj (user_data (run rt evs w0))).
Proof.
  intros Hstart Hexact.
  destruct (run_in_sync_or_same evs w0) as [H|[H1 H2]].
  - unfold in_sync in H. rewrite H.
    rewrite <- (fs_run_save_ops rt (reg_obj (user_data (run rt evs w0))) None).
    apply load_saved_dict. fold (reg_obj (user_data (run rt evs w0))).
    now rewrite json_exact_reg_obj.
  - now rewrite H1, H2.
Qed.

Lemma reg_obj_inj (m1 m2 : registry) : reg_obj m1 = reg_obj m2 -> m1 = m2.
Proof.
  unfold reg_obj. intros [= H]. revert m2 H.
  induction m1 as [|[k1 [t1 a1]] m1 IH]; intros [|[k2 [t2 a2]] m2];
    cbn; try discriminate; [reflexivity|].
  intros [= -> -> -> H]. now rewrite (IH _ H).
Qed.

(** X16: [save_user_data] loses nothing: two registries whose
    thresholds [repr] writes exactly and that [json.dump] writes as
    the same text are the same registry, key by key, in the same
    order. *)
Theorem saved_text_determines_registry (m1 m2 : registry) :
  registry_exact rt m1 = true ->
  registry_exact rt m2 = true ->
  json_text rt (reg_obj m1) = json_text rt (reg_obj m2) ->
  m1 = m2.
Proof.
  intros H1 H2 Htext. apply reg_obj_inj.
  rewrite <- json_exact_reg_obj in H1, H2.
  pose proof (json_loads_json_text rt _ H1) as L1.
  pose proof (json_loads_json_text rt _ H2) as L2.
  rewrite Htext in L1. congruence.
Qed.
End RunFacts.

(** ** [str.strip()] *)

Lemma lstrip_app_space (p s : string) :
  all_space p = true -> lstrip (p ++ s) = lstrip s.
Proof.
  induction p as [|c p IH]; cbn [all_space String.append lstrip];
    [reflexivity|].
  intros [Hc Hp]%andb_prop. rewrite Hc. now apply IH.
Qed.

Lemma rstrip_all_space (p : string) :
  all_space p = true -> rstrip p = EmptyString.
Proof.
  induction p as [|c p IH]; cbn [all_space rstrip]; [reflexivity|].
  intros [Hc Hp]%andb_prop. now rewrite (IH Hp), Hc.
Qed.

Lemma lstrip_all_space (p : string) :
  all_space p = true -> lstrip p = EmptyString.
Proof.
  induction p as [|c p IH]; cbn [all_space lstrip]; [reflexivity|].
  intros [Hc Hp]%andb_prop. rewrite Hc. now apply IH.
Qed.

Lemma rstrip_app_space (s p : string) :
  all_space p = true -> rstrip (s ++ p) = rstrip s.
Proof.
  intros Hp. induction s as [|c s IH]; cbn [String.append rstrip].
  - now apply rstrip_all_space.
  - now rewrite IH.
Qed.

Lemma py_strip_app_space (s p : string) :
  all_space p = true -> py_strip (s ++ p) = py_strip s.
Proof.
  intros Hp. unfold py_strip.
  induction s as [|c s IH]; cbn [String.append lstrip].
  - now rewrite (lstrip_all_space _ Hp).
  - destruct (is_py_space c); [exact IH|].
    change (String c (s ++ p)) with (String c s ++ p).
    now apply rstrip_app_space.
Qed.

(** Whitespace around a text does not change what [strip()] returns. *)
Lemma py_strip_padding (p1 s p2 : string) :
  all_space p1 = true -> all_space p2 = true ->
  py_strip (p1 ++ s ++ p2) = py_strip s.
Proof.
  intros H1 H2. rewrite <- (@py_strip_app_space s p2 H2).
  unfold py_strip. now rewrite lstrip_app_space.
Qed.

Section Padding.
Context (rt : runtime).

(** X17: whitespace around a pasted address is ignored: a plain
    message made of an address with any characters that [strip()]
    removes before and after it is handled exactly as the address
    alone (the same validity check, the same question to the metric
    source, the same reply, the same outcome). *)
Theorem handle_address_ignores_padding chat (p1 txt p2 : string) w :
  all_space p1 = true -> all_space p2 = true ->
  handle_address rt chat (p1 ++ txt ++ p2) w = handle_address rt chat txt w.
Proof.
  intros H1 H2. unfold handle_address. now rewrite py_strip_padding.
Qed.

(** X18: [load_user_data] ignores whitespace around the content of
    the file: with any characters that [strip()] removes before and
    after it (a final newline added by an editor, for instance), the
    file is read as without them; a file made only of such characters
    gives the empty mapping. *)
Theorem load_user_data_ignores_padding (p1 raw p2 : string) :
  all_space p1 = true -> all_space p2 = true ->
  load_user_data rt (Some (p1 ++ raw ++ p2)) = load_user_data rt (Some raw)
  /\ load_user_data rt (Some p1) = Ok (reg_obj []).
Proof.
  intros H1 H2. split.
  - unfold load_user_data, read_file. now rewrite py_strip_padding.
  - unfold load_user_data, read_file, py_strip.
    now rewrite (lstrip_all_space _ H1).
Qed.
End Padding.

(** ** What [load_user_data] accepts *)

Section LoadAnyList.
Context (rt : runtime).



End LoadAnyList.

(** ** Sweeps over the same positions *)

Section SweepAgain.
Context (rt : runtime).

(** With a metric source and a Telegram API that answer the same at
    every call, what [check_and_notify] sends depends on the registry
    only. *)
Lemma check_and_notify_stationary chat_id wa wb :
  (forall n m addr,
     getUserAccountData rt n addr = getUserAccountData rt m addr) ->
  (forall n, delivers rt n = true) ->
  user_data wa = user_data wb ->
  exists sent,
    fst (check_and_notify rt chat_id wa) = fst (check_and_notify rt chat_id wb)
    /\ api_log (snd (check_and_notify rt chat_id wa))
       = (api_log wa ++ sent)%list
    /\ api_log (snd (check_and_notify rt chat_id wb))
       = (api_log wb ++ sent)%list.
Proof.
  intros Hsrc Hok Hud. rewrite !check_and_notify_eq, <- Hud.
  destruct (dict_get chat_id (user_data wa)) as [sub|];
    [|exists []; cbn; now rewrite !app_nil_r].
  cbn zeta.
  rewrite (Hsrc (List.length (rpc_log wb)) (List.length (rpc_log wa))).
  assert (Hs : forall msg wa' wb',
            api_log wa' = api_log wa -> api_log wb' = api_log wb ->
            exists sent,
              fst (send_message rt chat_id msg wa')
              = fst (send_message rt chat_id msg wb')
              /\ api_log (snd (send_message rt chat_id msg wa'))
                 = (api_log wa ++ sent)%list
              /\ api_log (snd (send_message rt chat_id msg wb'))
                 = (api_log wb ++ sent)%list).
  { intros msg wa' wb' Ha Hb. unfold send_message.
    destruct (py_int rt chat_id) as [n|].
    - unfold api_send. cbn [fst snd api_log]. rewrite !Hok, Ha, Hb.
      eexists. repeat split.
    - exists []. cbn. now rewrite !app_nil_r, Ha, Hb. }
  destruct (health_factor_of _) as [hf|];
    [destruct (float_lt hf (threshold sub))|]; try (now apply Hs).
  exists []. cbn. now rewrite !app_nil_r.
Qed.

Lemma for_each_stationary (l : list string) : forall wa wb,
  (forall n m addr,
     getUserAccountData rt n addr = getUserAccountData rt m addr) ->
  (forall n, delivers rt n = true) ->
  user_data wa = user_data wb ->
  exists sent,
    api_log (snd (for_each l (check_and_notify rt) wa))
    = (api_log wa ++ sent)%list
    /\ api_log (snd (for_each l (check_and_notify rt) wb))
       = (api_log wb ++ sent)%list.
Proof.
  induction l as [|k l IH]; intros wa wb Hsrc Hok Hud; cbn [for_each].
  - exists []. cbn. now rewrite !app_nil_r.
  - unfold bind.
    destruct (check_and_notify_stationary k wa wb Hsrc Hok Hud)
      as (s1 & Hfst & Ha & Hb).
    destruct (check_and_notify_frame rt k wa) as [Hua _].
    destruct (check_and_notify_frame rt k wb) as [Hub _].
    destruct (check_and_notify rt k wa) as [[[]|ea] wa1];
      destruct (check_and_notify rt k wb) as [[[]|eb] wb1];
      cbn [fst snd] in *; try discriminate.
    + destruct (IH wa1 wb1 Hsrc Hok) as (s2 & Ha2 & Hb2);
        [now rewrite Hua, Hub|].
      exists (s1 ++ s2)%list.
      now rewrite Ha2, Hb2, Ha, Hb, <- !app_assoc.
    + exists s1. now split.
Qed.

(** X20: no alert is remembered.  When the positions do not change
    (the metric source answers the same at every call) and every
    message is delivered, the next sweep sends exactly the messages
    of this one again: an alert or an unavailable notice is repeated
    at every tick for as long as its condition holds. *)
Theorem sweep_repeats_notices w :
  (forall n m addr,
     getUserAccountData rt n addr = getUserAccountData rt m addr) ->
  (forall n, delivers rt n = true) ->
  let w1 := snd (periodic_check rt w) in
  exists sent,
    api_log w1 = (api_log w ++ sent)%list
    /\ api_log (snd (periodic_check rt w1)) = (api_log w1 ++ sent)%list.
Proof.
  intros Hsrc Hok. cbn zeta.
  destruct (periodic_check_frame rt w) as [Hud _].
  unfold periodic_check at 2. unfold bind, get_user_data.
  rewrite Hud.
  unfold periodic_check at 1 2 3. unfold bind, get_user_data.
  apply for_each_stationary; [exact Hsrc | exact Hok |].
  now destruct (for_each_frame rt (dict_keys (user_data w)) w) as [-> _].
Qed.

Lemma In_dict_get (V : Type) (k : string) (v : V) (d : pydict V) :
  In (k, v) d -> dict_get k d <> None.
Proof.
  induction d as [|[k0 v0] d IH]; cbn; [tauto|].
  intros [[= -> ->]|H]; [now rewrite String.eqb_refl|].
  destruct (String.eqb k k0); [discriminate | now apply IH].
Qed.

(** X21: a sweep sends nothing to a chat without a subscription, for
    instance one that sent [/stop]: in a registry whose keys are chat
    ids, with an [int()] that reads back what [str()] wrote, none of
    the messages that [periodic_check] sends is addressed to a chat
    whose key is not in [user_data]. *)
Theorem sweep_spares_unsubscribed_chats c w :
  keys_ok (user_data w) ->
  (forall z, py_int rt (int_repr z) = Some z) ->
  dict_get (int_repr c) (user_data w) = None ->
  exists sent,
    api_log (snd (periodic_check rt w)) = (api_log w ++ sent)%list
    /\ Forall (fun call => chat call <> c) sent.
Proof.
  intros [_ Hkeys] Hint Habsent.
  unfold periodic_check, bind, get_user_data.
  destruct (for_each_sent rt (dict_keys (user_data w)) w)
    as (sent & Hlog & _ & Hall).
  exists sent. split; [exact Hlog|].
  apply Forall_forall. intros call Hin Hc.
  rewrite Forall_forall in Hall.
  destruct (Hall call Hin) as (k & sub & Hk & Hpy & _).
  destruct (Hkeys k) as [z ->].
  { unfold dict_keys. change k with (fst (k, sub)). now apply in_map. }
  rewrite Hint in Hpy. injection Hpy as ->. subst c.
  exact (In_dict_get _ _ _ Hk Habsent).
Qed.
End SweepAgain.

(** ** Instances of the properties of the handlers and of runs *)

(** [/check] of the only subscriber changes neither the registry nor
    the file. *)
Lemma non_mutating_event_read_only_witness :
  user_data (snd (handle example_rt (ECheck 1) one_subscriber))
  = user_data one_subscriber
  /\ user_data_file (snd (handle example_rt (ECheck 1) one_subscriber))
     = user_data_file one_subscriber.
Proof.
  apply (@non_mutating_event_read_only example_rt (ECheck 1) one_subscriber).
  vm_compute. reflexivity.
Defined.

(** Chat 1 stops: the entry of chat 2 stays. *)
Lemma other_chats_untouched_witness :
  dict_get (int_repr 2)
    (user_data (snd (handle example_rt (EStop 1)
                       (run example_rt two_monitors fresh_world))))
  = dict_get (int_repr 2)
      (user_data (run example_rt two_monitors fresh_world)).
Proof.
  apply (@other_chats_untouched example_rt (EStop 1) 2
           (run example_rt two_monitors fresh_world)).
  vm_compute. discriminate.
Defined.

(** Chat 1 stops after both chats subscribed. *)
Lemma stop_removes_own_entry_witness :
  let w' := snd (stop example_rt 1 (run example_rt two_monitors fresh_world)) in
  dict_get (int_repr 1) (user_data w') = None
  /\ (forall k, k <> int_repr 1 ->
        dict_get k (user_data w')
        = dict_get k (user_data (run example_rt two_monitors fresh_world)))
  /\ S (List.length (user_data w'))
     = List.length (user_data (run example_rt two_monitors fresh_world))
  /\ in_sync example_rt w'
  /\ rpc_log w' = rpc_log (run example_rt two_monitors fresh_world)
  /\ api_log w'
     = (api_log (run example_rt two_monitors fresh_world)
        ++ [{| chat := 1; text := "Monitoring stopped.";
               delivered :=
                 delivers example_rt
                   (List.length
                      (api_log (run example_rt two_monitors fresh_world))) |}])%list.
Proof.
  apply (@stop_removes_own_entry example_rt 1
           (run example_rt two_monitors fresh_world));
    vm_compute; reflexivity.
Defined.

(** Chat 2 subscribes and stops while chat 1 is subscribed. *)
Lemma monitor_then_stop_restores_witness :
  let w1 := snd (monitor example_rt 2 ["2.0"; weth_address] one_subscriber) in
  let w2 := snd (stop example_rt 2 w1) in
  user_data w2 = user_data one_subscriber
  /\ user_data_file w2
     = Some (json_text example_rt (reg_obj (user_data one_subscriber))).
Proof.
  apply (@monitor_then_stop_restores example_rt 2 "2.0" weth_address
           (decimal_float 2 1) one_subscriber);
    vm_compute; reflexivity.
Defined.

(** Chat 1 monitors the pool with 1.5, then the WETH contract with 2.0. *)
Lemma last_monitor_wins_witness :
  let w1 := snd (monitor example_rt 1 ["1.5"; pool_address] fresh_world) in
  user_data (snd (monitor example_rt 1 ["2.0"; weth_address] w1))
  = user_data (snd (monitor example_rt 1 ["2.0"; weth_address] fresh_world))
  /\ user_data_file (snd (monitor example_rt 1 ["2.0"; weth_address] w1))
     = user_data_file
         (snd (monitor example_rt 1 ["2.0"; weth_address] fresh_world)).
Proof.
  apply (@last_monitor_wins example_rt 1 "1.5" pool_address "2.0" weth_address
           (decimal_float 15 10) (decimal_float 2 1) fresh_world);
    vm_compute; reflexivity.
Defined.

(** The fifth call of the Telegram API fails: it is the confirmation of
    the third [/monitor]. *)
Lemma failed_confirmation_keeps_subscription_witness :
  let r := monitor blocked_rt 1 ["2.0"; weth_address]
             (run blocked_rt two_monitors fresh_world) in
  fst r = Raise TelegramError
  /\ dict_get (int_repr 1) (user_data (snd r))
     = Some {| threshold := decimal_float 2 1; address := weth_address |}
  /\ in_sync blocked_rt (snd r)
  /\ rpc_log (snd r) = rpc_log (run blocked_rt two_monitors fresh_world)
  /\ List.length (api_log (snd r))
     = S (List.length (api_log (run blocked_rt two_monitors fresh_world))).
Proof.
  apply (@failed_confirmation_keeps_subscription blocked_rt 1 "2.0"
           weth_address (decimal_float 2 1)
           (run blocked_rt two_monitors fresh_world));
    vm_compute; reflexivity.
Defined.

(** A plain message that holds the address of the pool. *)
Lemma handler_asks_source_at_most_once_witness :
  rpc_log (snd (handle example_rt (EText 1 pool_address) fresh_world))
  = (rpc_log fresh_world
     ++ match asked_address example_rt (EText 1 pool_address) fresh_world with
        | Some addr => [addr]
        | None => []
        end)%list.
Proof.
  apply (@handler_asks_source_at_most_once example_rt
           (EText 1 pool_address) fresh_world).
  discriminate.
Defined.

(** The first [/monitor] of chat 1. *)
Lemma every_command_is_answered_witness :
  exists reply rest,
    api_log (snd (handle example_rt (EMonitor 1 ["1.5"; pool_address])
                    fresh_world))
    = (api_log fresh_world ++ reply :: rest)%list
    /\ chat reply = 1
    /\ delivered reply = delivers example_rt (List.length (api_log fresh_world))
    /\ (List.length rest <= 1)%nat
    /\ match EMonitor 1 ["1.5"; pool_address] with
       | EMonitor _ _ => True
       | _ => rest = []
       end.
Proof.
  apply (@every_command_is_answered example_rt
           (EMonitor 1 ["1.5"; pool_address]) 1 fresh_world).
  reflexivity.
Defined.

(** The reading 1.2 of a position monitored with the threshold 1.2:
    the sweep sends nothing. *)
Lemma healthy_sweep_is_silent_witness :
  fst (periodic_check example_rt
         (run example_rt [EMonitor 1 ["1.2"; pool_address]] fresh_world))
  = Ok tt
  /\ api_log (snd (periodic_check example_rt
                     (run example_rt [EMonitor 1 ["1.2"; pool_address]]
                        fresh_world)))
     = api_log (run example_rt [EMonitor 1 ["1.2"; pool_address]] fresh_world)
  /\ rpc_log (snd (periodic_check example_rt
                     (run example_rt [EMonitor 1 ["1.2"; pool_address]]
                        fresh_world)))
     = (rpc_log (run example_rt [EMonitor 1 ["1.2"; pool_address]] fresh_world)
        ++ sweep_addresses
             (user_data (run example_rt [EMonitor 1 ["1.2"; pool_address]]
                           fresh_world)))%list.
Proof.
  apply (@healthy_sweep_is_silent example_rt
           (run example_rt [EMonitor 1 ["1.2"; pool_address]] fresh_world)).
  - vm_compute. reflexivity.
  - intros k sub n Hin. vm_compute in Hin.
    destruct Hin as [[= <- <-]|[]].
    exists (decimal_float 12 10). split; vm_compute; reflexivity.
Defined.

(** The sweep after the two subscriptions: both positions are below
    their thresholds. *)
Lemma sweep_sends_only_notices_witness :
  exists sent,
    api_log (snd (periodic_check example_rt
                    (run example_rt two_monitors fresh_world)))
    = (api_log (run example_rt two_monitors fresh_world) ++ sent)%list
    /\ (List.length sent
        <= List.length (user_data (run example_rt two_monitors fresh_world)))%nat
    /\ Forall (notice_of example_rt
                 (user_data (run example_rt two_monitors fresh_world))) sent
    /\ sweep_sends example_rt
         (List.length (rpc_log (run example_rt two_monitors fresh_world)))
         (List.length (api_log (run example_rt two_monitors fresh_world)))
         (user_data (run example_rt two_monitors fresh_world)) sent
    /\ forall c,
         (sent_to c sent
          <= subscriptions_of example_rt c
               (user_data (run example_rt two_monitors fresh_world)))%nat.
Proof.
  apply (@sweep_sends_only_notices example_rt
           (run example_rt two_monitors fresh_world)).
  vm_compute. reflexivity.
Defined.

(** The evaluation of chat 2 after the two subscriptions, with a
    Telegram API that fails from its fifth call on. *)
Lemma evaluation_fails_only_in_telegram_witness :
  let w := run blocked_rt two_monitors fresh_world in
  fst (check_and_notify blocked_rt "2" w) = Ok tt
  \/ (fst (check_and_notify blocked_rt "2" w) = Raise TelegramError
      /\ dict_mem "2" (user_data w) = true
      /\ delivers blocked_rt (List.length (api_log w)) = false).
Proof.
  apply (@evaluation_fails_only_in_telegram blocked_rt two_monitors
           fresh_world "2").
  - split; [reflexivity | intros k []].
  - intros z. cbn [py_int blocked_rt].
    rewrite int_of_token_int_repr. discriminate.
Defined.

(** The threshold -1.0, which [/monitor] stores, and a position whose
    health factor is 1.2. *)
Lemma nonpositive_threshold_never_alerts_witness :
  float_lt (decimal_float 12 10)
    (threshold {| threshold := decimal_float (-1) 1;
                  address := pool_address |}) = false
  /\ api_log (snd (check_and_notify example_rt "1"
                     (run example_rt [EMonitor 1 ["-1"; pool_address]]
                        fresh_world)))
     = api_log (run example_rt [EMonitor 1 ["-1"; pool_address]] fresh_world).
Proof.
  apply (@nonpositive_threshold_never_alerts example_rt "1"
           {| threshold := decimal_float (-1) 1; address := pool_address |}
           example_account_data 1200000000000000000 (decimal_float 12 10)
           (run example_rt [EMonitor 1 ["-1"; pool_address]] fresh_world));
    try (vm_compute; reflexivity).
  lia.
Defined.

(** Three subscriptions: the position of chat 1 is healthy, the alert
    for chat 2 cannot be delivered, chat 3 is not evaluated. *)
Lemma sweep_stops_at_first_failed_notification_witness :
  fst (periodic_check blocked_rt
         (run blocked_rt
            [EMonitor 1 ["1.2"; pool_address]; EMonitor 2 ["1.5"; weth_address];
             EMonitor 3 ["2.0"; pool_address]] fresh_world))
  = Raise TelegramError
  /\ rpc_log (snd (periodic_check blocked_rt
                     (run blocked_rt
                        [EMonitor 1 ["1.2"; pool_address];
                         EMonitor 2 ["1.5"; weth_address];
                         EMonitor 3 ["2.0"; pool_address]] fresh_world)))
     = (rpc_log (run blocked_rt
                   [EMonitor 1 ["1.2"; pool_address];
                    EMonitor 2 ["1.5"; weth_address];
                    EMonitor 3 ["2.0"; pool_address]] fresh_world)
        ++ sweep_addresses
             [("1", {| threshold := decimal_float 12 10;
                       address := pool_address |})]
        ++ [address {| threshold := decimal_float 15 10;
                       address := weth_address |}])%list
  /\ List.length
       (api_log (snd (periodic_check blocked_rt
                        (run blocked_rt
                           [EMonitor 1 ["1.2"; pool_address];
                            EMonitor 2 ["1.5"; weth_address];
                            EMonitor 3 ["2.0"; pool_address]] fresh_world))))
     = S (List.length
            (api_log (run blocked_rt
                        [EMonitor 1 ["1.2"; pool_address];
                         EMonitor 2 ["1.5"; weth_address];
                         EMonitor 3 ["2.0"; pool_address]] fresh_world))).
Proof.
  apply (@sweep_stops_at_first_failed_notification blocked_rt
           [("1", {| threshold := decimal_float 12 10;
                     address := pool_address |})]
           [("3", {| threshold := decimal_float 2 1;
                     address := pool_address |})]
           "2" {| threshold := decimal_float 15 10; address := weth_address |}
           2
           (run blocked_rt
              [EMonitor 1 ["1.2"; pool_address];
               EMonitor 2 ["1.5"; weth_address];
               EMonitor 3 ["2.0"; pool_address]] fresh_world)).
  - vm_compute. reflexivity.
  - vm_compute. reflexivity.
  - intros k sub n Hin. vm_compute in Hin.
    destruct Hin as [[= <- <-]|[]].
    exists (decimal_float 12 10). split; vm_compute; reflexivity.
  - vm_compute. reflexivity.
  - vm_compute. reflexivity.
  - vm_compute. reflexivity.
Defined.

(** The process that started without a file and handled the two
    subscriptions: a restart reads both back. *)
Lemma restart_recovers_registry_witness :
  load_user_data example_rt
    (user_data_file (run example_rt two_monitors fresh_world))
  = Ok (reg_obj (user_data (run example_rt two_monitors fresh_world))).
Proof.
  apply (@restart_recovers_registry example_rt two_monitors fresh_world);
    vm_compute; reflexivity.
Defined.

(** The registry of the only subscriber. *)
Lemma saved_text_determines_registry_witness :
  user_data one_subscriber = user_data one_subscriber.
Proof.
  apply (@saved_text_determines_registry example_rt
           (user_data one_subscriber) (user_data one_subscriber));
    vm_compute; reflexivity.
Defined.

(** The address of the pool between a space and a line feed. *)
Lemma handle_address_ignores_padding_witness :
  handle_address example_rt 1 (" " ++ pool_address ++ nl) fresh_world
  = handle_address example_rt 1 pool_address fresh_world.
Proof.
  apply (@handle_address_ignores_padding example_rt 1 " " pool_address nl
           fresh_world);
    vm_compute; reflexivity.
Defined.

(** The text of the empty mapping between a space and a line feed. *)
Lemma load_user_data_ignores_padding_witness :
  load_user_data example_rt (Some (" " ++ "{}" ++ nl))
  = load_user_data example_rt (Some "{}")
  /\ load_user_data example_rt (Some " ") = Ok (reg_obj []).
Proof.
  apply (@load_user_data_ignores_padding example_rt " " "{}" nl);
    vm_compute; reflexivity.
Defined.


(** Two sweeps in a row over the two subscriptions. *)
Lemma sweep_repeats_notices_witness :
  let w1 := snd (periodic_check example_rt
                   (run example_rt two_monitors fresh_world)) in
  exists sent,
    api_log w1
    = (api_log (run example_rt two_monitors fresh_world) ++ sent)%list
    /\ api_log (snd (periodic_check example_rt w1)) = (api_log w1 ++ sent)%list.
Proof.
  apply (@sweep_repeats_notices example_rt
           (run example_rt two_monitors fresh_world));
    intros; reflexivity.
Defined.

(** Chat 1 has stopped: the sweep over what is left sends it nothing. *)
Lemma sweep_spares_unsubscribed_chats_witness :
  exists sent,
    api_log (snd (periodic_check example_rt
                    (run example_rt (two_monitors ++ [EStop 1]) fresh_world)))
    = (api_log (run example_rt (two_monitors ++ [EStop 1]) fresh_world)
       ++ sent)%list
    /\ Forall (fun call => chat call <> 1) sent.
Proof.
  apply (@sweep_spares_unsubscribed_chats example_rt 1
           (run example_rt (two_monitors ++ [EStop 1]) fresh_world)).
  - apply (@keys_ok_run example_rt (two_monitors ++ [EStop 1]) fresh_world).
    split; [reflexivity | intros k []].
  - intros z. exact (int_of_token_int_repr z).
  - vm_compute. reflexivity.
Defined.

(** * The fuel of the decoder *)

(** ** What the scanners consume *)

Lemma length_skip_ws (s : string) :
  (String.length (skip_ws s) <= String.length s)%nat.
Proof.
  induction s as [|c s IH]; cbn [skip_ws]; [lia|].
  destruct (is_json_ws c); cbn [String.length]; lia.
Qed.

Lemma length_skip_ws_cons (s : string) (c : ascii) (t : string) :
  skip_ws s = String c t -> (S (String.length t) <= String.length s)%nat.
Proof.
  intros H. pose proof (length_skip_ws s) as Hl. rewrite H in Hl. exact Hl.
Qed.

Lemma length_strip_prefix (p : string) : forall s r,
  strip_prefix p s = Some r ->
  String.length s = (String.length p + String.length r)%nat.
Proof.
  induction p as [|a p IH]; intros s r; cbn [strip_prefix].
  - now intros [= ->].
  - destruct s as [|b s]; [discriminate|].
    destruct (Ascii.eqb a b); [|discriminate].
    intros H. cbn [String.length]. now rewrite (IH _ _ H).
Qed.

Lemma length_scanstring (s : string) : forall t r,
  scanstring s = Ok (t, r) -> (String.length r < String.length s)%nat.
Proof.
  induction s as [s IH] using (well_founded_induction
                                 (Wf_nat.well_founded_ltof _ String.length)).
  unfold Wf_nat.ltof in IH.
  assert (Hc : forall ch s' t r,
             (String.length s' < String.length s)%nat ->
             cons_char ch (scanstring s') = Ok (t, r) ->
             (String.length r < String.length s)%nat).
  { intros ch s' t r Hlt H. unfold cons_char in H.
    destruct (scanstring s') as [[t' r']|e] eqn:E; [|discriminate].
    injection H as _ <-. pose proof (IH s' Hlt _ _ E). lia. }
  intros t r. destruct s as [|c s1]; cbn [scanstring]; [discriminate|].
  destruct (Ascii.eqb c dquote).
  { intros [= _ <-]. cbn [String.length]. lia. }
  destruct (Ascii.eqb c backslash).
  - destruct s1 as [|e s2]; [discriminate|].
    destruct (Ascii.eqb e "u").
    + destruct s2 as [|h1 [|h2 [|h3 [|h4 s3]]]]; try discriminate.
      destruct (hex4 h1 h2 h3 h4) as [n|]; [|discriminate].
      destruct (n <? 256)%nat; [|discriminate].
      apply Hc. cbn [String.length]. lia.
    + destruct (unescape e); [|discriminate].
      apply Hc. cbn [String.length]. lia.
  - destruct (ord c <? 32)%nat; [discriminate|].
    apply Hc. cbn [String.length]. lia.
Qed.

Lemma length_match_integer (s i r : string) :
  match_integer s = Some (i, r) -> (String.length r < String.length s)%nat.
Proof.
  intros H. pose proof (match_integer_split _ H) as Hs.
  destruct (match_integer_head _ H) as (c & s' & -> & _).
  assert (Hi : i <> EmptyString).
  { intros ->. unfold match_integer in H.
    destruct (Ascii.eqb c "-").
    - destruct s' as [|c' s2]; [discriminate|].
      destruct (Ascii.eqb c' "0"); [discriminate|].
      destruct (is_digit c'); [|discriminate].
      destruct (span_digits s2); discriminate.
    - destruct (Ascii.eqb c "0"); [discriminate|].
      destruct (is_digit c); [|discriminate].
      destruct (span_digits s'); discriminate. }
  rewrite Hs, length_append. destruct i; [contradiction|].
  cbn [String.length]. lia.
Qed.

Lemma length_match_frac (s : string) :
  (String.length (snd (match_frac s)) <= String.length s)%nat.
Proof.
  pose proof (match_frac_split s) as H.
  rewrite H at 2. rewrite length_append. lia.
Qed.

Lemma length_match_exp (s : string) :
  (String.length (snd (match_exp s)) <= String.length s)%nat.
Proof.
  pose proof (match_exp_split s) as H.
  rewrite H at 2. rewrite length_append. lia.
Qed.

Section Fuel.
Context (rt : runtime).

Lemma length_scan_number (i rest : string) (v : pyobj) (r : string) :
  scan_number rt i rest = Ok (v, r) ->
  (String.length r <= String.length rest)%nat.
Proof.
  unfold scan_number.
  pose proof (length_match_frac rest) as Hf.
  destruct (match_frac rest) as [frac r2]. cbn [snd] in Hf.
  pose proof (length_match_exp r2) as He.
  destruct (match_exp r2) as [exp r3]. cbn [snd] in He.
  destruct (is_empty frac && is_empty exp).
  - destruct (parse_int i); [|discriminate]. intros [= _ <-]. lia.
  - destruct (py_float rt _); [|discriminate]. intros [= _ <-]. lia.
Qed.

(** A value, the items of an object and the items of an array take at
    least one character each. *)
Lemma scanners_consume (fuel : nat) : forall s v r,
  (scan_once rt fuel s = Ok (v, r) ->
   (String.length r < String.length s)%nat)
  /\ (forall pairs, object_items rt fuel pairs s = Ok (v, r) ->
        (String.length r < String.length s)%nat)
  /\ (forall values, array_items rt fuel values s = Ok (v, r) ->
        (String.length r < String.length s)%nat).
Proof.
  induction fuel as [|n IH]; intros s v r.
  { repeat split; intros; discriminate. }
  split; [|split].
  - cbn [scan_once]. destruct s as [|c s1]; [discriminate|].
    cbn [String.length].
    destruct (Ascii.eqb c dquote).
    { destruct (scanstring s1) as [[t r']|e] eqn:E; [|discriminate].
      intros [= _ <-]. pose proof (length_scanstring _ E). lia. }
    destruct (Ascii.eqb c "{").
    { destruct (skip_ws s1) as [|c2 s2] eqn:E; [discriminate|].
      pose proof (length_skip_ws_cons _ E) as Hl.
      destruct (Ascii.eqb c2 "}"); [intros [= _ <-]; lia|].
      destruct (Ascii.eqb c2 dquote); [|discriminate].
      intros H. apply (proj1 (proj2 (IH s2 v r))) in H. lia. }
    destruct (Ascii.eqb c "[").
    { pose proof (length_skip_ws s1) as Hl.
      destruct (skip_ws s1) as [|c2 s2] eqn:E.
      - intros H. apply (proj2 (proj2 (IH _ v r))) in H.
        cbn [String.length] in H. lia.
      - destruct (Ascii.eqb c2 "]").
        + intros [= _ <-]. cbn [String.length] in Hl. lia.
        + intros H. apply (proj2 (proj2 (IH _ v r))) in H. lia. }
    change (S (String.length s1)) with (String.length (String c s1)).
    generalize (String c s1). intros s.
    destruct (strip_prefix "null" s) eqn:E1.
    { intros [= _ <-]. apply length_strip_prefix in E1.
      cbn [String.length] in E1. lia. }
    destruct (strip_prefix "true" s) eqn:E2.
    { intros [= _ <-]. apply length_strip_prefix in E2.
      cbn [String.length] in E2. lia. }
    destruct (strip_prefix "false" s) eqn:E3.
    { intros [= _ <-]. apply length_strip_prefix in E3.
      cbn [String.length] in E3. lia. }
    destruct (match_integer s) as [[i r1]|] eqn:E4.
    { intros H. apply length_scan_number in H.
      pose proof (length_match_integer _ E4). lia. }
    destruct (strip_prefix "NaN" s) eqn:E5.
    { intros [= _ <-]. apply length_strip_prefix in E5.
      cbn [String.length] in E5. lia. }
    destruct (strip_prefix "Infinity" s) eqn:E6.
    { intros [= _ <-]. apply length_strip_prefix in E6.
      cbn [String.length] in E6. lia. }
    destruct (strip_prefix "-Infinity" s) eqn:E7; [|discriminate].
    intros [= _ <-]. apply length_strip_prefix in E7.
    cbn [String.length] in E7. lia.
  - intros pairs. cbn [object_items].
    destruct (scanstring s) as [[key s1]|e] eqn:E; [|discriminate].
    pose proof (length_scanstring _ E) as H1.
    destruct (skip_ws s1) as [|c s2] eqn:E2; [discriminate|].
    pose proof (length_skip_ws_cons _ E2) as H2.
    destruct (Ascii.eqb c ":"); [|discriminate].
    pose proof (length_skip_ws s2) as H3.
    destruct (scan_once rt n (skip_ws s2)) as [[value s3]|e] eqn:E3;
      [|discriminate].
    apply (proj1 (IH _ _ _)) in E3.
    destruct (skip_ws s3) as [|c3 s4] eqn:E4; [discriminate|].
    pose proof (length_skip_ws_cons _ E4) as H4.
    destruct (Ascii.eqb c3 "}"); [intros [= _ <-]; lia|].
    destruct (Ascii.eqb c3 ","); [|discriminate].
    destruct (skip_ws s4) as [|c5 s5] eqn:E5; [discriminate|].
    pose proof (length_skip_ws_cons _ E5) as H5.
    destruct (Ascii.eqb c5 dquote); [|discriminate].
    intros H. apply (proj1 (proj2 (IH s5 v r))) in H. lia.
  - intros values. cbn [array_items].
    destruct (scan_once rt n s) as [[value s1]|e] eqn:E; [|discriminate].
    apply (proj1 (IH _ _ _)) in E.
    destruct (skip_ws s1) as [|c s2] eqn:E2; [discriminate|].
    pose proof (length_skip_ws_cons _ E2) as H2.
    destruct (Ascii.eqb c "]"); [intros [= _ <-]; lia|].
    destruct (Ascii.eqb c ","); [|discriminate].
    pose proof (length_skip_ws s2) as H3.
    intros H. apply (proj2 (proj2 (IH _ v r))) in H. lia.
Qed.

(** ** More fuel changes nothing *)

(** With [2 * n + 1] nested calls for a value of [n] characters, and
    one more for the items of an object or of an array, the result no
    longer depends on the fuel. *)
Lemma scanners_fuel (fuel1 : nat) : forall fuel2 s,
  ((2 * String.length s < fuel1)%nat -> (2 * String.length s < fuel2)%nat ->
   scan_once rt fuel1 s = scan_once rt fuel2 s)
  /\ (forall pairs,
        (2 * String.length s + 1 < fuel1)%nat ->
        (2 * String.length s + 1 < fuel2)%nat ->
        object_items rt fuel1 pairs s = object_items rt fuel2 pairs s)
  /\ (forall values,
        (2 * String.length s + 1 < fuel1)%nat ->
        (2 * String.length s + 1 < fuel2)%nat ->
        array_items rt fuel1 values s = array_items rt fuel2 values s).
Proof.
  induction fuel1 as [|n IH]; intros fuel2 s.
  { repeat split; intros; lia. }
  destruct fuel2 as [|m].
  { repeat split; intros; lia. }
  split; [|split].
  - intros H1 H2. cbn [scan_once].
    destruct s as [|c s1]; [reflexivity|]. cbn [String.length] in H1, H2.
    destruct (Ascii.eqb c dquote); [reflexivity|].
    destruct (Ascii.eqb c "{").
    { destruct (skip_ws s1) as [|c2 s2] eqn:E; [reflexivity|].
      pose proof (length_skip_ws_cons _ E) as Hl.
      destruct (Ascii.eqb c2 "}"); [reflexivity|].
      destruct (Ascii.eqb c2 dquote); [|reflexivity].
      apply (proj1 (proj2 (IH m s2))); lia. }
    destruct (Ascii.eqb c "["); [|reflexivity].
    pose proof (length_skip_ws s1) as Hl.
    destruct (skip_ws s1) as [|c2 s2] eqn:E.
    + apply (proj2 (proj2 (IH m EmptyString))); cbn [String.length]; lia.
    + destruct (Ascii.eqb c2 "]"); [reflexivity|].
      apply (proj2 (proj2 (IH m (String c2 s2)))); lia.
  - intros pairs H1 H2. cbn [object_items].
    destruct (scanstring s) as [[key s1]|e] eqn:E; [|reflexivity].
    pose proof (length_scanstring _ E) as L1.
    destruct (skip_ws s1) as [|c s2] eqn:E2; [reflexivity|].
    pose proof (length_skip_ws_cons _ E2) as L2.
    destruct (Ascii.eqb c ":"); [|reflexivity].
    pose proof (length_skip_ws s2) as L3.
    rewrite (proj1 (IH m (skip_ws s2))) by lia.
    destruct (scan_once rt m (skip_ws s2)) as [[value s3]|e] eqn:E3;
      [|reflexivity].
    apply (proj1 (scanners_consume _ _ _ _)) in E3.
    destruct (skip_ws s3) as [|c3 s4] eqn:E4; [reflexivity|].
    pose proof (length_skip_ws_cons _ E4) as L4.
    destruct (Ascii.eqb c3 "}"); [reflexivity|].
    destruct (Ascii.eqb c3 ","); [|reflexivity].
    destruct (skip_ws s4) as [|c5 s5] eqn:E5; [reflexivity|].
    pose proof (length_skip_ws_cons _ E5) as L5.
    destruct (Ascii.eqb c5 dquote); [|reflexivity].
    apply (proj1 (proj2 (IH m s5))); lia.
  - intros values H1 H2. cbn [array_items].
    rewrite (proj1 (IH m s)) by lia.
    destruct (scan_once rt m s) as [[value s1]|e] eqn:E; [|reflexivity].
    apply (proj1 (scanners_consume _ _ _ _)) in E.
    destruct (skip_ws s1) as [|c s2] eqn:E2; [reflexivity|].
    pose proof (length_skip_ws_cons _ E2) as L2.
    destruct (Ascii.eqb c "]"); [reflexivity|].
    destruct (Ascii.eqb c ","); [|reflexivity].
    pose proof (length_skip_ws s2) as L3.
    apply (proj2 (proj2 (IH m (skip_ws s2)))); lia.
Qed.

(** The fuel that [json_loads] gives is enough for every text: with
    more of it the result is the same. *)
Lemma json_loads_fuel (s : string) (extra : nat) :
  scan_once rt (S (2 * String.length s) + extra) (skip_ws s)
  = scan_once rt (S (2 * String.length s)) (skip_ws s).
Proof.
  pose proof (length_skip_ws s) as Hl.
  apply (proj1 (scanners_fuel _ _ _)); lia.
Qed.

(** [json.loads] does not depend on the bound of the decoder: a text
    that it reads, or rejects, is read or rejected in the same way
    with any larger bound. *)
Lemma json_loads_any_fuel (s : string) (fuel : nat) :
  (2 * String.length s < fuel)%nat ->
  json_loads rt s
  = match scan_once rt fuel (skip_ws s) with
    | Raise e => Raise e
    | Ok (obj, rest) =>
        if is_empty (skip_ws rest) then Ok obj else Raise JSONDecodeError
    end.
Proof.
  intros H. unfold json_loads.
  pose proof (length_skip_ws s) as Hl.
  now rewrite (proj1 (scanners_fuel (S (2 * String.length s)) fuel
                        (skip_ws s))) by lia.
Qed.
End Fuel.

(** * What [load_user_data] does with a content that is not JSON *)

(** ** The head of a stripped text *)

Lemma lstrip_head (s : string) (c : ascii) (t : string) :
  lstrip s = String c t -> is_py_space c = false.
Proof.
  induction s as [|x s IH]; cbn [lstrip]; [discriminate|].
  destruct (is_py_space x) eqn:Hx; [exact IH|].
  now intros [= <- _].
Qed.

Lemma rstrip_head (s : string) (c : ascii) (t : string) :
  rstrip s = String c t -> exists t', s = String c t'.
Proof.
  destruct s as [|x s]; cbn [rstrip]; [discriminate|].
  destruct (rstrip s).
  - destruct (is_py_space x); [discriminate|].
    intros [= <- _]. now exists s.
  - intros [= <- _]. now exists s.
Qed.

Lemma py_strip_head (s : string) (c : ascii) (t : string) :
  py_strip s = String c t -> is_py_space c = false.
Proof.
  unfold py_strip. intros H.
  destruct (rstrip_head _ H) as [t' Ht']. exact (lstrip_head _ Ht').
Qed.

Lemma json_ws_is_py_space (c : ascii) :
  is_json_ws c = true -> is_py_space c = true.
Proof.
  destruct c as [[] [] [] [] [] [] [] []]; vm_compute; congruence.
Qed.

Lemma skip_ws_stripped (s : string) : skip_ws (py_strip s) = py_strip s.
Proof.
  destruct (py_strip s) as [|c t] eqn:E; [reflexivity|].
  cbn [skip_ws]. pose proof (py_strip_head _ E) as Hc.
  destruct (is_json_ws c) eqn:Hw; [|reflexivity].
  apply json_ws_is_py_space in Hw. congruence.
Qed.

Section Unparsable.
Context (rt : runtime).




End Unparsable.



(** The confirmation of an accepted [/monitor] is the fifth call of the
    Telegram API and fails: the subscription is stored and saved, the
    handler ends with the exception, and the evaluation does not take
    place (the metric source is not asked). *)
Lemma upsert_without_evaluation :
  let w := run blocked_rt two_monitors fresh_world in
  let r := monitor blocked_rt 2 ["1.5"; pool_address] w in
  py_float blocked_rt "1.5" = Some (decimal_float 15 10)
  /\ is_address blocked_rt pool_address = true
  /\ dict_get (int_repr 2) (user_data (snd r))
     = Some {| threshold := decimal_float 15 10; address := pool_address |}
  /\ user_data_file (snd r)
     = Some (json_text blocked_rt (reg_obj (user_data (snd r))))
  /\ fst r = Raise TelegramError
  /\ rpc_log (snd r) = rpc_log w
  /\ rpc_log (snd r) <> (rpc_log w ++ [pool_address])%list
  /\ List.length (api_log (snd r)) = S (List.length (api_log w)).
Proof. vm_compute. repeat split. discriminate. Qed.
